(** * Asset-optimization pipeline ([build/optimize.js])

    A shallow embedding of the build script: the per-kind transformers
    ([optimizeImage], [optimizeCSS], [optimizeJS], [copyFile]), the
    driver [processAssets] with its four per-file [try]/[catch] loops, and
    [main] with its exit code.

    The script is effectful glue around third-party libraries (sharp,
    imagemin, svgo, terser, postcss, glob, [fs]).  Everything the script
    itself decides (control flow, options passed to the libraries, records
    pushed, log lines, exit code) is modelled as it is written; what the
    libraries and the file system answer is taken from a [World] record of
    oracles.  Effects are threaded through a state-and-exception monad
    whose state holds the files written, the directories known to exist
    and the log.  Wall-clock values ([timestamp], [duration]), the
    floating-point [savings] percentage and the [stack] of an error are
    left out of the log entries, and the [context] object out of an
    [OptimizationError]. *)

From Stdlib Require Import ZArith Ascii String List Lia Bool.
From stdpp Require Import base option list strings gmap.
Import ListNotations.
Set Warnings "-register-all".
Local Open Scope Z_scope.

(** ** Strings as JavaScript uses them *)

Module Str.

Definition lower_ascii (c : ascii) : ascii :=
  let n := nat_of_ascii c in
  if ((65 <=? n)%nat && (n <=? 90)%nat)%bool then ascii_of_nat (n + 32) else c.

(** [String.prototype.toLowerCase], on the ASCII range. *)
Fixpoint toLowerCase (s : string) : string :=
  match s with
  | EmptyString => EmptyString
  | String c s' => String (lower_ascii c) (toLowerCase s')
  end.

Fixpoint endsWith (s suf : string) : bool :=
  if String.eqb s suf then true
  else match s with
       | EmptyString => false
       | String _ s' => endsWith s' suf
       end.

Fixpoint startsWith (s pre : string) {struct pre} : bool :=
  match pre, s with
  | EmptyString, _ => true
  | String a pre', String b s' => Ascii.eqb a b && startsWith s' pre'
  | String _ _, EmptyString => false
  end.

(** [s] without the suffix [suf], when it ends with it. *)
Fixpoint stripSuffix (s suf : string) : option string :=
  if String.eqb s suf then Some EmptyString
  else match s with
       | EmptyString => None
       | String c s' => String c <$> stripSuffix s' suf
       end.

Fixpoint stripPrefix (s pre : string) {struct pre} : option string :=
  match pre, s with
  | EmptyString, _ => Some s
  | String a pre', String b s' =>
      if Ascii.eqb a b then stripPrefix s' pre' else None
  | String _ _, EmptyString => None
  end.

Fixpoint join (sep : string) (l : list string) : string :=
  match l with
  | [] => EmptyString
  | [x] => x
  | x :: rest => x +:+ sep +:+ join sep rest
  end.

End Str.

(** ** Node's [path] module, POSIX flavour *)

Module Path.

(** The pieces of [s] between slashes: ["a/b"] gives [["a"; "b"]], a
    leading slash gives a leading empty piece. *)
Fixpoint segments (s : string) : list string :=
  match s with
  | EmptyString => [EmptyString]
  | String c s' =>
      if Ascii.eqb c "/"
      then EmptyString :: segments s'
      else match segments s' with
           | [] => [String c EmptyString]
           | seg :: rest => String c seg :: rest
           end
  end.

Definition nonempty (s : string) : bool := negb (String.eqb s "").

Definition isAbsolute (p : string) : bool := Str.startsWith p "/".

(** One pass of [normalizeString]: drop empty and ["."] pieces, let
    [".."] cancel the piece before it ([acc] is reversed). *)
Fixpoint resolveDots (abs : bool) (acc : list string) (segs : list string)
  : list string :=
  match segs with
  | [] => rev acc
  | seg :: rest =>
      if (String.eqb seg "" || String.eqb seg ".")%bool
      then resolveDots abs acc rest
      else if String.eqb seg ".."
      then match acc with
           | top :: acc' =>
               if String.eqb top ".."
               then resolveDots abs (seg :: acc) rest
               else resolveDots abs acc' rest
           | [] =>
               if abs then resolveDots abs acc rest
               else resolveDots abs [seg] rest
           end
      else resolveDots abs (seg :: acc) rest
  end.

(** [path.normalize(p)]; a trailing slash is kept. *)
Definition normalize (p : string) : string :=
  if String.eqb p "" then "."
  else
    let abs := isAbsolute p in
    let trailingSeparator := Str.endsWith p "/" in
    let body := Str.join "/" (resolveDots abs [] (segments p)) in
    if String.eqb body ""
    then (if abs then "/" else if trailingSeparator then "./" else ".")
    else
      let body := if trailingSeparator then body +:+ "/" else body in
      if abs then "/" +:+ body else body.

(** [path.join(...parts)]: the non-empty parts glued with slashes,
    then normalised. *)
Definition join (parts : list string) : string :=
  match filter (fun s => Is_true (nonempty s)) parts with
  | [] => "."
  | ps => normalize (Str.join "/" ps)
  end.

(** [path.basename(p)]: the last non-empty piece. *)
Definition basename (p : string) : string :=
  List.last (filter (fun s => Is_true (nonempty s)) (segments p)) "".

(** [path.basename(p, ext)]: the suffix is removed unless it is the
    whole name. *)
Definition basenameExt (p ext : string) : string :=
  let b := basename p in
  if String.eqb ext "" then b
  else if String.eqb p ext then ""
  else if String.eqb b ext then b
  else match Str.stripSuffix b ext with
       | Some stem => stem
       | None => b
       end.

(** The suffix of [s] that starts at its last dot. *)
Fixpoint lastDot (s : string) : option string :=
  match s with
  | EmptyString => None
  | String c s' =>
      match lastDot s' with
      | Some e => Some e
      | None => if Ascii.eqb c "." then Some s else None
      end
  end.

(** [path.extname(p)]: from the last dot of the base name on; a dot
    in first position does not start an extension, and [".."] has none. *)
Definition extname (p : string) : string :=
  match basename p with
  | EmptyString => ""
  | String c rest =>
      if String.eqb (String c rest) ".." then ""
      else match lastDot rest with
           | Some e => e
           | None => ""
           end
  end.

(** [path.dirname(p)], for paths without repeated slashes (the script
    only takes the directory of results of [join] and [relative]). *)
Definition dirname (p : string) : string :=
  let segs := filter (fun s => Is_true (nonempty s)) (segments p) in
  let body := Str.join "/" (removelast segs) in
  if isAbsolute p then "/" +:+ body
  else if String.eqb body "" then "." else body.

Fixpoint prefixes (acc segs : list string) : list (list string) :=
  match segs with
  | [] => []
  | seg :: rest => (acc ++ [seg]) :: prefixes (acc ++ [seg]) rest
  end.

(** A directory and the directories above it, outermost first. *)
Definition ancestors (p : string) : list string :=
  filter (fun s => Is_true (nonempty s)) (map (Str.join "/") (prefixes [] (segments p))).

Fixpoint dropCommon (a b : list string) : list string * list string :=
  match a, b with
  | x :: a', y :: b' => if String.eqb x y then dropCommon a' b' else (a, b)
  | _, _ => (a, b)
  end.

(** [path.relative(from, to)] for two absolute paths. *)
Definition relative (from to : string) : string :=
  let fs := resolveDots true [] (segments from) in
  let ts := resolveDots true [] (segments to) in
  let '(fs', ts') := dropCommon fs ts in
  Str.join "/" (List.repeat ".." (length fs') ++ ts').

End Path.

(** ** Configuration *)

Module CONFIG.
Definition IMAGE_QUALITY_webp : Z := 80.
Definition IMAGE_QUALITY_jpeg : Z := 85.
Definition IMAGE_QUALITY_png : Z := 90.
Definition IMAGE_SIZES : list Z := [320; 640; 1024; 1920].
Definition MAX_IMAGE_WIDTH : Z := 1920.
Definition CACHE_DURATION : Z := 31536000.
Definition GZIP_LEVEL : Z := 9.
End CONFIG.

(** The [Set] of accepted extensions, in insertion order. *)
Definition SUPPORTED_IMAGE_FORMATS : list string :=
  [".jpg"; ".jpeg"; ".png"; ".svg"; ".webp"].

Definition SUPPORTED_IMAGE_FORMATS_has (ext : string) : bool :=
  existsb (String.eqb ext) SUPPORTED_IMAGE_FORMATS.

(** ** Values, errors, records *)

(** JSON values, for the metadata of log lines. *)
Inductive JVal :=
| JNull
| JBool (b : bool)
| JNum (n : Z)
| JStr (s : string)
| JArr (l : list JVal)
| JObj (l : list (string * JVal)).

Inductive Level := INFO | WARN | ERROR.

Record LogEntry := mkLog {
  level : Level;
  message : string;
  meta : list (string * JVal)
}.

(** A thrown [Error]: its [name], [message] and, for an
    [OptimizationError], the [cause] it wraps. *)
Inductive Exc :=
| mkExc (name : string) (msg : string) (cause : option Exc).

Definition exc_name (e : Exc) : string := let 'mkExc n _ _ := e in n.
Definition exc_message (e : Exc) : string := let 'mkExc _ m _ := e in m.
Definition exc_cause (e : Exc) : option Exc := let 'mkExc _ _ c := e in c.

Definition Error (msg : string) : Exc := mkExc "Error" msg None.
Definition OptimizationError (msg : string) (cause : Exc) : Exc :=
  mkExc "OptimizationError" msg (Some cause).

Inductive result (A : Type) :=
| Ok (a : A)
| Err (e : Exc).
Arguments Ok {A} a.
Arguments Err {A} e.

(** What a file holds: raw bytes, or an encoded raster image of which
    only the format, the pixel width and the byte length are kept. *)
Inductive Buffer :=
| Bytes (s : string)
| Raster (format : string) (width : Z) (len : Z).

Definition buffer_length (b : Buffer) : Z :=
  match b with
  | Bytes s => Z.of_nat (String.length s)
  | Raster _ _ len => len
  end.

(** An entry of [results.images]. *)
Record ImageRecord := mkImage {
  img_path : string;
  img_format : string;
  img_size : Z
}.

(** An entry of [results.css], [results.js] or [results.html]. *)
Record FileRecord := mkFile {
  file_path : string;
  file_size : Z
}.

(** An entry of [results.errors]. *)
Record ErrorRecord := mkError {
  err_type : string;
  err_path : string;
  err_error : string
}.

Record Results := mkResults {
  images : list ImageRecord;
  css : list FileRecord;
  js : list FileRecord;
  html : list FileRecord;
  other : list FileRecord;
  errors : list ErrorRecord
}.

Definition empty_results : Results := mkResults [] [] [] [] [] [].

Definition push_images (r : Results) (l : list ImageRecord) : Results :=
  mkResults (images r ++ l) (css r) (js r) (html r) (other r) (errors r).
Definition push_css (r : Results) (x : FileRecord) : Results :=
  mkResults (images r) (css r ++ [x]) (js r) (html r) (other r) (errors r).
Definition push_js (r : Results) (x : FileRecord) : Results :=
  mkResults (images r) (css r) (js r ++ [x]) (html r) (other r) (errors r).
Definition push_html (r : Results) (x : FileRecord) : Results :=
  mkResults (images r) (css r) (js r) (html r ++ [x]) (other r) (errors r).
Definition push_error (r : Results) (x : ErrorRecord) : Results :=
  mkResults (images r) (css r) (js r) (html r) (other r) (errors r ++ [x]).

(** ** Options handed to the libraries *)

Record SvgoPlugin := mkPlugin { plugin_name : string; plugin_active : bool }.

Inductive SharpOutput :=
| ToWebp (quality : Z)
| ToJpeg (quality : Z) (progressive : bool)
| ToPng (compressionLevel : Z).

Record ResizeOptions := mkResize { withoutEnlargement : bool; fit : string }.

Record Metadata := mkMetadata { md_width : option Z }.

Record CompressOptions := mkCompress {
  dead_code : bool;
  drop_console : bool;
  drop_debugger : bool;
  keep_classnames : bool;
  keep_fnames : bool;
  passes : Z
}.
Record MangleOptions := mkMangle { toplevel : bool; safari10 : bool }.
Record FormatOptions := mkFormat { comments : bool; ecma : Z }.
Record SourceMapOptions := mkSourceMap { sm_filename : string; sm_url : string }.
Record TerserOptions := mkTerser {
  compress : CompressOptions;
  mangle : MangleOptions;
  format : FormatOptions;
  sourceMap : SourceMapOptions
}.
(** What [terser.minify] resolves to; [code] may be [undefined]. *)
Record MinifyOutput := mkMinify { min_code : option string; min_map : option string }.

Record CssnanoOptions := mkCssnano {
  preset : string;
  discardComments_removeAll : bool;
  normalizeWhitespace : bool;
  minifyFontValues : bool;
  minifySelectors : bool
}.
Inductive PostcssPlugin :=
| autoprefixer (overrideBrowserslist : list string)
| cssnano (o : CssnanoOptions).
Record ProcessOptions := mkProcess { from : string; to : string }.
Record PostcssResult := mkPostcss { res_css : string; res_map : option string }.

(** ** The world outside the script *)

Record World := mkWorld {
  (** [__dirname], the directory of the script *)
  script_dirname : string;
  (** the files below the source root, as paths relative to it *)
  tree : list string;
  (** whether a [glob] call with these patterns rejects *)
  glob_error : list string -> option Exc;
  fs_mkdir : string -> result unit;
  fs_readFile : string -> result string;
  fs_writeFile : string -> result unit;
  (** [fs.copyFile]: the bytes copied, or a failure *)
  fs_copyFile : string -> string -> result string;
  fs_stat : string -> result unit;
  sharp_metadata : string -> result Metadata;
  (** [toBuffer] of a resize-and-encode pipeline: the byte length *)
  sharp_toBuffer : string -> Z -> ResizeOptions -> SharpOutput -> result Z;
  imagemin_mozjpeg : Z -> Buffer -> result Buffer;
  imagemin_pngquant : Z * Z -> Z -> Buffer -> result Buffer;
  imagemin_svgo : list SvgoPlugin -> string -> result string;
  terserMinify : string -> TerserOptions -> result MinifyOutput;
  postcss_process : list PostcssPlugin -> string -> ProcessOptions -> result PostcssResult
}.

Definition SOURCE_DIR (w : World) : string := Path.join [script_dirname w; ".."].
Definition BUILD_DIR (w : World) : string := Path.join [script_dirname w; ".."; "dist"].

(** ** State and the monad of effects *)

Record St := mkSt {
  fs_files : gmap string Buffer;   (* files written so far *)
  fs_dirs : gset string;           (* directories known to exist *)
  log : list LogEntry              (* log lines, oldest first *)
}.

Definition M (A : Type) : Type := St -> result A * St.

Definition ret {A} (a : A) : M A := fun st => (Ok a, st).
Definition throw {A} (e : Exc) : M A := fun st => (Err e, st).
Definition bind {A B} (m : M A) (k : A -> M B) : M B :=
  fun st => match m st with
            | (Ok a, st') => k a st'
            | (Err e, st') => (Err e, st')
            end.
(** [try { m } catch (e) { h e }] *)
Definition try_catch {A} (m : M A) (h : Exc -> M A) : M A :=
  fun st => match m st with
            | (Ok a, st') => (Ok a, st')
            | (Err e, st') => h e st'
            end.
(** Await a library call that has no effect on the state. *)
Definition await {A} (r : result A) : M A := fun st => (r, st).

Notation "x <- m ;; k" := (bind m (fun x => k))
  (at level 100, m at next level, right associativity).
Notation "m ;;; k" := (bind m (fun _ => k))
  (at level 100, right associativity).

(** [for (const x of xs) { r = body r x }] *)
Fixpoint for_of {A R} (body : R -> A -> M R) (xs : list A) (r : R) : M R :=
  match xs with
  | [] => ret r
  | x :: rest => r' <- body r x ;; for_of body rest r'
  end.

Definition add_log (e : LogEntry) : M unit :=
  fun st => (Ok tt, mkSt (fs_files st) (fs_dirs st) (log st ++ [e])).

Module logger.
Definition info (msg : string) (m : list (string * JVal)) : M unit :=
  add_log (mkLog INFO msg m).
Definition error (msg : string) (e : option Exc) (m : list (string * JVal)) : M unit :=
  add_log (mkLog ERROR msg
             (match e with
              | Some x => ("error", JStr (exc_message x)) :: m
              | None => m
              end)).
Definition warn (msg : string) (m : list (string * JVal)) : M unit :=
  add_log (mkLog WARN msg m).
End logger.

(** [fs.access(dir)] resolves exactly on the directories known to exist. *)
Definition fs_access (dirPath : string) : M bool :=
  fun st => (Ok (bool_decide (dirPath ∈ fs_dirs st)), st).

(** [fs.mkdir(dir, { recursive: true })]: the directory and those above
    it exist afterwards. *)
Definition mkdir (w : World) (dirPath : string) : M unit :=
  fun st => match fs_mkdir w dirPath with
            | Ok _ =>
                (Ok tt, mkSt (fs_files st)
                          (list_to_set (Path.ancestors dirPath) ∪ fs_dirs st) (log st))
            | Err e => (Err e, st)
            end.

Definition writeFile (w : World) (p : string) (b : Buffer) : M unit :=
  fun st => match fs_writeFile w p with
            | Ok _ => (Ok tt, mkSt (<[p := b]> (fs_files st)) (fs_dirs st) (log st))
            | Err e => (Err e, st)
            end.

Definition ensureDirectory (w : World) (dirPath : string) : M unit :=
  ok <- fs_access dirPath ;;
  if ok then ret tt
  else mkdir w dirPath ;;;
       logger.info "Created directory" [("path", JStr dirPath)].

(** ** sharp, as the script drives it *)

(** [Math.min(width, max)]; an [undefined] width gives [NaN], here [None]. *)
Definition Math_min (a : option Z) (b : Z) : option Z := (fun x => Z.min x b) <$> a.

Definition sharp_format (out : SharpOutput) : string :=
  match out with
  | ToWebp _ => "webp"
  | ToJpeg _ _ => "jpeg"
  | ToPng _ => "png"
  end.

(** Pixel width after [resize(target, null, opts)] of an image [natural]
    pixels wide: the target, except that [withoutEnlargement] keeps a
    narrower image as it is. *)
Definition sharp_resize_width (natural target : Z) (o : ResizeOptions) : Z :=
  if (withoutEnlargement o && (natural <? target))%bool then natural else target.

(** [image.resize(targetWidth, null, opts).<format>(..).toBuffer()].
    [resize] rejects a width that is not a positive integer. *)
Definition sharp_pipeline (w : World) (inputPath : string) (metadata : Metadata)
    (targetWidth : option Z) (o : ResizeOptions) (out : SharpOutput) : M Buffer :=
  match targetWidth with
  | None => throw (Error "Expected positive integer for width but received NaN of type number")
  | Some tw =>
      if tw <=? 0
      then throw (Error "Expected positive integer for width")
      else
        len <- await (sharp_toBuffer w inputPath tw o out) ;;
        ret (Raster (sharp_format out)
               (sharp_resize_width (default tw (md_width metadata)) tw o) len)
  end.

(** ** The transformers *)

Definition svgo_plugins : list SvgoPlugin :=
  [ mkPlugin "removeViewBox" false;
    mkPlugin "cleanupIDs" true;
    mkPlugin "removeUnusedNS" true ].

Definition resize_options : ResizeOptions := mkResize true "inside".

Definition optimizeImage (w : World) (inputPath outputDir : string)
  : M (list ImageRecord) :=
  let ext := Str.toLowerCase (Path.extname inputPath) in
  let basename := Path.basenameExt inputPath ext in
  let relativePath := Path.relative (SOURCE_DIR w) inputPath in
  if negb (SUPPORTED_IMAGE_FORMATS_has ext)
  then
    logger.warn "Unsupported image format"
      [("path", JStr inputPath); ("ext", JStr ext)] ;;;
    ret []
  else
    try_catch
      (ensureDirectory w outputDir ;;;
       if String.eqb ext ".svg"
       then
         svgBuffer <- await (fs_readFile w inputPath) ;;
         optimized <- await (imagemin_svgo w svgo_plugins svgBuffer) ;;
         let outputPath := Path.join [outputDir; basename +:+ ".svg"] in
         writeFile w outputPath (Bytes optimized) ;;;
         let originalSize := buffer_length (Bytes svgBuffer) in
         let optimizedSize := buffer_length (Bytes optimized) in
         let optimizedFiles := [mkImage outputPath "svg" optimizedSize] in
         logger.info "Optimized SVG"
           [("input", JStr relativePath);
            ("output", JStr (Path.basename outputPath));
            ("originalSize", JNum originalSize);
            ("optimizedSize", JNum optimizedSize)] ;;;
         ret optimizedFiles
       else
         metadata <- await (sharp_metadata w inputPath) ;;
         let targetWidth := Math_min (md_width metadata) CONFIG.MAX_IMAGE_WIDTH in
         webpBuffer <- sharp_pipeline w inputPath metadata targetWidth resize_options
                         (ToWebp CONFIG.IMAGE_QUALITY_webp) ;;
         let webpPath := Path.join [outputDir; basename +:+ ".webp"] in
         writeFile w webpPath webpBuffer ;;;
         let optimizedFiles := [mkImage webpPath "webp" (buffer_length webpBuffer)] in
         optimizedFiles <-
           (if (String.eqb ext ".jpg" || String.eqb ext ".jpeg")%bool
            then
              jpegBuffer <- sharp_pipeline w inputPath metadata targetWidth resize_options
                              (ToJpeg CONFIG.IMAGE_QUALITY_jpeg true) ;;
              optimized <- await (imagemin_mozjpeg w CONFIG.IMAGE_QUALITY_jpeg jpegBuffer) ;;
              let jpegPath := Path.join [outputDir; basename +:+ ".jpg"] in
              writeFile w jpegPath optimized ;;;
              ret (optimizedFiles ++ [mkImage jpegPath "jpeg" (buffer_length optimized)])
            else if String.eqb ext ".png"
            then
              pngBuffer <- sharp_pipeline w inputPath metadata targetWidth resize_options
                             (ToPng 9) ;;
              optimized <- await (imagemin_pngquant w (80, 90) 1 pngBuffer) ;;
              let pngPath := Path.join [outputDir; basename +:+ ".png"] in
              writeFile w pngPath optimized ;;;
              ret (optimizedFiles ++ [mkImage pngPath "png" (buffer_length optimized)])
            else ret optimizedFiles) ;;
         let totalSize := fold_left (fun sum file => sum + img_size file) optimizedFiles 0 in
         logger.info "Optimized image"
           [("input", JStr relativePath);
            ("formats", JStr (Str.join ", " (map img_format optimizedFiles)));
            ("totalSize", JNum totalSize)] ;;;
         ret optimizedFiles)
      (fun error =>
         throw (OptimizationError ("Failed to optimize image: " +:+ relativePath) error)).

Definition postcss_plugins : list PostcssPlugin :=
  [ autoprefixer ["> 1%"; "last 2 versions"; "not dead"];
    cssnano (mkCssnano "default" true true true true) ].

Definition optimizeCSS (w : World) (inputPath outputPath : string) : M FileRecord :=
  let relativePath := Path.relative (SOURCE_DIR w) inputPath in
  try_catch
    (css <- await (fs_readFile w inputPath) ;;
     let originalSize := buffer_length (Bytes css) in
     result <- await (postcss_process w postcss_plugins css (mkProcess inputPath outputPath)) ;;
     let optimizedSize := buffer_length (Bytes (res_css result)) in
     ensureDirectory w (Path.dirname outputPath) ;;;
     writeFile w outputPath (Bytes (res_css result)) ;;;
     match res_map result with
     | Some map => writeFile w (outputPath +:+ ".map") (Bytes map)
     | None => ret tt
     end ;;;
     logger.info "Optimized CSS"
       [("input", JStr relativePath);
        ("output", JStr (Path.basename outputPath));
        ("originalSize", JNum originalSize);
        ("optimizedSize", JNum optimizedSize)] ;;;
     ret (mkFile outputPath optimizedSize))
    (fun error =>
       throw (OptimizationError ("Failed to optimize CSS: " +:+ relativePath) error)).

Definition terser_options (outputPath : string) : TerserOptions :=
  mkTerser
    (mkCompress true false true false false 2)
    (mkMangle true true)
    (mkFormat false 2020)
    (mkSourceMap (Path.basename outputPath) (Path.basename outputPath +:+ ".map")).

(** JavaScript truthiness of an optional string: [undefined] and [""]
    are falsy. *)
Definition truthy (s : option string) : bool :=
  match s with
  | Some x => Path.nonempty x
  | None => false
  end.

Module JSON.
Definition hex_digit (n : nat) : ascii :=
  ascii_of_nat (if (n <? 10)%nat then 48 + n else 87 + n).

(** The double-quote character. *)
Definition quote : ascii := ascii_of_nat 34.

Definition escape (c : ascii) : string :=
  let n := nat_of_ascii c in
  if Ascii.eqb c quote then String "\" (String quote "")
  else if Ascii.eqb c "\" then String "\" (String "\" "")
  else if (n =? 8)%nat then "\b"
  else if (n =? 9)%nat then "\t"
  else if (n =? 10)%nat then "\n"
  else if (n =? 12)%nat then "\f"
  else if (n =? 13)%nat then "\r"
  else if (n <? 32)%nat
       then "\u00" +:+ String (hex_digit (n / 16)) (String (hex_digit (n mod 16)) "")
  else String c "".

Fixpoint escape_all (s : string) : string :=
  match s with
  | EmptyString => EmptyString
  | String c s' => escape c +:+ escape_all s'
  end.

(** [JSON.stringify] of a string. *)
Definition stringify (s : string) : string :=
  String quote (escape_all s) +:+ String quote "".
End JSON.

Definition optimizeJS (w : World) (inputPath outputPath : string) : M FileRecord :=
  let relativePath := Path.relative (SOURCE_DIR w) inputPath in
  try_catch
    (code <- await (fs_readFile w inputPath) ;;
     let originalSize := buffer_length (Bytes code) in
     result <- await (terserMinify w code (terser_options outputPath)) ;;
     if negb (truthy (min_code result))
     then throw (Error "Minification produced no output")
     else
       let result_code := default "" (min_code result) in
       let optimizedSize := buffer_length (Bytes result_code) in
       ensureDirectory w (Path.dirname outputPath) ;;;
       writeFile w outputPath (Bytes result_code) ;;;
       (if truthy (min_map result)
        then writeFile w (outputPath +:+ ".map")
               (Bytes (JSON.stringify (default "" (min_map result))))
        else ret tt) ;;;
       logger.info "Optimized JavaScript"
         [("input", JStr relativePath);
          ("output", JStr (Path.basename outputPath));
          ("originalSize", JNum originalSize);
          ("optimizedSize", JNum optimizedSize)] ;;;
       ret (mkFile outputPath optimizedSize))
    (fun error =>
       throw (OptimizationError ("Failed to optimize JavaScript: " +:+ relativePath) error)).

Definition copy (w : World) (source destination : string) : M unit :=
  fun st => match fs_copyFile w source destination with
            | Ok bytes =>
                (Ok tt, mkSt (<[destination := Bytes bytes]> (fs_files st)) (fs_dirs st) (log st))
            | Err e => (Err e, st)
            end.

(** [fs.stat(p)]: the size of the file at [p]. *)
Definition stat (w : World) (p : string) : M Z :=
  fun st => match fs_stat w p with
            | Err e => (Err e, st)
            | Ok _ =>
                match fs_files st !! p with
                | Some b => (Ok (buffer_length b), st)
                | None => (Err (Error ("ENOENT: no such file or directory, stat '" +:+ p +:+ "'")), st)
                end
            end.

Definition copyFile (w : World) (source destination : string) : M FileRecord :=
  try_catch
    (ensureDirectory w (Path.dirname destination) ;;;
     copy w source destination ;;;
     stats_size <- stat w destination ;;
     logger.info "Copied file"
       [("source", JStr (Path.relative (SOURCE_DIR w) source));
        ("destination", JStr (Path.relative (BUILD_DIR w) destination));
        ("size", JNum stats_size)] ;;;
     ret (mkFile destination stats_size))
    (fun error =>
       throw (OptimizationError ("Failed to copy file: " +:+ source) error)).

(** ** Discovery *)

(** [glob(patterns, { cwd, ignore, absolute: true })] over the files of
    the world, for the two pattern shapes the script uses: ["**/*<suffix>"]
    (the base name ends with the suffix) for inclusion and ["<dir>/**"]
    (the path lies below the directory) for exclusion.  As in glob's
    default ([dot: false]) [*] and [**] do not match names that start with
    a dot; ignore patterns do.  Matching is case-sensitive and every file
    is reported once, in the order of the tree. *)
Module Glob.

Definition hidden (seg : string) : bool := Str.startsWith seg ".".

Definition matches (pattern rel : string) : bool :=
  match Str.stripPrefix pattern "**/*" with
  | Some suffix =>
      forallb (fun s => negb (hidden s)) (Path.segments rel)
      && Str.endsWith (Path.basename rel) suffix
  | None => String.eqb pattern rel
  end.

Definition ignores (pattern rel : string) : bool :=
  match Str.stripSuffix pattern "/**" with
  | Some dir => Str.startsWith rel (dir +:+ "/")
  | None => String.eqb pattern rel
  end.

Definition selected (patterns ignore : list string) (rel : string) : bool :=
  existsb (fun p => matches p rel) patterns
  && negb (existsb (fun p => ignores p rel) ignore).

(** The matching files, relative to [cwd]. *)
Definition found (patterns ignore : list string) (files : list string) : list string :=
  remove_dups (filter (fun rel => Is_true (selected patterns ignore rel)) files).

Definition absolute (cwd rel : string) : string :=
  if String.eqb cwd "/" then "/" +:+ rel else cwd +:+ "/" +:+ rel.

End Glob.

Definition glob (w : World) (patterns ignore : list string) : M (list string) :=
  match glob_error w patterns with
  | Some e => throw e
  | None =>
      ret (map (Glob.absolute (SOURCE_DIR w)) (Glob.found patterns ignore (tree w)))
  end.

Definition default_ignore : list string :=
  ["node_modules/**"; "dist/**"; "build/**"; ".git/**"].
Definition js_ignore : list string :=
  ["node_modules/**"; "dist/**"; "build/**"; ".git/**"; "scripts/**"].

Definition imagePatterns : list string :=
  map (fun ext => "**/*" +:+ ext) SUPPORTED_IMAGE_FORMATS.

(** ** The driver *)

(** The body of [for (const imagePath of imageFiles)]. *)
Definition image_iter (w : World) (results : Results) (imagePath : string) : M Results :=
  try_catch
    (let relativePath := Path.relative (SOURCE_DIR w) imagePath in
     let outputDir := Path.join [BUILD_DIR w; Path.dirname relativePath] in
     optimized <- optimizeImage w imagePath outputDir ;;
     ret (push_images results optimized))
    (fun error =>
       logger.error "Image optimization failed" (Some error) [("path", JStr imagePath)] ;;;
       ret (push_error results (mkError "image" imagePath (exc_message error)))).

(** The body of [for (const cssPath of cssFiles)]. *)
Definition css_iter (w : World) (results : Results) (cssPath : string) : M Results :=
  try_catch
    (let relativePath := Path.relative (SOURCE_DIR w) cssPath in
     let outputPath := Path.join [BUILD_DIR w; relativePath] in
     optimized <- optimizeCSS w cssPath outputPath ;;
     ret (push_css results optimized))
    (fun error =>
       logger.error "CSS optimization failed" (Some error) [("path", JStr cssPath)] ;;;
       ret (push_error results (mkError "css" cssPath (exc_message error)))).

(** The body of [for (const jsPath of jsFiles)]. *)
Definition js_iter (w : World) (results : Results) (jsPath : string) : M Results :=
  try_catch
    (let relativePath := Path.relative (SOURCE_DIR w) jsPath in
     let outputPath := Path.join [BUILD_DIR w; relativePath] in
     optimized <- optimizeJS w jsPath outputPath ;;
     ret (push_js results optimized))
    (fun error =>
       logger.error "JavaScript optimization failed" (Some error) [("path", JStr jsPath)] ;;;
       ret (push_error results (mkError "js" jsPath (exc_message error)))).

(** The body of [for (const htmlPath of htmlFiles)]. *)
Definition html_iter (w : World) (results : Results) (htmlPath : string) : M Results :=
  try_catch
    (let relativePath := Path.relative (SOURCE_DIR w) htmlPath in
     let outputPath := Path.join [BUILD_DIR w; relativePath] in
     copied <- copyFile w htmlPath outputPath ;;
     ret (push_html results copied))
    (fun error =>
       logger.error "HTML copy failed" (Some error) [("path", JStr htmlPath)] ;;;
       ret (push_error results (mkError "html" htmlPath (exc_message error)))).

Definition count {A} (l : list A) : Z := Z.of_nat (length l).

Definition totalSize (l : list FileRecord) : Z :=
  fold_left (fun sum f => sum + file_size f) l 0.

Definition error_json (e : ErrorRecord) : JVal :=
  JObj [("type", JStr (err_type e)); ("path", JStr (err_path e)); ("error", JStr (err_error e))].

(** The [summary] object, without its [duration]. *)
Definition summary (results : Results) : list (string * JVal) :=
  [ ("images", JObj [("count", JNum (count (images results)));
                     ("totalSize",
                      JNum (fold_left (fun sum f => sum + img_size f) (images results) 0))]);
    ("css", JObj [("count", JNum (count (css results)));
                  ("totalSize", JNum (totalSize (css results)))]);
    ("js", JObj [("count", JNum (count (js results)));
                 ("totalSize", JNum (totalSize (js results)))]);
    ("html", JObj [("count", JNum (count (html results)));
                   ("totalSize", JNum (totalSize (html results)))]);
    ("errors", JNum (count (errors results))) ].

Definition processAssets (w : World) : M Results :=
  let results := empty_results in
  try_catch
    (logger.info "Starting asset optimization"
       [("buildDir", JStr (BUILD_DIR w)); ("sourceDir", JStr (SOURCE_DIR w))] ;;;
     ensureDirectory w (BUILD_DIR w) ;;;
     imageFiles <- glob w imagePatterns default_ignore ;;
     logger.info "Found images to optimize" [("count", JNum (count imageFiles))] ;;;
     results <- for_of (image_iter w) imageFiles results ;;
     cssFiles <- glob w ["**/*.css"] default_ignore ;;
     logger.info "Found CSS files to optimize" [("count", JNum (count cssFiles))] ;;;
     results <- for_of (css_iter w) cssFiles results ;;
     jsFiles <- glob w ["**/*.js"] js_ignore ;;
     logger.info "Found JavaScript files to optimize" [("count", JNum (count jsFiles))] ;;;
     results <- for_of (js_iter w) jsFiles results ;;
     htmlFiles <- glob w ["**/*.html"] default_ignore ;;
     logger.info "Found HTML files to copy" [("count", JNum (count htmlFiles))] ;;;
     results <- for_of (html_iter w) htmlFiles results ;;
     logger.info "Asset optimization completed" (summary results) ;;;
     (if 0 <? count (errors results)
      then logger.warn "Some assets failed to optimize"
             [("errorCount", JNum (count (errors results)));
              ("errors", JArr (map error_json (errors results)))]
      else ret tt) ;;;
     ret results)
    (fun error =>
       logger.error "Asset optimization process failed" (Some error) [] ;;;
       throw (OptimizationError "Asset optimization failed" error)).

(** [main]: the exit code handed to [process.exit], and the final state. *)
Definition main (w : World) (st : St) : Z * St :=
  let body :=
    logger.info "Build optimization started" [] ;;;
    results <- processAssets w ;;
    let hasErrors := 0 <? count (errors results) in
    let exitCode := if hasErrors then 1 else 0 in
    logger.info "Build optimization finished"
      [("success", JBool (negb hasErrors)); ("exitCode", JNum exitCode)] ;;;
    ret exitCode in
  match body st with
  | (Ok exitCode, st') => (exitCode, st')
  | (Err error, st') =>
      (1, snd (logger.error "Build optimization failed with fatal error" (Some error) [] st'))
  end.

Definition initial_state (dirs : gset string) : St := mkSt ∅ dirs [].

(** * Vocabulary of the properties *)

(** ** States and log lines *)

(** The state after one more log line. *)
Definition logged (e : LogEntry) (st : St) : St :=
  mkSt (fs_files st) (fs_dirs st) (log st ++ [e]).

(** The log line of a [catch] block around a per-file transform. *)
Definition failure_entry (msg : string) (path : string) (e : Exc) : LogEntry :=
  mkLog ERROR msg [("error", JStr (exc_message e)); ("path", JStr path)].

(** The state in which [main] calls [processAssets]. *)
Definition main_start (st : St) : St :=
  logged (mkLog INFO "Build optimization started" []) st.

(** ** The four loops, uniformly *)

Inductive Kind := KImage | KCss | KJs | KHtml.

Definition kind_type (k : Kind) : string :=
  match k with
  | KImage => "image"
  | KCss => "css"
  | KJs => "js"
  | KHtml => "html"
  end.

Definition kind_failure (k : Kind) : string :=
  match k with
  | KImage => "Image optimization failed"
  | KCss => "CSS optimization failed"
  | KJs => "JavaScript optimization failed"
  | KHtml => "HTML copy failed"
  end.

Definition kind_found (k : Kind) : string :=
  match k with
  | KImage => "Found images to optimize"
  | KCss => "Found CSS files to optimize"
  | KJs => "Found JavaScript files to optimize"
  | KHtml => "Found HTML files to copy"
  end.

Definition kind_patterns (k : Kind) : list string :=
  match k with
  | KImage => imagePatterns
  | KCss => ["**/*.css"]
  | KJs => ["**/*.js"]
  | KHtml => ["**/*.html"]
  end.

Definition kind_ignore (k : Kind) : list string :=
  match k with
  | KJs => js_ignore
  | _ => default_ignore
  end.

Definition iter (w : World) (k : Kind) : Results -> string -> M Results :=
  match k with
  | KImage => image_iter w
  | KCss => css_iter w
  | KJs => js_iter w
  | KHtml => html_iter w
  end.

(** An asset record of either shape. *)
Inductive Asset :=
| AImage (r : ImageRecord)
| AFile (r : FileRecord).

(** The records of kind [k] in the results. *)
Definition assets (k : Kind) (r : Results) : list Asset :=
  match k with
  | KImage => map AImage (images r)
  | KCss => map AFile (css r)
  | KJs => map AFile (js r)
  | KHtml => map AFile (html r)
  end.

Definition image_outputDir (w : World) (imagePath : string) : string :=
  Path.join [BUILD_DIR w; Path.dirname (Path.relative (SOURCE_DIR w) imagePath)].

Definition mirror_path (w : World) (p : string) : string :=
  Path.join [BUILD_DIR w; Path.relative (SOURCE_DIR w) p].

(** The transformer call that the loop of kind [k] makes for the file [p]. *)
Definition transform (w : World) (k : Kind) (p : string) : M (list Asset) :=
  match k with
  | KImage => l <- optimizeImage w p (image_outputDir w p) ;; ret (map AImage l)
  | KCss => x <- optimizeCSS w p (mirror_path w p) ;; ret [AFile x]
  | KJs => x <- optimizeJS w p (mirror_path w p) ;; ret [AFile x]
  | KHtml => x <- copyFile w p (mirror_path w p) ;; ret [AFile x]
  end.

(** One transformer call of a run and how it ended. *)
Record Attempt := mkAttempt {
  at_kind : Kind;
  at_path : string;
  at_result : result (list Asset)
}.

Definition succeeded (a : Attempt) : bool :=
  match at_result a with Ok _ => true | Err _ => false end.
Definition failed (a : Attempt) : bool := negb (succeeded a).

Definition produced (a : Attempt) : list Asset :=
  match at_result a with Ok l => l | Err _ => [] end.

(** The error record the [catch] block of the loop pushes. *)
Definition error_of (a : Attempt) : list ErrorRecord :=
  match at_result a with
  | Ok _ => []
  | Err e => [mkError (kind_type (at_kind a)) (at_path a) (exc_message e)]
  end.

(** The state after the loop body of kind [k] has run on [p]. *)
Definition after_iter (w : World) (k : Kind) (p : string) (st : St) : St :=
  snd (iter w k empty_results p st).

(** The calls made by the loop of kind [k] over [files], each with the
    result it had in the state the loop had reached. *)
Fixpoint attempts (w : World) (k : Kind) (files : list string) (st : St)
  : list Attempt :=
  match files with
  | [] => []
  | p :: rest =>
      mkAttempt k p (fst (transform w k p st))
        :: attempts w k rest (after_iter w k p st)
  end.

Fixpoint loop_state (w : World) (k : Kind) (files : list string) (st : St) : St :=
  match files with
  | [] => st
  | p :: rest => loop_state w k rest (after_iter w k p st)
  end.

(** The absolute paths discovery yields for kind [k]. *)
Definition discovered (w : World) (k : Kind) : list string :=
  map (Glob.absolute (SOURCE_DIR w))
      (Glob.found (kind_patterns k) (kind_ignore k) (tree w)).

(** The state in which the loop of kind [k] starts, when the [glob] call
    was made in [st]. *)
Definition loop_start (w : World) (k : Kind) (st : St) : St :=
  logged (mkLog INFO (kind_found k) [("count", JNum (count (discovered w k)))]) st.

Definition run_start (w : World) (st : St) : St :=
  snd (ensureDirectory w (BUILD_DIR w)
         (logged (mkLog INFO "Starting asset optimization"
                    [("buildDir", JStr (BUILD_DIR w)); ("sourceDir", JStr (SOURCE_DIR w))])
                 st)).

(** The states in which the four loops start in a run begun in [st]. *)
Definition images_start (w : World) (st : St) : St :=
  loop_start w KImage (run_start w st).
Definition css_start (w : World) (st : St) : St :=
  loop_start w KCss (loop_state w KImage (discovered w KImage) (images_start w st)).
Definition js_start (w : World) (st : St) : St :=
  loop_start w KJs (loop_state w KCss (discovered w KCss) (css_start w st)).
Definition html_start (w : World) (st : St) : St :=
  loop_start w KHtml (loop_state w KJs (discovered w KJs) (js_start w st)).

Definition start_of (w : World) (k : Kind) (st : St) : St :=
  match k with
  | KImage => images_start w st
  | KCss => css_start w st
  | KJs => js_start w st
  | KHtml => html_start w st
  end.

Definition kind_attempts (w : World) (k : Kind) (st : St) : list Attempt :=
  attempts w k (discovered w k) (start_of w k st).

(** All transformer calls of a run begun in [st], in order. *)
Definition run_attempts (w : World) (st : St) : list Attempt :=
  kind_attempts w KImage st ++ kind_attempts w KCss st
  ++ kind_attempts w KJs st ++ kind_attempts w KHtml st.

Definition image_of (a : Asset) : option ImageRecord :=
  match a with AImage r => Some r | AFile _ => None end.
Definition file_of (a : Asset) : option FileRecord :=
  match a with AFile r => Some r | AImage _ => None end.

(** The results after the records [l] of a successful call of kind [k]
    have been pushed. *)
Definition push_assets (k : Kind) (r : Results) (l : list Asset) : Results :=
  match k with
  | KImage => push_images r (omap image_of l)
  | KCss => mkResults (images r) (css r ++ omap file_of l) (js r) (html r) (other r) (errors r)
  | KJs => mkResults (images r) (css r) (js r ++ omap file_of l) (html r) (other r) (errors r)
  | KHtml => mkResults (images r) (css r) (js r) (html r ++ omap file_of l) (other r) (errors r)
  end.

(** The results after the outcome of one call has been recorded. *)
Definition record (r : Results) (a : Attempt) : Results :=
  match at_result a with
  | Ok l => push_assets (at_kind a) r l
  | Err e => push_error r (mkError (kind_type (at_kind a)) (at_path a) (exc_message e))
  end.

(** ** A whole run *)

(** The conditions under which a run is not fatal. *)
Definition setup_ok (w : World) (st : St) : Prop :=
  (exists u, fst (ensureDirectory w (BUILD_DIR w)
                    (logged (mkLog INFO "Starting asset optimization"
                               [("buildDir", JStr (BUILD_DIR w));
                                ("sourceDir", JStr (SOURCE_DIR w))]) st)) = Ok u)
  /\ forall k, glob_error w (kind_patterns k) = None.

Definition final_results (w : World) (st : St) : Results :=
  fold_left record (run_attempts w st) empty_results.

Definition run_end (w : World) (st : St) : St :=
  loop_state w KHtml (discovered w KHtml) (html_start w st).

Definition final_state (w : World) (st : St) : St :=
  let r := final_results w st in
  let s := logged (mkLog INFO "Asset optimization completed" (summary r)) (run_end w st) in
  if 0 <? count (errors r)
  then logged (mkLog WARN "Some assets failed to optimize"
                 [("errorCount", JNum (count (errors r)));
                  ("errors", JArr (map error_json (errors r)))]) s
  else s.

(** ** Names and extensions *)

(** An extension as the script's patterns have them: a dot, then no
    further dot. *)
Definition plain_ext (ext : string) : Prop :=
  exists e, ext = String "." e /\ Path.lastDot e = None.

(** The extensions the patterns of a kind ask for. *)
Definition kind_exts (k : Kind) : list string :=
  match k with
  | KImage => SUPPORTED_IMAGE_FORMATS
  | KCss => [".css"]
  | KJs => [".js"]
  | KHtml => [".html"]
  end.

(** ** Records and renditions *)

(** The error records about the file [p]. *)
Definition errors_for (p : string) (l : list ErrorRecord) : list ErrorRecord :=
  List.filter (fun e => String.eqb (err_path e) p) l.

(** The output paths of the image transformer. *)
Definition image_basename (inputPath : string) : string :=
  Path.basenameExt inputPath (Str.toLowerCase (Path.extname inputPath)).
Definition rendition_path (inputPath outputDir ext : string) : string :=
  Path.join [outputDir; image_basename inputPath +:+ ext].

Fixpoint has_slash (s : string) : bool :=
  match s with
  | EmptyString => false
  | String c s' => Ascii.eqb c "/" || has_slash s'
  end.

(** A file name proper: not empty, no slash, neither ["."] nor [".."]. *)
Definition plain_name (x : string) : Prop :=
  has_slash x = false /\ x <> "" /\ x <> "." /\ x <> "..".

(** The records of a call, in the shape of its kind. *)
Definition typed (k : Kind) (l : list Asset) : list Asset :=
  match k with
  | KImage => map AImage (omap image_of l)
  | _ => map AFile (omap file_of l)
  end.

Definition kind_eqb (a b : Kind) : bool :=
  match a, b with
  | KImage, KImage | KCss, KCss | KJs, KJs | KHtml, KHtml => true
  | _, _ => false
  end.

(** The warning of the image transformer about the file [p]. *)
Definition unsupported_warning (p : string) : LogEntry :=
  mkLog WARN "Unsupported image format"
    [("path", JStr p); ("ext", JStr (Str.toLowerCase (Path.extname p)))].

(** A log line that is not the warning about an unsupported image
    format, whatever its level and metadata. *)
Definition other_line (e : LogEntry) : Prop :=
  message e <> "Unsupported image format".

(** A computation that keeps the log it finds and appends only lines in
    [P] to it. *)
Definition logs_only {A} (P : LogEntry -> Prop) (m : M A) : Prop :=
  forall st, exists added, log (snd (m st)) = log st ++ added /\ Forall P added.

(** A file is visible to the inclusion patterns when no piece of its
    path starts with a dot. *)
Definition visible (rel : string) : bool :=
  forallb (fun s => negb (Glob.hidden s)) (Path.segments rel).

Definition ignored (ignore : list string) (rel : string) : bool :=
  existsb (fun pat => Glob.ignores pat rel) ignore.

Definition no_output_error (w : World) (jsPath : string) : Exc :=
  OptimizationError
    ("Failed to optimize JavaScript: " +:+ Path.relative (SOURCE_DIR w) jsPath)
    (Error "Minification produced no output").

(** ** Contracts of the libraries *)

(** The contract of the minifier's two options, for a given reading of
    program texts ([has_debugger]: whether the text contains a [debugger]
    statement; [console_calls]: the calls to [console] methods the
    program makes, in order): with [drop_debugger] the output has no
    [debugger] statement; without [drop_console] the calls to [console]
    methods are those of the input. *)
Definition minifier_honours_options (has_debugger : string -> bool)
    (console_calls : string -> list string) (w : World) : Prop :=
  forall code o r out,
    terserMinify w code o = Ok r -> min_code r = Some out ->
    (drop_debugger (compress o) = true -> has_debugger out = false)
    /\ (drop_console (compress o) = false -> console_calls out = console_calls code).

(** The contract of the optimiser's plugin list, for a given reading of
    the [viewBox] attribute of an SVG text: when [removeViewBox] is listed
    as inactive, the attribute is left as it is. *)
Definition svgo_honours_plugins (viewBox : string -> option string) (w : World) : Prop :=
  forall plugins src out,
    In (mkPlugin "removeViewBox" false) plugins ->
    imagemin_svgo w plugins src = Ok out ->
    viewBox out = viewBox src.

(** ** Files outside the patterns *)

(** The world without the source file [rel]. *)
Definition without (rel : string) (w : World) : World :=
  mkWorld (script_dirname w)
    (List.filter (fun f => negb (String.eqb f rel)) (tree w))
    (glob_error w) (fs_mkdir w) (fs_readFile w) (fs_writeFile w) (fs_copyFile w)
    (fs_stat w) (sharp_metadata w) (sharp_toBuffer w) (imagemin_mozjpeg w)
    (imagemin_pngquant w) (imagemin_svgo w) (terserMinify w) (postcss_process w).

(** A file whose extension no pattern asks for. *)
Definition unsupported (rel : string) : Prop :=
  SUPPORTED_IMAGE_FORMATS_has (Str.toLowerCase (Path.extname rel)) = false
  /\ ~ In (Path.extname rel) [".css"; ".js"; ".html"].

(** ** Counts of the summary *)

Definition kind_key (k : Kind) : string :=
  match k with
  | KImage => "images"
  | KCss => "css"
  | KJs => "js"
  | KHtml => "html"
  end.

Fixpoint jlookup (key : string) (l : list (string * JVal)) : option JVal :=
  match l with
  | [] => None
  | (k, v) :: rest => if String.eqb k key then Some v else jlookup key rest
  end.

(** The [count] field of the summary entry of kind [k]. *)
Definition summary_count (k : Kind) (s : list (string * JVal)) : option Z :=
  match jlookup (kind_key k) s with
  | Some (JObj o) =>
      match jlookup "count" o with
      | Some (JNum n) => Some n
      | _ => None
      end
  | _ => None
  end.

(** ** A sample site *)

(** A small site: one good and one undecodable raster image, a WebP
    image, a bitmap, a logo, a stylesheet, a script with a [debugger]
    statement, an empty script and a page; the build script itself and a
    dependency are in ignored directories. *)
Definition site_tree : list string :=
  [ "images/hero.jpg"; "images/broken.png"; "images/banner.webp";
    "images/pic.bmp"; "logo.svg"; "styles/main.css"; "js/app.js";
    "js/empty.js"; "index.html"; "build/optimize.js";
    "node_modules/dep/index.js" ].

Definition site_read (p : string) : result string :=
  if String.eqb p "/repo/logo.svg" then Ok "<svg viewBox='0 0 10 10'></svg>"
  else if String.eqb p "/repo/js/app.js" then Ok "debugger;console.log(1)"
  else if String.eqb p "/repo/js/empty.js" then Ok ""
  else Ok "body{display:flex}".

(** A toy minifier: it knows one program with a [debugger] statement. *)
Definition site_minify (code : string) (o : TerserOptions) : result MinifyOutput :=
  let out :=
    if (drop_debugger (compress o) && String.eqb code "debugger;console.log(1)")%bool
    then "console.log(1)" else code in
  Ok (mkMinify (Some out) (Some "{}")).

Definition site_has_debugger (s : string) : bool :=
  String.eqb s "debugger;console.log(1)".

Definition site_console_calls (s : string) : list string :=
  if (String.eqb s "debugger;console.log(1)" || String.eqb s "console.log(1)")%bool
  then ["console.log(1)"] else [].

Definition site_viewBox (s : string) : option string :=
  if Str.startsWith s "<svg viewBox='0 0 10 10'" then Some "0 0 10 10" else None.

Definition site : World := {|
  script_dirname := "/repo/build";
  tree := site_tree;
  glob_error := fun _ => None;
  fs_mkdir := fun _ => Ok tt;
  fs_readFile := site_read;
  fs_writeFile := fun _ => Ok tt;
  fs_copyFile := fun _ _ => Ok "<!doctype html><title>Home</title>";
  fs_stat := fun _ => Ok tt;
  sharp_metadata := fun p =>
    if String.eqb p "/repo/images/broken.png"
    then Err (Error "Input file contains unsupported image format")
    else Ok (mkMetadata (Some 3000));
  sharp_toBuffer := fun _ width _ _ => Ok (width * 10);
  imagemin_mozjpeg := fun _ b => Ok b;
  imagemin_pngquant := fun _ _ b => Ok b;
  imagemin_svgo := fun _ src => Ok src;
  terserMinify := site_minify;
  postcss_process := fun _ css _ => Ok (mkPostcss css None)
|}.

(** The same site with only the bitmap and the page. *)
Definition quiet_site : World := {|
  script_dirname := "/repo/build";
  tree := ["images/pic.bmp"; "index.html"];
  glob_error := glob_error site;
  fs_mkdir := fs_mkdir site;
  fs_readFile := fs_readFile site;
  fs_writeFile := fs_writeFile site;
  fs_copyFile := fs_copyFile site;
  fs_stat := fs_stat site;
  sharp_metadata := sharp_metadata site;
  sharp_toBuffer := sharp_toBuffer site;
  imagemin_mozjpeg := imagemin_mozjpeg site;
  imagemin_pngquant := imagemin_pngquant site;
  imagemin_svgo := imagemin_svgo site;
  terserMinify := terserMinify site;
  postcss_process := postcss_process site
|}.

Definition fresh : St := initial_state ∅.

Definition site_results : Results :=
  Eval vm_compute in final_results site (main_start fresh).

Definition is_warning (e : LogEntry) : bool :=
  match level e with WARN => true | _ => false end.

Definition hero : string := "/repo/images/hero.jpg".
Definition hero_dir : string := "/repo/dist/images".
Definition hero_records : list ImageRecord :=
  [ mkImage "/repo/dist/images/hero.webp" "webp" 19200;
    mkImage "/repo/dist/images/hero.jpg" "jpeg" 19200 ].

Definition empty_js : string := "/repo/js/empty.js".

Definition app_js : string := "/repo/js/app.js".
Definition app_js_record : FileRecord := mkFile "/repo/dist/js/app.js" 14.

Definition logo : string := "/repo/logo.svg".
Definition logo_records : list ImageRecord := [mkImage "/repo/dist/logo.svg" "svg" 31].

Definition bitmap : string := "images/pic.bmp".

Definition banner : string := "/repo/images/banner.webp".
Definition banner_records : list ImageRecord :=
  [mkImage "/repo/dist/images/banner.webp" "webp" 19200].

(** A [.webp] file whose name starts with a dot, and a tree that holds it
    beside the banner. *)
Definition thumbnail : string := "images/.thumb.webp".
Definition thumbnail_site : World :=
  mkWorld (script_dirname site) [thumbnail; "images/banner.webp"]
    (glob_error site) (fs_mkdir site) (fs_readFile site) (fs_writeFile site)
    (fs_copyFile site) (fs_stat site) (sharp_metadata site) (sharp_toBuffer site)
    (imagemin_mozjpeg site) (imagemin_pngquant site) (imagemin_svgo site)
    (terserMinify site) (postcss_process site).

Definition empty_js_attempt : Attempt :=
  mkAttempt KJs empty_js (Err (no_output_error site empty_js)).

(** ** Further vocabulary *)

(** The four log lines of a run that cannot create its output directory:
    the cause [e] is logged under [processAssets]' message, its wrapper
    under [main]'s. *)
Definition fatal_log (w : World) (e : Exc) : list LogEntry :=
  [ mkLog INFO "Build optimization started" [];
    mkLog INFO "Starting asset optimization"
      [("buildDir", JStr (BUILD_DIR w)); ("sourceDir", JStr (SOURCE_DIR w))];
    mkLog ERROR "Asset optimization process failed" [("error", JStr (exc_message e))];
    mkLog ERROR "Build optimization failed with fatal error"
      [("error", JStr "Asset optimization failed")] ].

(** The last log line of a run that is not fatal. *)
Definition finished_entry (exitCode : Z) : LogEntry :=
  mkLog INFO "Build optimization finished"
    [("success", JBool (exitCode =? 0)); ("exitCode", JNum exitCode)].

(** The error records of one kind. *)
Definition errors_of_type (k : Kind) (l : list ErrorRecord) : list ErrorRecord :=
  List.filter (fun e => String.eqb (err_type e) (kind_type k)) l.

(** The message of the error a transformer of kind [k] throws for the
    file [p]: the relative path for the three optimisers, the path as
    given for the copy. *)
Definition failure_text (w : World) (k : Kind) (p : string) : string :=
  match k with
  | KImage => "Failed to optimize image: " +:+ Path.relative (SOURCE_DIR w) p
  | KCss => "Failed to optimize CSS: " +:+ Path.relative (SOURCE_DIR w) p
  | KJs => "Failed to optimize JavaScript: " +:+ Path.relative (SOURCE_DIR w) p
  | KHtml => "Failed to copy file: " +:+ p
  end.

(** A world in which the output directory cannot be created. *)
Definition readonly_site : World :=
  mkWorld (script_dirname site) (tree site) (glob_error site)
    (fun _ => Err (Error "EACCES: permission denied, mkdir"))
    (fs_readFile site) (fs_writeFile site) (fs_copyFile site)
    (fs_stat site) (sharp_metadata site) (sharp_toBuffer site) (imagemin_mozjpeg site)
    (imagemin_pngquant site) (imagemin_svgo site) (terserMinify site) (postcss_process site).

(** A computation that leaves every file alone whose path is not in [P]. *)
Definition writes_only {A} (P : string -> Prop) (m : M A) : Prop :=
  forall st q, ~ P q -> fs_files (snd (m st)) !! q = fs_files st !! q.

(** The output paths of the image transformer for one source. *)
Definition image_outputs (inputPath outputDir : string) (q : string) : Prop :=
  q = rendition_path inputPath outputDir ".svg"
  \/ q = rendition_path inputPath outputDir ".webp"
  \/ q = rendition_path inputPath outputDir ".jpg"
  \/ q = rendition_path inputPath outputDir ".png".

(** An output file and its source map. *)
Definition with_map (outputPath : string) (q : string) : Prop :=
  q = outputPath \/ q = outputPath +:+ ".map".

(** The output paths of the transformer call of kind [k] on the source [p]. *)
Definition outputs_of (w : World) (k : Kind) (p : string) (q : string) : Prop :=
  match k with
  | KImage => image_outputs p (image_outputDir w p) q
  | KCss | KJs => with_map (mirror_path w p) q
  | KHtml => q = mirror_path w p
  end.

(** The output paths of a whole run. *)
Definition run_outputs (w : World) (q : string) : Prop :=
  exists k p, In p (discovered w k) /\ outputs_of w k p q.

(** In [st] the file at [path] exists and is [size] bytes long. *)
Definition on_disk (st : St) (path : string) (size : Z) : Prop :=
  exists b, fs_files st !! path = Some b /\ buffer_length b = size.

(** The contents of [path] in [st], if it is a file of text. *)
Definition text_at (st : St) (path : string) : option string :=
  match fs_files st !! path with
  | Some (Bytes s) => Some s
  | _ => None
  end.

(** A piece of a path that is a name: not empty, not ["."], not [".."]. *)
Definition clean_segment (s : string) : bool :=
  negb (String.eqb s "" || String.eqb s "." || String.eqb s "..")%bool.

(** A relative path as [glob] reports it: names separated by single
    slashes. *)
Definition tidy (rel : string) : bool := forallb clean_segment (Path.segments rel).

(** ** Further sample worlds and states *)

(** The sample site on a disk where every JPEG encoding fails. *)
Definition jpeg_fails_site : World :=
  mkWorld (script_dirname site) (tree site) (glob_error site) (fs_mkdir site)
    (fs_readFile site) (fs_writeFile site) (fs_copyFile site)
    (fs_stat site) (sharp_metadata site)
    (fun _ width _ out =>
       match out with
       | ToJpeg _ _ => Err (Error "VipsJpeg: out of memory")
       | _ => Ok (width * 10)
       end)
    (imagemin_mozjpeg site) (imagemin_pngquant site) (imagemin_svgo site)
    (terserMinify site) (postcss_process site).

(** The sample site with no file readable. *)
Definition unreadable_site : World :=
  mkWorld (script_dirname site) (tree site) (glob_error site) (fs_mkdir site)
    (fun _ => Err (Error "EACCES: permission denied, open"))
    (fs_writeFile site) (fs_copyFile site)
    (fs_stat site) (sharp_metadata site) (sharp_toBuffer site)
    (imagemin_mozjpeg site) (imagemin_pngquant site) (imagemin_svgo site)
    (terserMinify site) (postcss_process site).

(** The image extensions that are not [.svg]. *)
Definition raster_formats : list string := [".jpg"; ".jpeg"; ".png"; ".webp"].

(** The sample site with a narrower [hero.png] beside [hero.jpg]. *)
Definition hero_png : string := "/repo/images/hero.png".
Definition twin_site : World :=
  mkWorld (script_dirname site) (tree site) (glob_error site) (fs_mkdir site)
    (fs_readFile site) (fs_writeFile site) (fs_copyFile site) (fs_stat site)
    (fun p => if String.eqb p hero_png then Ok (mkMetadata (Some 800))
              else sharp_metadata site p)
    (sharp_toBuffer site)
    (imagemin_mozjpeg site) (imagemin_pngquant site) (imagemin_svgo site)
    (terserMinify site) (postcss_process site).
Definition hero_png_records : list ImageRecord :=
  [ mkImage "/repo/dist/images/hero.webp" "webp" 8000;
    mkImage "/repo/dist/images/hero.png" "png" 8000 ].

(** A state with a file left in the output directory by an earlier build. *)
Definition old_file : string := "/repo/dist/old.txt".
Definition stale : St := mkSt {[ old_file := Bytes "stale" ]} ∅ [].

Definition main_css : string := "/repo/styles/main.css".
Definition main_css_out : string := "/repo/dist/styles/main.css".
Definition main_css_record : FileRecord := mkFile main_css_out 18.
Definition app_js_out : string := "/repo/dist/js/app.js".
Definition broken_png : string := "/repo/images/broken.png".

(** * Properties *)

(** ** Path functions on examples *)

Example extname_examples :
  map Path.extname ["a/b/photo.JPG"; ".bashrc"; "x/.a.b"; ".."; "a.."; "noext"; "img/pic.bmp"]
  = [".JPG"; ""; ".b"; ""; "."; ""; ".bmp"].
Proof. reflexivity. Qed.

Example path_examples :
  Path.join ["/repo/build"; ".."; "dist"] = "/repo/dist"
  /\ Path.join ["/repo/dist"; "."] = "/repo/dist"
  /\ Path.dirname "img/a.png" = "img"
  /\ Path.dirname "a.png" = "."
  /\ Path.relative "/repo" "/repo/img/a.png" = "img/a.png"
  /\ Path.basenameExt "/repo/img/a.png" ".png" = "a"
  /\ Path.basenameExt "/repo/img/A.PNG" ".png" = "A.PNG".
Proof. repeat split; reflexivity. Qed.

(** ** The monad *)

Ltac unfold_m :=
  unfold bind, ret, throw, try_catch, await, logger.info, logger.warn,
    logger.error, add_log in *.

Lemma bind_ok {A B} (m : M A) (k : A -> M B) st a st' :
  m st = (Ok a, st') -> bind m k st = k a st'.
Proof. intros H. unfold bind. now rewrite H. Qed.

Lemma bind_err {A B} (m : M A) (k : A -> M B) st e st' :
  m st = (Err e, st') -> bind m k st = (Err e, st').
Proof. intros H. unfold bind. now rewrite H. Qed.

Lemma try_catch_ok {A} (m : M A) h st a st' :
  m st = (Ok a, st') -> try_catch m h st = (Ok a, st').
Proof. intros H. unfold try_catch. now rewrite H. Qed.

Lemma try_catch_err {A} (m : M A) h st e st' :
  m st = (Err e, st') -> try_catch m h st = h e st'.
Proof. intros H. unfold try_catch. now rewrite H. Qed.

(** ** Exit status *)

Lemma main_exit_code w st :
  fst (main w st) =
  match fst (processAssets w (main_start st)) with
  | Ok results => if 0 <? count (errors results) then 1 else 0
  | Err _ => 1
  end.
Proof.
  unfold main.
  rewrite (bind_ok _ _ st tt (main_start st)) by reflexivity.
  destruct (processAssets w (main_start st)) as [[results | e] st1] eqn:Hrun.
  - erewrite bind_ok by exact Hrun. reflexivity.
  - erewrite bind_err by exact Hrun. reflexivity.
Qed.

(** C1. The exit code of [main] is 0 or 1, and it is non-zero exactly
    when the run returned at least one error record or [processAssets]
    threw (a fatal failure of set-up or discovery). *)
Theorem exit_status_nonzero_iff_errors (w : World) (st : St) :
  (fst (main w st) = 0 \/ fst (main w st) = 1)
  /\ (fst (main w st) <> 0 <->
      (exists results, fst (processAssets w (main_start st)) = Ok results
                       /\ errors results <> [])
      \/ (exists e, fst (processAssets w (main_start st)) = Err e)).
Proof.
  rewrite main_exit_code.
  destruct (fst (processAssets w (main_start st))) as [results | e].
  - unfold count. destruct (errors results) as [| x l] eqn:He; simpl.
    + split; [now left |]. split; [congruence |].
      intros [(r & Hr & Hne) | (e & Hr)]; [| discriminate].
      injection Hr as <-. congruence.
    + split; [now right |]. split; [| discriminate].
      intros _. left. exists results. split; [reflexivity | now rewrite He].
  - split; [now right |]. split; [| discriminate]. intros _. right. now exists e.
Qed.

(** ** The four loops, uniformly *)

Lemma omap_image_of l : omap image_of (map AImage l) = l.
Proof. induction l as [| x l IH]; simpl; [reflexivity | f_equal; exact IH]. Qed.

(** One loop body: the transformer's records are pushed, or its
    exception is logged and turned into one error record. *)
Lemma iter_spec w k r p st :
  iter w k r p st =
  match transform w k p st with
  | (Ok l, st') => (Ok (push_assets k r l), st')
  | (Err e, st') =>
      (Ok (push_error r (mkError (kind_type k) p (exc_message e))),
       logged (failure_entry (kind_failure k) p e) st')
  end.
Proof.
  destruct k; simpl; unfold image_iter, css_iter, js_iter, html_iter,
    image_outputDir, mirror_path; unfold_m.
  - destruct (optimizeImage _ _ _ st) as [[l | e] st']; [| reflexivity].
    unfold push_assets. now rewrite omap_image_of.
  - destruct (optimizeCSS _ _ _ st) as [[l | e] st']; reflexivity.
  - destruct (optimizeJS _ _ _ st) as [[l | e] st']; reflexivity.
  - destruct (copyFile _ _ _ st) as [[l | e] st']; reflexivity.
Qed.

Lemma iter_record w k r p st :
  iter w k r p st =
  (Ok (record r (mkAttempt k p (fst (transform w k p st)))), after_iter w k p st).
Proof.
  unfold after_iter. rewrite !iter_spec. unfold record. simpl.
  destruct (transform w k p st) as [[l | e] st']; reflexivity.
Qed.

(** A loop never throws: it returns the results with every call recorded. *)
Lemma for_of_iter w k files : forall r st,
  for_of (iter w k) files r st =
  (Ok (fold_left record (attempts w k files st) r), loop_state w k files st).
Proof.
  induction files as [| p rest IH]; intros r st; simpl; [reflexivity |].
  erewrite bind_ok by apply iter_record. apply IH.
Qed.

Lemma glob_spec w patterns ignore st :
  glob w patterns ignore st =
  match glob_error w patterns with
  | Some e => (Err e, st)
  | None =>
      (Ok (map (Glob.absolute (SOURCE_DIR w)) (Glob.found patterns ignore (tree w))), st)
  end.
Proof. unfold glob. destruct (glob_error w patterns); reflexivity. Qed.

Lemma discover w k st :
  glob_error w (kind_patterns k) = None ->
  (files <- glob w (kind_patterns k) (kind_ignore k) ;;
   logger.info (kind_found k) [("count", JNum (count files))] ;;;
   ret files) st = (Ok (discovered w k), loop_start w k st).
Proof.
  intros H. unfold bind. rewrite glob_spec, H. reflexivity.
Qed.

Lemma report_summary (r : Results) (s : St) :
  (logger.info "Asset optimization completed" (summary r) ;;;
   (if 0 <? count (errors r)
    then logger.warn "Some assets failed to optimize"
           [("errorCount", JNum (count (errors r)));
            ("errors", JArr (map error_json (errors r)))]
    else ret tt) ;;;
   ret r) s
  = (Ok r,
     let s' := logged (mkLog INFO "Asset optimization completed" (summary r)) s in
     if 0 <? count (errors r)
     then logged (mkLog WARN "Some assets failed to optimize"
                    [("errorCount", JNum (count (errors r)));
                     ("errors", JArr (map error_json (errors r)))]) s'
     else s').
Proof.
  erewrite bind_ok by reflexivity.
  destruct (0 <? count (errors r)); erewrite bind_ok by reflexivity; reflexivity.
Qed.

(** A run whose set-up and discovery succeed returns the results in
    which every transformer call is recorded. *)
Lemma processAssets_ok w st :
  setup_ok w st ->
  processAssets w st = (Ok (final_results w st), final_state w st).
Proof.
  intros [[u Hu] Hg].
  pose proof (Hg KImage) as G1. pose proof (Hg KCss) as G2.
  pose proof (Hg KJs) as G3. pose proof (Hg KHtml) as G4.
  cbn [kind_patterns] in G1, G2, G3, G4.
  unfold final_state, final_results, run_end, run_attempts, kind_attempts.
  rewrite !fold_left_app. unfold start_of, html_start, js_start, css_start, images_start.
  unfold run_start. unfold processAssets.
  set (s0 := logged _ st) in *.
  destruct (ensureDirectory w (BUILD_DIR w) s0) as [[[] | e] s1] eqn:He;
    simpl in Hu; [| discriminate].
  simpl snd.
  apply try_catch_ok.
  erewrite bind_ok by reflexivity. fold s0.
  erewrite bind_ok by exact He.
  erewrite bind_ok by (rewrite glob_spec, G1; reflexivity).
  erewrite bind_ok by reflexivity.
  erewrite bind_ok by apply (for_of_iter w KImage).
  erewrite bind_ok by (rewrite glob_spec, G2; reflexivity).
  erewrite bind_ok by reflexivity.
  erewrite bind_ok by apply (for_of_iter w KCss).
  erewrite bind_ok by (rewrite glob_spec, G3; reflexivity).
  erewrite bind_ok by reflexivity.
  erewrite bind_ok by apply (for_of_iter w KJs).
  erewrite bind_ok by (rewrite glob_spec, G4; reflexivity).
  erewrite bind_ok by reflexivity.
  erewrite bind_ok by apply (for_of_iter w KHtml).
  exact (report_summary _ _).
Qed.

(** Otherwise the run is fatal: [processAssets] throws. *)
Lemma processAssets_fatal w st :
  ~ setup_ok w st ->
  exists e st', processAssets w st = (Err e, st').
Proof.
  intros Hno. unfold processAssets.
  set (s0 := logged (mkLog INFO "Starting asset optimization"
                       [("buildDir", JStr (BUILD_DIR w));
                        ("sourceDir", JStr (SOURCE_DIR w))]) st).
  assert (Hfail : forall (m : M Results) e s,
            m st = (Err e, s) ->
            exists e' s', try_catch m
              (fun error =>
                 logger.error "Asset optimization process failed" (Some error) [] ;;;
                 throw (OptimizationError "Asset optimization failed" error)) st
              = (Err e', s')).
  { intros m e s Hm. erewrite try_catch_err by exact Hm. unfold_m. eauto. }
  destruct (ensureDirectory w (BUILD_DIR w) s0) as [[[] | e] s1] eqn:He.
  2:{ eapply Hfail. erewrite bind_ok by reflexivity. fold s0.
      erewrite bind_err by exact He. reflexivity. }
  destruct (glob_error w imagePatterns) as [e |] eqn:G1.
  { eapply Hfail. erewrite bind_ok by reflexivity. fold s0.
    erewrite bind_ok by exact He.
    erewrite bind_err by (rewrite glob_spec, G1; reflexivity). reflexivity. }
  destruct (glob_error w ["**/*.css"]) as [e |] eqn:G2.
  { eapply Hfail. erewrite bind_ok by reflexivity. fold s0.
    erewrite bind_ok by exact He.
    erewrite bind_ok by (rewrite glob_spec, G1; reflexivity).
    erewrite bind_ok by reflexivity.
    erewrite bind_ok by apply (for_of_iter w KImage).
    erewrite bind_err by (rewrite glob_spec, G2; reflexivity). reflexivity. }
  destruct (glob_error w ["**/*.js"]) as [e |] eqn:G3.
  { eapply Hfail. erewrite bind_ok by reflexivity. fold s0.
    erewrite bind_ok by exact He.
    erewrite bind_ok by (rewrite glob_spec, G1; reflexivity).
    erewrite bind_ok by reflexivity.
    erewrite bind_ok by apply (for_of_iter w KImage).
    erewrite bind_ok by (rewrite glob_spec, G2; reflexivity).
    erewrite bind_ok by reflexivity.
    erewrite bind_ok by apply (for_of_iter w KCss).
    erewrite bind_err by (rewrite glob_spec, G3; reflexivity). reflexivity. }
  destruct (glob_error w ["**/*.html"]) as [e |] eqn:G4.
  { eapply Hfail. erewrite bind_ok by reflexivity. fold s0.
    erewrite bind_ok by exact He.
    erewrite bind_ok by (rewrite glob_spec, G1; reflexivity).
    erewrite bind_ok by reflexivity.
    erewrite bind_ok by apply (for_of_iter w KImage).
    erewrite bind_ok by (rewrite glob_spec, G2; reflexivity).
    erewrite bind_ok by reflexivity.
    erewrite bind_ok by apply (for_of_iter w KCss).
    erewrite bind_ok by (rewrite glob_spec, G3; reflexivity).
    erewrite bind_ok by reflexivity.
    erewrite bind_ok by apply (for_of_iter w KJs).
    erewrite bind_err by (rewrite glob_spec, G4; reflexivity). reflexivity. }
  exfalso. apply Hno. split.
  - exists tt. fold s0. now rewrite He.
  - intros []; assumption.
Qed.

(** What a run that returns has returned. *)
Lemma processAssets_inv w st r st' :
  processAssets w st = (Ok r, st') ->
  setup_ok w st /\ r = final_results w st /\ st' = final_state w st.
Proof.
  intros Hrun.
  assert (Hs : setup_ok w st).
  { destruct (ensureDirectory w (BUILD_DIR w)
                (logged (mkLog INFO "Starting asset optimization"
                           [("buildDir", JStr (BUILD_DIR w));
                            ("sourceDir", JStr (SOURCE_DIR w))]) st))
      as [[[] | e] s1] eqn:He.
    2:{ destruct (processAssets_fatal w st) as (e' & s' & Hf); [| congruence].
        intros [[u Hu] _]. rewrite He in Hu. discriminate. }
    destruct (glob_error w imagePatterns) eqn:G1;
    [| destruct (glob_error w ["**/*.css"]) eqn:G2;
       [| destruct (glob_error w ["**/*.js"]) eqn:G3;
          [| destruct (glob_error w ["**/*.html"]) eqn:G4 ]]].
    5:{ split; [exists tt; now rewrite He | intros []; assumption]. }
    all: destruct (processAssets_fatal w st) as (e' & s' & Hf); [| congruence].
    all: intros [_ Hg].
    - specialize (Hg KImage). simpl in Hg. congruence.
    - specialize (Hg KCss). simpl in Hg. congruence.
    - specialize (Hg KJs). simpl in Hg. congruence.
    - specialize (Hg KHtml). simpl in Hg. congruence. }
  split; [exact Hs |].
  rewrite (processAssets_ok w st Hs) in Hrun. now inversion Hrun.
Qed.

(** ** Strings and paths *)

Lemma sapp_nil_l (s : string) : "" +:+ s = s.
Proof. reflexivity. Qed.

Lemma sapp_cons (c : ascii) (s t : string) : String c s +:+ t = String c (s +:+ t).
Proof. reflexivity. Qed.

Lemma sapp_nil_r (s : string) : s +:+ "" = s.
Proof. induction s as [| c s IH]; [reflexivity |]. now rewrite sapp_cons, IH. Qed.

Lemma sapp_assoc (a b c : string) : (a +:+ b) +:+ c = a +:+ b +:+ c.
Proof.
  induction a as [| x a IH]; [reflexivity |]. now rewrite !sapp_cons, IH.
Qed.

Lemma sapp_length (a b : string) :
  String.length (a +:+ b) = (String.length a + String.length b)%nat.
Proof.
  induction a as [| x a IH]; [reflexivity |]. rewrite sapp_cons. simpl. now rewrite IH.
Qed.

Lemma endsWith_unfold s suf :
  Str.endsWith s suf =
  if String.eqb s suf then true
  else match s with
       | EmptyString => false
       | String _ s' => Str.endsWith s' suf
       end.
Proof. destruct s; reflexivity. Qed.

Lemma endsWith_true s suf :
  Str.endsWith s suf = true <-> exists pre, s = pre +:+ suf.
Proof.
  induction s as [| c s IH]; rewrite endsWith_unfold.
  - destruct (String.eqb_spec "" suf) as [<- | Hne].
    + split; [now exists "" | reflexivity].
    + split; [discriminate |]. intros [pre Hpre]. destruct pre; [now subst |].
      rewrite sapp_cons in Hpre. discriminate.
  - destruct (String.eqb_spec (String c s) suf) as [<- | Hne].
    + split; [now exists "" | reflexivity].
    + rewrite IH. split.
      * intros [pre ->]. now exists (String c pre).
      * intros [pre Hpre]. destruct pre as [| x pre].
        -- now rewrite sapp_nil_l in Hpre.
        -- rewrite sapp_cons in Hpre. injection Hpre as _ ->. now exists pre.
Qed.

Lemma lastDot_app pre e :
  Path.lastDot e = None ->
  Path.lastDot (pre +:+ String "." e) = Some (String "." e).
Proof.
  intros He. induction pre as [| c pre IH].
  - rewrite sapp_nil_l. simpl. now rewrite He.
  - rewrite sapp_cons. simpl. now rewrite IH.
Qed.

Lemma segments_nonnil s : Path.segments s <> [].
Proof.
  destruct s as [| c s]; simpl; [discriminate |].
  destruct (Ascii.eqb c "/"); [discriminate |].
  destruct (Path.segments s); discriminate.
Qed.

Lemma segments_app a b :
  Path.segments (a +:+ "/" +:+ b) = Path.segments a ++ Path.segments b.
Proof.
  induction a as [| c a IH].
  - reflexivity.
  - rewrite sapp_cons. simpl. rewrite IH.
    destruct (Ascii.eqb c "/"); [reflexivity |].
    destruct (Path.segments a) eqn:Ha; [now apply segments_nonnil in Ha |].
    reflexivity.
Qed.

Lemma last_app_nonnil {A} (l1 l2 : list A) d :
  l2 <> [] -> List.last (l1 ++ l2) d = List.last l2 d.
Proof.
  intros H. induction l1 as [| x l1 IH]; [reflexivity |].
  simpl. destruct (l1 ++ l2) eqn:E; [| exact IH].
  apply app_eq_nil in E as [_ ->]. congruence.
Qed.

Lemma last_In {A} (l : list A) d : l <> [] -> In (List.last l d) l.
Proof.
  induction l as [| x l IH]; [congruence |]. intros _.
  destruct l as [| y l]; [now left |]. right. apply IH. discriminate.
Qed.

(** A non-empty base name is one of the pieces of the path. *)
Lemma basename_In p : Path.basename p <> "" -> In (Path.basename p) (Path.segments p).
Proof.
  unfold Path.basename. intros Hne.
  set (L := filter _ (Path.segments p)) in *.
  assert (Hin : In (List.last L "") L).
  { apply last_In. intros E. now rewrite E in Hne. }
  rewrite <- list_elem_of_In in Hin. subst L.
  apply list_elem_of_filter in Hin as [_ Hin]. now apply list_elem_of_In.
Qed.

Lemma basename_app a b :
  Path.basename b <> "" -> Path.basename (a +:+ "/" +:+ b) = Path.basename b.
Proof.
  unfold Path.basename. intros Hne. rewrite segments_app, filter_app.
  apply last_app_nonnil. intros E. now rewrite E in Hne.
Qed.

Lemma basename_absolute cwd rel :
  Path.basename rel <> "" ->
  Path.basename (Glob.absolute cwd rel) = Path.basename rel.
Proof.
  intros Hne. unfold Glob.absolute. destruct (String.eqb cwd "/").
  - change ("/" +:+ rel) with ("" +:+ "/" +:+ rel). now apply basename_app.
  - now apply basename_app.
Qed.

(** A visible file name that ends with a plain extension has exactly
    that extension. *)
Lemma extname_of_suffix p ext :
  plain_ext ext ->
  Glob.hidden (Path.basename p) = false ->
  Str.endsWith (Path.basename p) ext = true ->
  Path.extname p = ext.
Proof.
  intros (e & -> & He) Hvis Hend.
  apply endsWith_true in Hend as [pre Hpre].
  unfold Path.extname. rewrite Hpre in *.
  destruct pre as [| c pre]; [rewrite sapp_nil_l in Hvis; discriminate Hvis |].
  rewrite sapp_cons in *. unfold Glob.hidden in Hvis. cbn [Str.startsWith] in Hvis.
  destruct (Ascii.eqb_spec "." c) as [<- | Hc]; [discriminate |].
  replace (String.eqb (String c (pre +:+ String "." e)) "..") with false.
  - now rewrite lastDot_app.
  - symmetry. apply String.eqb_neq. intros H. injection H as H _. congruence.
Qed.

Lemma lastDot_suffix s e : Path.lastDot s = Some e -> exists pre, s = pre +:+ e.
Proof.
  revert e. induction s as [| c s IH]; intros e; simpl; [discriminate |].
  destruct (Path.lastDot s) as [e' |].
  - intros H. injection H as <-. destruct (IH e' eq_refl) as [pre ->].
    now exists (String c pre).
  - destruct (Ascii.eqb c "."); [| discriminate].
    intros H. injection H as <-. now exists "".
Qed.

(** The extension is the end of the base name. *)
Lemma extname_suffix p :
  Path.extname p <> "" -> exists pre, Path.basename p = pre +:+ Path.extname p.
Proof.
  unfold Path.extname. destruct (Path.basename p) as [| c rest]; [congruence |].
  destruct (String.eqb (String c rest) ".."); [congruence |].
  destruct (Path.lastDot rest) as [e |] eqn:Hd; [| congruence].
  intros _. apply lastDot_suffix in Hd as [pre ->]. now exists (String c pre).
Qed.

(** ** Discovery *)

Lemma kind_patterns_exts k : kind_patterns k = map (fun ext => "**/*" +:+ ext) (kind_exts k).
Proof. destruct k; reflexivity. Qed.

Lemma kind_exts_plain k ext : In ext (kind_exts k) -> plain_ext ext.
Proof.
  destruct k; simpl; intros H;
    repeat (destruct H as [<- | H]; [eexists; split; reflexivity |]);
    destruct H.
Qed.

Lemma kind_exts_disjoint k1 k2 ext :
  In ext (kind_exts k1) -> In ext (kind_exts k2) -> k1 = k2.
Proof.
  destruct k1, k2; simpl; intros H1 H2; try reflexivity; exfalso;
    repeat (destruct H1 as [<- | H1]; [
      repeat (destruct H2 as [H2 | H2]; [discriminate H2 |]); destruct H2 |]);
    destruct H1.
Qed.

Lemma found_In patterns ignore files rel :
  In rel (Glob.found patterns ignore files) <->
  In rel files /\ Glob.selected patterns ignore rel = true.
Proof.
  unfold Glob.found.
  rewrite <- list_elem_of_In, elem_of_remove_dups, list_elem_of_filter, list_elem_of_In.
  rewrite Is_true_true. tauto.
Qed.

Lemma matches_unfold ext rel :
  Glob.matches ("**/*" +:+ ext) rel =
  forallb (fun s => negb (Glob.hidden s)) (Path.segments rel)
  && Str.endsWith (Path.basename rel) ext.
Proof.
  unfold Glob.matches.
  change (Str.stripPrefix ("**/*" +:+ ext) "**/*") with (Some ext).
  reflexivity.
Qed.

Lemma matches_suffix ext rel :
  ext <> "" ->
  Glob.matches ("**/*" +:+ ext) rel = true ->
  Glob.hidden (Path.basename rel) = false
  /\ Str.endsWith (Path.basename rel) ext = true.
Proof.
  rewrite matches_unfold. intros Hext H. apply andb_true_iff in H as [Hall Hend].
  split; [| exact Hend].
  rewrite forallb_forall in Hall.
  apply negb_true_iff, Hall, basename_In.
  apply endsWith_true in Hend as [pre ->]. intros E.
  apply (f_equal String.length) in E. rewrite sapp_length in E.
  destruct ext; [congruence | simpl in E; lia].
Qed.

(** A file selected for a kind has one of the kind's extensions, and so
    has its absolute path. *)
Lemma selected_extname k ignore rel cwd :
  Glob.selected (kind_patterns k) ignore rel = true ->
  In (Path.extname rel) (kind_exts k)
  /\ Path.extname (Glob.absolute cwd rel) = Path.extname rel.
Proof.
  unfold Glob.selected. intros H. apply andb_true_iff in H as [H _].
  rewrite kind_patterns_exts in H.
  apply existsb_exists in H as (pat & Hin & Hm).
  apply in_map_iff in Hin as (ext & <- & Hext).
  pose proof (kind_exts_plain k ext Hext) as Hplain.
  assert (Hne : ext <> "") by (destruct Hplain as (e & -> & _); discriminate).
  apply matches_suffix in Hm as [Hvis Hend]; [| exact Hne].
  rewrite (extname_of_suffix rel ext Hplain Hvis Hend).
  split; [exact Hext |].
  assert (Hb : Path.basename rel <> "").
  { apply endsWith_true in Hend as [pre ->]. intros E.
    apply (f_equal String.length) in E. rewrite sapp_length in E.
    destruct ext; [congruence | simpl in E; lia]. }
  apply extname_of_suffix; [exact Hplain | |]; now rewrite basename_absolute.
Qed.

Lemma discovered_In w k p :
  In p (discovered w k) <->
  exists rel, p = Glob.absolute (SOURCE_DIR w) rel /\ In rel (tree w)
              /\ Glob.selected (kind_patterns k) (kind_ignore k) rel = true.
Proof.
  unfold discovered. rewrite in_map_iff. split.
  - intros (rel & <- & H). apply found_In in H. now exists rel.
  - intros (rel & -> & H). exists rel. split; [reflexivity |]. now apply found_In.
Qed.

Lemma discovered_extname w k p :
  In p (discovered w k) -> In (Path.extname p) (kind_exts k).
Proof.
  intros H. apply discovered_In in H as (rel & -> & _ & Hsel).
  destruct (selected_extname k _ rel (SOURCE_DIR w) Hsel) as [Hin ->]. exact Hin.
Qed.

Lemma absolute_inj cwd : Inj (=) (=) (Glob.absolute cwd).
Proof.
  intros a b. unfold Glob.absolute. destruct (String.eqb cwd "/"); intros H.
  - now apply (inj (String.app "/")) in H.
  - apply (inj (String.app cwd)) in H. now apply (inj (String.app "/")) in H.
Qed.

(** Discovery reports no file twice. *)
Lemma discovered_NoDup w k : List.NoDup (discovered w k).
Proof.
  apply NoDup_ListNoDup. unfold discovered.
  pose proof (absolute_inj (SOURCE_DIR w)) as Hinj.
  apply (NoDup_fmap_2 (Glob.absolute (SOURCE_DIR w))), NoDup_remove_dups.
Qed.

(** No file is discovered for two kinds. *)
Lemma discovered_disjoint w k1 k2 p :
  In p (discovered w k1) -> In p (discovered w k2) -> k1 = k2.
Proof.
  intros H1 H2. eapply kind_exts_disjoint; eauto using discovered_extname.
Qed.

(** ** The calls of a run *)

Lemma attempts_paths w k files : forall st,
  map at_path (attempts w k files st) = files.
Proof. induction files as [| p rest IH]; intros st; simpl; [| rewrite IH]; reflexivity. Qed.

Lemma attempts_kind w k files : forall st a,
  In a (attempts w k files st) -> at_kind a = k.
Proof.
  induction files as [| p rest IH]; intros st a; simpl; [tauto |].
  intros [<- | H]; [reflexivity | eauto].
Qed.

(** Each recorded result is the result the transformer had in some
    state of the run. *)
Lemma attempts_called w k files : forall st a,
  In a (attempts w k files st) ->
  exists s, at_result a = fst (transform w k (at_path a) s).
Proof.
  induction files as [| p rest IH]; intros st a; simpl; [tauto |].
  intros [<- | H]; [now exists st | eauto].
Qed.

Lemma run_attempts_paths w st :
  map at_path (run_attempts w st) =
  discovered w KImage ++ discovered w KCss ++ discovered w KJs ++ discovered w KHtml.
Proof.
  unfold run_attempts, kind_attempts. rewrite !map_app, !attempts_paths. reflexivity.
Qed.

Lemma run_attempts_In w st a :
  In a (run_attempts w st) <-> In a (kind_attempts w (at_kind a) st).
Proof.
  unfold run_attempts. rewrite !in_app_iff. split.
  - intros [H | [H | [H | H]]];
      pose proof H as Hk; apply attempts_kind in Hk; now rewrite Hk.
  - destruct (at_kind a); tauto.
Qed.

Lemma kind_attempts_In w k st a :
  In a (kind_attempts w k st) -> at_kind a = k /\ In (at_path a) (discovered w k).
Proof.
  intros H. split; [now apply attempts_kind in H |].
  apply (in_map at_path) in H. unfold kind_attempts in H.
  now rewrite attempts_paths in H.
Qed.

Lemma NoDup_app_disjoint {A} (l1 l2 : list A) :
  List.NoDup l1 -> List.NoDup l2 -> (forall x, In x l1 -> In x l2 -> False) ->
  List.NoDup (l1 ++ l2).
Proof.
  intros H1 H2 Hd. induction H1 as [| x l1 Hx H1 IH]; [exact H2 |].
  simpl. constructor.
  - rewrite in_app_iff. intros [H | H]; [tauto |]. apply (Hd x); [now left | exact H].
  - apply IH. intros y Hy. apply Hd. now right.
Qed.

(** No file is handed to a transformer twice in a run. *)
Lemma run_attempts_NoDup w st : List.NoDup (map at_path (run_attempts w st)).
Proof.
  rewrite run_attempts_paths.
  repeat apply NoDup_app_disjoint; try apply discovered_NoDup;
    intros p H1 H2; rewrite ?in_app_iff in H2;
    repeat (destruct H2 as [H2 | H2]);
    pose proof (discovered_disjoint w _ _ p H1 H2); discriminate.
Qed.

Lemma errors_push_assets k r l : errors (push_assets k r l) = errors r.
Proof. destruct k; reflexivity. Qed.

Lemma errors_record r a : errors (record r a) = errors r ++ error_of a.
Proof.
  unfold record, error_of. destruct (at_result a); simpl.
  - rewrite errors_push_assets. now rewrite app_nil_r.
  - reflexivity.
Qed.

Lemma errors_fold tr : forall r,
  errors (fold_left record tr r) = errors r ++ flat_map error_of tr.
Proof.
  induction tr as [| a tr IH]; intros r; simpl.
  - now rewrite app_nil_r.
  - rewrite IH, errors_record. now rewrite <- app_assoc.
Qed.

(** The error list of a run: one record per failed call, in order. *)
Lemma final_errors w st :
  errors (final_results w st) = flat_map error_of (run_attempts w st).
Proof. unfold final_results. now rewrite errors_fold. Qed.

Lemma errors_for_absent p tr :
  ~ In p (map at_path tr) -> errors_for p (flat_map error_of tr) = [].
Proof.
  induction tr as [| a tr IH]; simpl; [reflexivity |]. intros Hn.
  unfold errors_for in *. rewrite List.filter_app, IH by tauto.
  rewrite app_nil_r. unfold error_of. destruct (at_result a); [reflexivity |].
  simpl. destruct (String.eqb_spec (at_path a) p); [tauto | reflexivity].
Qed.

Lemma errors_for_attempt tr :
  List.NoDup (map at_path tr) ->
  forall a, In a tr ->
  errors_for (at_path a) (flat_map error_of tr) = error_of a.
Proof.
  induction tr as [| b tr IH]; simpl; [tauto |].
  intros Hnd a Hin. inversion Hnd as [| ? ? Hb Hnd']; subst.
  unfold errors_for in *. rewrite List.filter_app.
  destruct Hin as [-> | Hin].
  - fold (errors_for (at_path a) (flat_map error_of tr)).
    rewrite errors_for_absent by exact Hb. rewrite app_nil_r.
    unfold error_of. destruct (at_result a); [reflexivity |].
    simpl. now rewrite String.eqb_refl.
  - rewrite (IH Hnd' a Hin).
    assert (Hne : at_path b <> at_path a).
    { intros E. apply Hb. rewrite E. now apply in_map. }
    unfold error_of at 1. destruct (at_result b); [reflexivity |].
    simpl. destruct (String.eqb_spec (at_path b) (at_path a)); [tauto | reflexivity].
Qed.

Lemma setup_of_run w st r :
  fst (processAssets w st) = Ok r -> setup_ok w st /\ r = final_results w st.
Proof.
  destruct (processAssets w st) as [res st'] eqn:Hrun. simpl. intros ->.
  apply processAssets_inv in Hrun. tauto.
Qed.

(** ** Inverting a successful computation *)

Lemma bind_inv {A B} (m : M A) (k : A -> M B) st b st' :
  bind m k st = (Ok b, st') ->
  exists a s, m st = (Ok a, s) /\ k a s = (Ok b, st').
Proof.
  unfold bind. destruct (m st) as [[a | e] s]; [eauto | discriminate].
Qed.

Lemma try_rethrow_inv {A} (m : M A) (f : Exc -> Exc) st a st' :
  try_catch m (fun e => throw (f e)) st = (Ok a, st') -> m st = (Ok a, st').
Proof.
  unfold try_catch, throw. destruct (m st) as [[x | e] s]; [auto | discriminate].
Qed.

Lemma try_rethrow_err {A} (m : M A) (f : Exc -> Exc) st e st' :
  try_catch m (fun e => throw (f e)) st = (Err e, st') ->
  exists cause, m st = (Err cause, st') /\ e = f cause.
Proof.
  unfold try_catch, throw. destruct (m st) as [[x | c] s]; [discriminate |].
  intros H. injection H as <- <-. eauto.
Qed.

Lemma await_inv {A} (r : result A) st a st' :
  await r st = (Ok a, st') -> r = Ok a /\ st' = st.
Proof. unfold await. intros H. injection H as -> ->. auto. Qed.

Lemma ret_inv {A} (x : A) st a st' :
  ret x st = (Ok a, st') -> a = x /\ st' = st.
Proof. unfold ret. intros H. injection H as -> ->. auto. Qed.

Lemma log_inv (e : LogEntry) st u st' :
  add_log e st = (Ok u, st') -> st' = logged e st.
Proof. unfold add_log. intros H. now injection H as <-. Qed.

Lemma writeFile_inv w p b st u st' :
  writeFile w p b st = (Ok u, st') ->
  st' = mkSt (<[p := b]> (fs_files st)) (fs_dirs st) (log st).
Proof.
  unfold writeFile. destruct (fs_writeFile w p); [| discriminate].
  intros H. now injection H as <-.
Qed.

Lemma ensureDirectory_files w d st res st' :
  ensureDirectory w d st = (res, st') -> fs_files st' = fs_files st.
Proof.
  unfold ensureDirectory, fs_access, mkdir. unfold_m.
  destruct (bool_decide (d ∈ fs_dirs st)).
  - intros H. now injection H as _ <-.
  - destruct (fs_mkdir w d); intros H; now injection H as _ <-.
Qed.

Lemma sharp_pipeline_inv w p md tw o out st buf st' :
  sharp_pipeline w p md tw o out st = (Ok buf, st') ->
  st' = st
  /\ exists t len, tw = Some t /\ 0 < t /\ sharp_toBuffer w p t o out = Ok len
     /\ buf = Raster (sharp_format out)
                (sharp_resize_width (default t (md_width md)) t o) len.
Proof.
  unfold sharp_pipeline. destruct tw as [t |]; [| discriminate].
  destruct (Z.leb_spec t 0) as [Hle | Hlt]; [discriminate |]. unfold_m.
  destruct (sharp_toBuffer w p t o out) as [len |] eqn:Hb; [| discriminate].
  intros H. injection H as <- <-. split; [reflexivity |].
  exists t, len. auto.
Qed.

(** No upscaling: with [withoutEnlargement], resizing to the clamped
    width gives exactly the clamped width. *)
Lemma sharp_resize_width_clamped n :
  sharp_resize_width n (Z.min n CONFIG.MAX_IMAGE_WIDTH) resize_options
  = Z.min n CONFIG.MAX_IMAGE_WIDTH.
Proof.
  unfold sharp_resize_width, resize_options. simpl.
  destruct (Z.ltb_spec n (Z.min n CONFIG.MAX_IMAGE_WIDTH)); lia.
Qed.

Tactic Notation "inv_bind" hyp(H) "as" ident(a) ident(s) ident(H1) :=
  let Ht := fresh "Ht" in
  apply bind_inv in H; destruct H as (a & s & H1 & Ht); rename Ht into H.

(** What a successful call on a raster file has done. *)
Lemma optimizeImage_raster w p d st recs st' :
  let ext := Str.toLowerCase (Path.extname p) in
  SUPPORTED_IMAGE_FORMATS_has ext = true ->
  ext <> ".svg" ->
  optimizeImage w p d st = (Ok recs, st') ->
  exists n len,
    sharp_metadata w p = Ok (mkMetadata (Some n))
    /\ 0 < Z.min n CONFIG.MAX_IMAGE_WIDTH
    /\ let webp := Raster "webp" (Z.min n CONFIG.MAX_IMAGE_WIDTH) len in
       let files1 := <[rendition_path p d ".webp" := webp]> (fs_files st) in
       (((ext = ".jpg" \/ ext = ".jpeg") /\ exists opt,
           recs = [mkImage (rendition_path p d ".webp") "webp" len;
                   mkImage (rendition_path p d ".jpg") "jpeg" (buffer_length opt)]
           /\ fs_files st' = <[rendition_path p d ".jpg" := opt]> files1)
        \/ (ext = ".png" /\ exists opt,
           recs = [mkImage (rendition_path p d ".webp") "webp" len;
                   mkImage (rendition_path p d ".png") "png" (buffer_length opt)]
           /\ fs_files st' = <[rendition_path p d ".png" := opt]> files1)
        \/ (ext = ".webp"
            /\ recs = [mkImage (rendition_path p d ".webp") "webp" len]
            /\ fs_files st' = files1)).
Proof.
  intros ext Hsup Hsvg. unfold optimizeImage. fold ext. rewrite Hsup. simpl negb.
  cbv iota. intros H. apply try_rethrow_inv in H.
  inv_bind H as u s1 Hdir. apply ensureDirectory_files in Hdir.
  destruct (String.eqb_spec ext ".svg") as [E | _]; [contradiction |].
  inv_bind H as md s2 Hmd. apply await_inv in Hmd as [Hmd ->]. destruct md as [[n |]].
  2:{ inv_bind H as b s2 Hp. apply sharp_pipeline_inv in Hp as [_ (t & len & Ht & _)].
      discriminate. }
  inv_bind H as webp s2 Hp.
  apply sharp_pipeline_inv in Hp as [-> (t & len & Ht & Hpos & Hbuf & ->)].
  simpl in Ht. injection Ht as <-. simpl default in *.
  rewrite sharp_resize_width_clamped in *.
  inv_bind H as u1 s2 Hw. apply writeFile_inv in Hw. subst s2.
  exists n, len. split; [exact Hmd |]. split; [exact Hpos |].
  simpl sharp_format in *. simpl buffer_length in *. simpl fs_files in *.
  rewrite Hdir in *. clear Hdir.
  inv_bind H as files s2 Hsec.
  inv_bind H as u2 s3 Hlog. apply log_inv in Hlog. apply ret_inv in H as [-> ->].
  subst s3. simpl fs_files.
  destruct (String.eqb_spec ext ".jpg") as [Ej | Nj];
    [| destruct (String.eqb_spec ext ".jpeg") as [Ej | Nje] ]; simpl orb in Hsec.
  3: destruct (String.eqb_spec ext ".png") as [Ep | Np].
  - left. split; [now left |].
    inv_bind Hsec as b s3 Hp. apply sharp_pipeline_inv in Hp as [-> _].
    inv_bind Hsec as opt s3 Ho. apply await_inv in Ho as [_ ->].
    inv_bind Hsec as u3 s3 Hw. apply writeFile_inv in Hw. subst s3.
    apply ret_inv in Hsec as [-> ->]. exists opt. split; reflexivity.
  - left. split; [now right |].
    inv_bind Hsec as b s3 Hp. apply sharp_pipeline_inv in Hp as [-> _].
    inv_bind Hsec as opt s3 Ho. apply await_inv in Ho as [_ ->].
    inv_bind Hsec as u3 s3 Hw. apply writeFile_inv in Hw. subst s3.
    apply ret_inv in Hsec as [-> ->]. exists opt. split; reflexivity.
  - right. left. split; [exact Ep |].
    inv_bind Hsec as b s3 Hp. apply sharp_pipeline_inv in Hp as [-> _].
    inv_bind Hsec as opt s3 Ho. apply await_inv in Ho as [_ ->].
    inv_bind Hsec as u3 s3 Hw. apply writeFile_inv in Hw. subst s3.
    apply ret_inv in Hsec as [-> ->]. exists opt. split; reflexivity.
  - right. right.
    apply ret_inv in Hsec as [-> ->].
    split; [| split; reflexivity].
    unfold SUPPORTED_IMAGE_FORMATS_has in Hsup. simpl in Hsup.
    repeat (apply orb_true_iff in Hsup as [Hsup | Hsup];
            [apply String.eqb_eq in Hsup; try contradiction |]);
      try discriminate; try assumption.
Qed.

(** ** Joining a directory and a file name *)

Lemma has_slash_app a b : has_slash (a +:+ b) = has_slash a || has_slash b.
Proof.
  induction a as [| c a IH]; [reflexivity |].
  rewrite sapp_cons. simpl. now rewrite IH, orb_assoc.
Qed.

Lemma segments_no_slash s : Forall (fun seg => has_slash seg = false) (Path.segments s).
Proof.
  induction s as [| c s IH]; simpl; [repeat constructor |].
  destruct (Ascii.eqb c "/") eqn:Hc; [constructor; [reflexivity | exact IH] |].
  destruct (Path.segments s) as [| seg rest]; [repeat constructor; simpl; now rewrite Hc |].
  inversion IH; subst. constructor; [simpl; now rewrite Hc | assumption].
Qed.

Lemma segments_plain x : has_slash x = false -> Path.segments x = [x].
Proof.
  induction x as [| c x IH]; [reflexivity |]. simpl. intros H.
  apply orb_false_iff in H as [Hc Hx]. rewrite Hc, (IH Hx). reflexivity.
Qed.

Lemma basename_no_slash p : has_slash (Path.basename p) = false.
Proof.
  unfold Path.basename.
  set (l := filter _ _).
  assert (Hall : Forall (fun seg => has_slash seg = false) l).
  { subst l. apply Forall_forall. intros x Hx.
    apply list_elem_of_filter in Hx as [_ Hx].
    pose proof (segments_no_slash p) as Hs. rewrite Forall_forall in Hs.
    now apply Hs. }
  destruct l as [| y l]; [reflexivity |].
  rewrite Forall_forall in Hall. apply Hall, list_elem_of_In, last_In. discriminate.
Qed.

Lemma stripSuffix_some s suf stem :
  Str.stripSuffix s suf = Some stem -> s = stem +:+ suf.
Proof.
  revert stem. induction s as [| c s IH]; intros stem.
  - change (Str.stripSuffix "" suf)
      with (if String.eqb "" suf then Some "" else None).
    destruct (String.eqb_spec "" suf) as [<- | _]; [| discriminate].
    intros H. now injection H as <-.
  - change (Str.stripSuffix (String c s) suf)
      with (if String.eqb (String c s) suf then Some ""
            else String c <$> Str.stripSuffix s suf).
    destruct (String.eqb_spec (String c s) suf) as [<- | _].
    + intros H. now injection H as <-.
    + destruct (Str.stripSuffix s suf) as [stem' |]; [| discriminate].
      intros H. injection H as <-. rewrite sapp_cons. f_equal. now apply IH.
Qed.

Lemma image_basename_no_slash p : has_slash (image_basename p) = false.
Proof.
  unfold image_basename, Path.basenameExt.
  pose proof (basename_no_slash p) as Hb.
  destruct (String.eqb _ ""); [exact Hb |].
  destruct (String.eqb p _); [reflexivity |].
  destruct (String.eqb (Path.basename p) _); [exact Hb |].
  destruct (Str.stripSuffix _ _) as [stem |] eqn:Hs; [| exact Hb].
  apply stripSuffix_some in Hs. rewrite Hs, has_slash_app in Hb.
  now apply orb_false_iff in Hb.
Qed.

Lemma resolveDots_snoc abs x :
  plain_name x ->
  forall segs acc,
  Path.resolveDots abs acc (segs ++ [x]) = Path.resolveDots abs acc segs ++ [x].
Proof.
  intros (_ & H0 & H1 & H2).
  apply String.eqb_neq in H0, H1, H2.
  induction segs as [| seg segs IH]; intros acc.
  - simpl. now rewrite H0, H1, H2.
  - simpl. destruct (String.eqb seg "" || String.eqb seg "."); [apply IH |].
    destruct (String.eqb seg "..").
    + destruct acc as [| top acc'].
      * destruct abs; apply IH.
      * destruct (String.eqb top ".."); apply IH.
    + apply IH.
Qed.

Lemma join_snoc sep l x :
  Str.join sep (l ++ [x]) =
  match l with
  | [] => x
  | _ => Str.join sep l +:+ sep +:+ x
  end.
Proof.
  induction l as [| y l IH]; [reflexivity |].
  destruct l as [| z l]; [reflexivity |].
  change (Str.join sep ((y :: z :: l) ++ [x]))
    with (y +:+ sep +:+ Str.join sep ((z :: l) ++ [x])).
  rewrite IH.
  change (Str.join sep (y :: z :: l)) with (y +:+ sep +:+ Str.join sep (z :: l)).
  now rewrite !sapp_assoc.
Qed.

Lemma isAbsolute_app d rest :
  d <> "" -> Path.isAbsolute (d +:+ rest) = Path.isAbsolute d.
Proof. destruct d as [| c d]; [congruence |]. reflexivity. Qed.

Lemma no_trailing_slash x :
  plain_name x -> forall a, Str.endsWith (a +:+ x) "/" = false.
Proof.
  intros (Hs & H0 & _).
  assert (Hx : Str.endsWith x "/" = false).
  { clear H0. induction x as [| c x IH]; [reflexivity |].
    simpl in Hs. apply orb_false_iff in Hs as [Hc Hx]. rewrite endsWith_unfold.
    destruct (String.eqb_spec (String c x) "/") as [E | _]; [| now apply IH].
    injection E as -> _. discriminate Hc. }
  induction a as [| c a IH]; [exact Hx |].
  rewrite sapp_cons, endsWith_unfold.
  destruct (String.eqb_spec (String c (a +:+ x)) "/") as [E | _]; [| exact IH].
  injection E as _ E. destruct a; [now rewrite sapp_nil_l in E | discriminate E].
Qed.

Lemma nonempty_app_r a x : x <> "" -> String.eqb (a +:+ x) "" = false.
Proof.
  intros H. apply String.eqb_neq. intros E. destruct a; [now rewrite sapp_nil_l in E |].
  discriminate E.
Qed.

(** [path.join(dir, name)] ends with the name, after a prefix that only
    depends on the directory. *)
Lemma join_dir_name d :
  exists prefix, forall x, plain_name x -> Path.join [d; x] = prefix +:+ x.
Proof.
  destruct (String.eqb_spec d "") as [-> | Hd].
  - exists "". intros x Hx. pose proof Hx as (Hs & H0 & H1 & H2).
    unfold Path.join. rewrite filter_cons, decide_False by (simpl; tauto).
    rewrite filter_cons, decide_True.
    2:{ unfold Path.nonempty. apply String.eqb_neq in H0. now rewrite H0. }
    rewrite filter_nil. cbn [Str.join]. unfold Path.normalize.
    assert (Ha : Path.isAbsolute x = false).
    { destruct x as [| c x]; [reflexivity |]. simpl in Hs.
      apply orb_false_iff in Hs as [Hc _]. unfold Path.isAbsolute.
      cbn [Str.startsWith]. rewrite Ascii.eqb_sym, Hc. reflexivity. }
    rewrite Ha, (segments_plain x Hs).
    change [x] with ([] ++ [x]).
    rewrite (resolveDots_snoc false x Hx [] []). cbn [Path.resolveDots rev app Str.join].
    pose proof (no_trailing_slash x Hx "") as Ht. rewrite sapp_nil_l in Ht. rewrite Ht.
    apply String.eqb_neq in H0. now rewrite H0.
  - set (abs := Path.isAbsolute d).
    set (L := Path.resolveDots abs [] (Path.segments d)).
    exists ((if abs then "/" else "")
            +:+ match L with [] => "" | _ => Str.join "/" L +:+ "/" end).
    intros x Hx. pose proof Hx as (Hs & H0 & H1 & H2).
    unfold Path.join. rewrite filter_cons, decide_True.
    2:{ unfold Path.nonempty. apply String.eqb_neq in Hd. now rewrite Hd. }
    rewrite filter_cons, decide_True.
    2:{ unfold Path.nonempty. apply String.eqb_neq in H0. now rewrite H0. }
    rewrite filter_nil. cbn [Str.join]. unfold Path.normalize.
    assert (Hq : String.eqb (d +:+ "/" +:+ x) "" = false).
    { rewrite <- sapp_assoc. now apply nonempty_app_r. }
    assert (Ht : Str.endsWith (d +:+ "/" +:+ x) "/" = false).
    { rewrite <- sapp_assoc. now apply no_trailing_slash. }
    rewrite Hq, Ht.
    rewrite (isAbsolute_app d _ Hd). fold abs.
    rewrite segments_app, (segments_plain x Hs).
    rewrite (resolveDots_snoc abs x Hx). fold L. rewrite join_snoc.
    assert (Hb : String.eqb (match L with
                             | [] => x
                             | _ :: _ => Str.join "/" L +:+ "/" +:+ x
                             end) "" = false).
    { destruct L; [now apply String.eqb_neq |].
      rewrite <- sapp_assoc. now apply nonempty_app_r. }
    rewrite Hb.
    destruct abs; destruct L; rewrite ?sapp_nil_l, ?sapp_assoc; reflexivity.
Qed.

Lemma rendition_name_plain p ext :
  has_slash ext = false -> (3 <= String.length ext)%nat ->
  plain_name (image_basename p +:+ ext).
Proof.
  intros Hs Hlen.
  assert (Hl : (3 <= String.length (image_basename p +:+ ext))%nat).
  { rewrite sapp_length. lia. }
  split; [| split; [| split]].
  - now rewrite has_slash_app, image_basename_no_slash.
  - intros E. rewrite E in Hl. simpl in Hl. lia.
  - intros E. rewrite E in Hl. simpl in Hl. lia.
  - intros E. rewrite E in Hl. simpl in Hl. lia.
Qed.

(** Two renditions of one file with different extensions are written to
    different paths. *)
Lemma rendition_path_inj p d ext1 ext2 :
  has_slash ext1 = false -> (3 <= String.length ext1)%nat ->
  has_slash ext2 = false -> (3 <= String.length ext2)%nat ->
  rendition_path p d ext1 = rendition_path p d ext2 -> ext1 = ext2.
Proof.
  intros Hs1 Hl1 Hs2 Hl2. unfold rendition_path.
  destruct (join_dir_name d) as [prefix Hj].
  rewrite !Hj by now apply rendition_name_plain.
  intros E. apply (inj (String.app prefix)) in E.
  now apply (inj (String.app (image_basename p))) in E.
Qed.

(** ** What the transformers return *)

(** What a successful call on an SVG file has done. *)
Lemma optimizeImage_svg w p d st recs st' :
  Str.toLowerCase (Path.extname p) = ".svg" ->
  optimizeImage w p d st = (Ok recs, st') ->
  exists src out,
    fs_readFile w p = Ok src
    /\ imagemin_svgo w svgo_plugins src = Ok out
    /\ recs = [mkImage (rendition_path p d ".svg") "svg" (buffer_length (Bytes out))]
    /\ fs_files st' = <[rendition_path p d ".svg" := Bytes out]> (fs_files st).
Proof.
  intros Hext. unfold optimizeImage. rewrite Hext. cbn [SUPPORTED_IMAGE_FORMATS_has].
  change (negb (existsb (String.eqb ".svg") SUPPORTED_IMAGE_FORMATS)) with false.
  cbv iota. change (String.eqb ".svg" ".svg") with true. cbv iota.
  intros H. apply try_rethrow_inv in H.
  inv_bind H as u s1 Hdir. apply ensureDirectory_files in Hdir.
  inv_bind H as src s2 Hr. apply await_inv in Hr as [Hr ->].
  inv_bind H as out s2 Ho. apply await_inv in Ho as [Ho ->].
  inv_bind H as u1 s2 Hw. apply writeFile_inv in Hw. subst s2.
  inv_bind H as u2 s2 Hl. apply log_inv in Hl. subst s2.
  apply ret_inv in H as [-> ->].
  exists src, out. unfold rendition_path, image_basename. rewrite Hext.
  simpl fs_files. rewrite Hdir. auto.
Qed.

Lemma supported_lower ext :
  In ext SUPPORTED_IMAGE_FORMATS ->
  Str.toLowerCase ext = ext /\ SUPPORTED_IMAGE_FORMATS_has ext = true.
Proof.
  simpl. intros H.
  repeat (destruct H as [<- | H]; [split; reflexivity |]). destruct H.
Qed.

(** Called on a supported extension, the image transformer returns at
    least one record when it returns. *)
Lemma optimizeImage_ok_nonempty w p d st recs st' :
  SUPPORTED_IMAGE_FORMATS_has (Str.toLowerCase (Path.extname p)) = true ->
  optimizeImage w p d st = (Ok recs, st') -> recs <> [].
Proof.
  intros Hsup H.
  destruct (String.eqb_spec (Str.toLowerCase (Path.extname p)) ".svg") as [E | N].
  - apply optimizeImage_svg in H as (src & out & _ & _ & -> & _); [discriminate | exact E].
  - apply optimizeImage_raster in H as (n & len & _ & _ & Hcases); [| exact Hsup | exact N].
    destruct Hcases as [(_ & opt & -> & _) | [(_ & opt & -> & _) | (_ & -> & _)]];
      discriminate.
Qed.

Lemma transform_typed w k p st l :
  fst (transform w k p st) = Ok l -> typed k l = l.
Proof.
  destruct k; simpl; unfold_m.
  - destruct (optimizeImage _ _ _ st) as [[recs | e] s]; simpl; [| discriminate].
    intros H. injection H as <-. unfold typed. now rewrite omap_image_of.
  - destruct (optimizeCSS _ _ _ st) as [[x | e] s]; simpl; [| discriminate].
    intros H. now injection H as <-.
  - destruct (optimizeJS _ _ _ st) as [[x | e] s]; simpl; [| discriminate].
    intros H. now injection H as <-.
  - destruct (copyFile _ _ _ st) as [[x | e] s]; simpl; [| discriminate].
    intros H. now injection H as <-.
Qed.

(** A discovered file whose transformer returns has produced a record. *)
Lemma transform_ok_nonempty w k p st l :
  In p (discovered w k) -> fst (transform w k p st) = Ok l -> l <> [].
Proof.
  intros Hd. destruct k; simpl; unfold_m.
  - destruct (optimizeImage _ _ _ st) as [[recs | e] s] eqn:Ho; simpl; [| discriminate].
    intros H. injection H as <-.
    apply discovered_extname, supported_lower in Hd as [Hlow Hsup].
    apply optimizeImage_ok_nonempty in Ho; [| now rewrite Hlow].
    destruct recs; [congruence | discriminate].
  - destruct (optimizeCSS _ _ _ st) as [[x | e] s]; simpl; [| discriminate].
    intros H. now injection H as <-.
  - destruct (optimizeJS _ _ _ st) as [[x | e] s]; simpl; [| discriminate].
    intros H. now injection H as <-.
  - destruct (copyFile _ _ _ st) as [[x | e] s]; simpl; [| discriminate].
    intros H. now injection H as <-.
Qed.

(** The other three transformers return exactly one record. *)
Lemma transform_single w k p st l :
  k <> KImage -> fst (transform w k p st) = Ok l -> length l = 1%nat.
Proof.
  intros Hk. destruct k; [congruence | | |]; simpl; unfold_m.
  - destruct (optimizeCSS _ _ _ st) as [[x | e] s]; simpl; [| discriminate].
    intros H. now injection H as <-.
  - destruct (optimizeJS _ _ _ st) as [[x | e] s]; simpl; [| discriminate].
    intros H. now injection H as <-.
  - destruct (copyFile _ _ _ st) as [[x | e] s]; simpl; [| discriminate].
    intros H. now injection H as <-.
Qed.

(** The image transformer returns at most two records. *)
Lemma optimizeImage_at_most_two w p d st recs st' :
  optimizeImage w p d st = (Ok recs, st') -> (length recs <= 2)%nat.
Proof.
  intros H.
  destruct (SUPPORTED_IMAGE_FORMATS_has (Str.toLowerCase (Path.extname p))) eqn:Hsup.
  - destruct (String.eqb_spec (Str.toLowerCase (Path.extname p)) ".svg") as [E | N].
    + apply optimizeImage_svg in H as (src & out & _ & _ & -> & _); [simpl; lia | exact E].
    + apply optimizeImage_raster in H as (n & len & _ & _ & Hcases); [| exact Hsup | exact N].
      destruct Hcases as [(_ & opt & -> & _) | [(_ & opt & -> & _) | (_ & -> & _)]];
        simpl; lia.
  - unfold optimizeImage in H. rewrite Hsup in H. simpl in H. unfold_m.
    injection H as <- _. simpl. lia.
Qed.

(** ** The asset lists of a run *)

Lemma kind_eqb_spec a b : reflect (a = b) (kind_eqb a b).
Proof. destruct a, b; constructor; congruence. Qed.

Lemma assets_push_error k r x : assets k (push_error r x) = assets k r.
Proof. destruct k; reflexivity. Qed.

Lemma assets_push_assets k k' r l :
  assets k (push_assets k' r l) =
  assets k r ++ (if kind_eqb k k' then typed k l else []).
Proof.
  destruct k, k'; simpl; rewrite ?map_app, ?app_nil_r; reflexivity.
Qed.

Lemma assets_fold k w k' files : forall st r,
  assets k (fold_left record (attempts w k' files st) r) =
  assets k r ++ (if kind_eqb k k' then flat_map produced (attempts w k' files st) else []).
Proof.
  induction files as [| p rest IH]; intros st r; simpl.
  - destruct (kind_eqb k k'); now rewrite app_nil_r.
  - rewrite IH. unfold record, produced. cbn [at_result at_kind at_path].
    destruct (fst (transform w k' p st)) as [l | e] eqn:Ht.
    + rewrite assets_push_assets. destruct (kind_eqb_spec k k') as [<- | _].
      * rewrite (transform_typed _ _ _ _ _ Ht). now rewrite <- app_assoc.
      * now rewrite app_nil_r.
    + rewrite assets_push_error. destruct (kind_eqb k k'); reflexivity.
Qed.

(** The asset list of a kind: the records of its successful calls, in
    order. *)
Lemma final_assets w st k :
  assets k (final_results w st) = flat_map produced (kind_attempts w k st).
Proof.
  unfold final_results, run_attempts, kind_attempts.
  rewrite !fold_left_app, !assets_fold.
  destruct k; simpl; rewrite ?app_nil_r; reflexivity.
Qed.

Lemma NoDup_map_eq {A B} (f : A -> B) (l : list A) a b :
  List.NoDup (map f l) -> In a l -> In b l -> f a = f b -> a = b.
Proof.
  induction l as [| x l IH]; simpl; [tauto |].
  intros Hnd Ha Hb E. inversion Hnd as [| ? ? Hx Hnd']; subst.
  destruct Ha as [-> | Ha], Hb as [-> | Hb]; try reflexivity.
  - exfalso. apply Hx. rewrite E. now apply in_map.
  - exfalso. apply Hx. rewrite <- E. now apply in_map.
  - now apply IH.
Qed.

(** C2. In a run that returns, every discovered file of every kind is
    handed to its transformer, once and whatever happened to the files
    before it; the results are these calls recorded in order (the records
    of the calls that returned, one error record for each call that
    threw); and for every file whose transformer threw, the error list
    holds exactly one record about that file. *)
Theorem failure_isolation (w : World) (st : St) (r : Results) :
  fst (processAssets w st) = Ok r ->
  (forall k, map at_path (kind_attempts w k st) = discovered w k)
  /\ (forall k, assets k r = flat_map produced (kind_attempts w k st))
  /\ errors r = flat_map error_of (run_attempts w st)
  /\ (forall a e, In a (run_attempts w st) -> at_result a = Err e ->
        errors_for (at_path a) (errors r)
        = [mkError (kind_type (at_kind a)) (at_path a) (exc_message e)]).
Proof.
  intros Hrun. apply setup_of_run in Hrun as [_ ->].
  split; [| split; [| split]].
  - intros k. apply attempts_paths.
  - intros k. apply final_assets.
  - apply final_errors.
  - intros a e Hin He. rewrite final_errors.
    rewrite (errors_for_attempt _ (run_attempts_NoDup w st) a Hin).
    unfold error_of. now rewrite He.
Qed.

(** C3. In a run that returns, every discovered file is handed to its
    transformer exactly once, and that one call ends in one of three
    ways: it returned records, which are all in the results, and left no
    error record; or it returned none, having logged the warning, and
    left no error record; or it threw and left exactly one error
    record. *)
Theorem every_file_accounted (w : World) (st : St) (r : Results) :
  fst (processAssets w st) = Ok r ->
  forall k p, In p (discovered w k) ->
  exists a,
    In a (kind_attempts w k st) /\ at_kind a = k /\ at_path a = p
    /\ (forall a', In a' (run_attempts w st) -> at_path a' = p -> a' = a)
    /\ match at_result a with
       | Ok (x :: l) =>
           incl (x :: l) (assets k r) /\ errors_for p (errors r) = []
       | Ok [] =>
           In (unsupported_warning p) (log (final_state w st))
           /\ errors_for p (errors r) = []
       | Err e =>
           errors_for p (errors r) = [mkError (kind_type k) p (exc_message e)]
       end.
Proof.
  intros Hrun k p Hp. apply setup_of_run in Hrun as [_ ->].
  assert (Hin : In p (map at_path (kind_attempts w k st))).
  { unfold kind_attempts. now rewrite attempts_paths. }
  apply in_map_iff in Hin as (a & Hpath & Ha).
  pose proof (attempts_kind _ _ _ _ _ Ha) as Hk.
  assert (Hrun : In a (run_attempts w st)) by (apply run_attempts_In; now rewrite Hk).
  exists a. repeat split; try assumption.
  - intros a' Ha' E. apply (NoDup_map_eq at_path (run_attempts w st));
      [apply run_attempts_NoDup | assumption | assumption | congruence].
  - pose proof (errors_for_attempt _ (run_attempts_NoDup w st) a Hrun) as Herr.
    rewrite <- final_errors, Hpath in Herr. rewrite Herr. unfold error_of.
    destruct (attempts_called _ _ _ _ _ Ha) as [s Hs]. rewrite Hpath in Hs.
    destruct (at_result a) as [l | e] eqn:Hres.
    + destruct l as [| x l].
      * exfalso. symmetry in Hs. now apply transform_ok_nonempty in Hs.
      * split; [| reflexivity]. rewrite final_assets.
        intros y Hy. apply in_flat_map. exists a. split; [exact Ha |].
        unfold produced. now rewrite Hres.
    + now rewrite Hk, Hpath.
Qed.

(** ** Raster renditions *)

(** C4. For a [.jpg], [.jpeg] or [.png] source that the image transformer
    handles successfully, the file written at the [.webp] output path is
    a WebP image whose width is at most the minimum of the source's
    natural width and [MAX_IMAGE_WIDTH]; in particular it is never wider
    than the source. *)
Theorem webp_width_clamped (w : World) (p d : string) (st st' : St)
    (recs : list ImageRecord) :
  In (Str.toLowerCase (Path.extname p)) [".jpg"; ".jpeg"; ".png"] ->
  optimizeImage w p d st = (Ok recs, st') ->
  exists n width len,
    sharp_metadata w p = Ok (mkMetadata (Some n))
    /\ In (mkImage (rendition_path p d ".webp") "webp" len) recs
    /\ fs_files st' !! rendition_path p d ".webp" = Some (Raster "webp" width len)
    /\ width <= Z.min n CONFIG.MAX_IMAGE_WIDTH
    /\ width <= n.
Proof.
  intros Hext H.
  assert (Hsup : SUPPORTED_IMAGE_FORMATS_has (Str.toLowerCase (Path.extname p)) = true).
  { simpl in Hext. destruct Hext as [<- | [<- | [<- | []]]]; reflexivity. }
  assert (Hsvg : Str.toLowerCase (Path.extname p) <> ".svg").
  { simpl in Hext. destruct Hext as [<- | [<- | [<- | []]]]; discriminate. }
  apply optimizeImage_raster in H as (n & len & Hmd & Hpos & Hcases);
    [| exact Hsup | exact Hsvg].
  exists n, (Z.min n CONFIG.MAX_IMAGE_WIDTH), len.
  split; [exact Hmd |].
  assert (Hjpg : rendition_path p d ".jpg" <> rendition_path p d ".webp").
  { intros E. apply rendition_path_inj in E; [discriminate | | | |];
      solve [reflexivity | simpl; lia]. }
  assert (Hpng : rendition_path p d ".png" <> rendition_path p d ".webp").
  { intros E. apply rendition_path_inj in E; [discriminate | | | |];
      solve [reflexivity | simpl; lia]. }
  destruct Hcases as [(_ & opt & -> & ->) | [(_ & opt & -> & ->) | (_ & -> & ->)]].
  - split; [now left |]. rewrite lookup_insert_ne by exact Hjpg.
    rewrite lookup_insert_eq. split; [reflexivity | lia].
  - split; [now left |]. rewrite lookup_insert_ne by exact Hpng.
    rewrite lookup_insert_eq. split; [reflexivity | lia].
  - split; [now left |]. rewrite lookup_insert_eq. split; [reflexivity | lia].
Qed.

(** What the image transformer does on a [.webp] source when the output
    directory can be ensured, the metadata give a positive width and the
    encoding and the write succeed: it succeeds. *)
Lemma optimizeImage_webp_succeeds w p d st s1 n len :
  Str.toLowerCase (Path.extname p) = ".webp" ->
  ensureDirectory w d st = (Ok tt, s1) ->
  sharp_metadata w p = Ok (mkMetadata (Some n)) ->
  0 < n ->
  sharp_toBuffer w p (Z.min n CONFIG.MAX_IMAGE_WIDTH) resize_options
    (ToWebp CONFIG.IMAGE_QUALITY_webp) = Ok len ->
  fs_writeFile w (rendition_path p d ".webp") = Ok tt ->
  fst (optimizeImage w p d st) = Ok [mkImage (rendition_path p d ".webp") "webp" len].
Proof.
  intros Hext He Hmd Hn Hbuf Hw.
  assert (Hpos : (Z.min n CONFIG.MAX_IMAGE_WIDTH <=? 0) = false).
  { apply Z.leb_gt. unfold CONFIG.MAX_IMAGE_WIDTH. lia. }
  unfold rendition_path, image_basename in *.
  unfold optimizeImage. cbv zeta. rewrite Hext in *.
  change (SUPPORTED_IMAGE_FORMATS_has ".webp") with true.
  change (String.eqb ".webp" ".svg") with false.
  change (String.eqb ".webp" ".jpg" || String.eqb ".webp" ".jpeg")%bool with false.
  change (String.eqb ".webp" ".png") with false.
  cbn [negb]. unfold sharp_pipeline, writeFile. unfold_m.
  rewrite He, Hmd. cbn [Math_min md_width fmap option_fmap option_map].
  now rewrite Hpos, Hbuf, Hw.
Qed.

(** C10, as the script has it. A source file with extension [.webp]
    that is not hidden and not below an ignored directory is discovered as
    an image.  The image transformer makes one rendition of it: a call
    that succeeds has written exactly one file, the [.webp] rendition
    resized to the natural width clamped to the configured maximum, and
    returns exactly the record of that file, so no JPEG or PNG rendition
    is made; and the call does succeed whenever the output directory can
    be ensured, the metadata give a positive width and the encoding and
    the write succeed. *)
Theorem webp_source_single_rendition (w : World) (rel : string) :
  In rel (tree w) ->
  Path.extname rel = ".webp" ->
  visible rel = true ->
  ignored default_ignore rel = false ->
  let p := Glob.absolute (SOURCE_DIR w) rel in
  In p (discovered w KImage)
  /\ Path.extname p = ".webp"
  /\ (forall d st recs st',
        optimizeImage w p d st = (Ok recs, st') ->
        exists n len,
          sharp_metadata w p = Ok (mkMetadata (Some n))
          /\ 0 < Z.min n CONFIG.MAX_IMAGE_WIDTH <= n
          /\ recs = [mkImage (rendition_path p d ".webp") "webp" len]
          /\ fs_files st'
             = <[rendition_path p d ".webp" :=
                   Raster "webp" (Z.min n CONFIG.MAX_IMAGE_WIDTH) len]> (fs_files st))
  /\ (forall d st s1 n len,
        ensureDirectory w d st = (Ok tt, s1) ->
        sharp_metadata w p = Ok (mkMetadata (Some n)) ->
        0 < n ->
        sharp_toBuffer w p (Z.min n CONFIG.MAX_IMAGE_WIDTH) resize_options
          (ToWebp CONFIG.IMAGE_QUALITY_webp) = Ok len ->
        fs_writeFile w (rendition_path p d ".webp") = Ok tt ->
        fst (optimizeImage w p d st)
        = Ok [mkImage (rendition_path p d ".webp") "webp" len]).
Proof.
  intros Hin Hext Hvis Hign p.
  assert (Hend : Str.endsWith (Path.basename rel) ".webp" = true).
  { apply endsWith_true. rewrite <- Hext. apply extname_suffix.
    rewrite Hext. discriminate. }
  assert (Hsel : Glob.selected (kind_patterns KImage) (kind_ignore KImage) rel = true).
  { unfold Glob.selected. apply andb_true_iff. split.
    - apply existsb_exists. exists "**/*.webp". split; [simpl; tauto |].
      change "**/*.webp" with ("**/*" +:+ ".webp"). rewrite matches_unfold.
      apply andb_true_iff. split; [exact Hvis | exact Hend].
    - apply negb_true_iff. exact Hign. }
  assert (Hp : Path.extname p = ".webp").
  { destruct (selected_extname KImage _ rel (SOURCE_DIR w) Hsel) as [_ E].
    subst p. now rewrite E. }
  split; [| split; [exact Hp | split]].
  - apply discovered_In. exists rel. auto.
  - intros d st recs st' H.
    apply optimizeImage_raster in H as (n & len & Hmd & Hpos & Hcases).
    + rewrite Hp in Hcases. exists n, len. cbv zeta in Hcases.
      split; [exact Hmd |]. split; [lia |].
      destruct Hcases as [([E | E] & _) | [(E & _) | (_ & -> & ->)]];
        try discriminate E. split; reflexivity.
    + now rewrite Hp.
    + rewrite Hp. discriminate.
  - intros d st s1 n len. apply optimizeImage_webp_succeeds. now rewrite Hp.
Qed.

(** ** The script minifier *)


Section Minifier.

(** What is observed of a program text: whether it contains a
    [debugger] statement, and the calls to [console] methods the program
    makes, in order. *)
Variable has_debugger : string -> bool.
Variable console_calls : string -> list string.

Lemma map_path_neq (o : string) : o +:+ ".map" <> o.
Proof.
  intros E. apply (f_equal String.length) in E. rewrite sapp_length in E.
  simpl in E. lia.
Qed.

(** C7. With a minifier that honours its options, the script that
    [optimizeJS] writes to the output path has no [debugger] statement
    and has the [console] calls of the source. *)
Theorem js_debugger_removed_console_kept (w : World) (inputPath outputPath code : string)
    (st st' : St) (rec : FileRecord) :
  minifier_honours_options has_debugger console_calls w ->
  fs_readFile w inputPath = Ok code ->
  optimizeJS w inputPath outputPath st = (Ok rec, st') ->
  exists out,
    fs_files st' !! outputPath = Some (Bytes out)
    /\ has_debugger out = false
    /\ console_calls out = console_calls code.
Proof.
  intros Hcontract Hread H. unfold optimizeJS in H.
  apply try_rethrow_inv in H.
  inv_bind H as code' s1 Hr. apply await_inv in Hr as [Hr ->].
  rewrite Hread in Hr. injection Hr as <-.
  inv_bind H as result s1 Hm. apply await_inv in Hm as [Hm ->].
  destruct (truthy (min_code result)) eqn:Hcode; [| discriminate].
  simpl negb in H. cbv iota in H.
  destruct (min_code result) as [out |] eqn:Hout; [| discriminate].
  simpl default in H.
  inv_bind H as u s1 Hdir. apply ensureDirectory_files in Hdir.
  inv_bind H as u1 s2 Hw. apply writeFile_inv in Hw. subst s2.
  inv_bind H as u2 s2 Hmap.
  inv_bind H as u3 s3 Hlog. apply log_inv in Hlog. subst s3.
  apply ret_inv in H as [_ ->]. simpl fs_files.
  destruct (Hcontract code _ result out Hm Hout) as [Hdbg Hcon].
  exists out. split; [| split; [now apply Hdbg | now apply Hcon]].
  destruct (truthy (min_map result)).
  - apply writeFile_inv in Hmap. subst s2. simpl fs_files.
    rewrite lookup_insert_ne by apply map_path_neq.
    rewrite lookup_insert_eq. reflexivity.
  - apply ret_inv in Hmap as [_ ->]. simpl fs_files.
    rewrite lookup_insert_eq. reflexivity.
Qed.

End Minifier.

(** ** Vector images *)

Section ViewBox.

(** The [viewBox] attribute of the root element of an SVG text, if any. *)
Variable viewBox : string -> option string.

(** C9. With an optimiser that honours its plugin list, the SVG file
    written by the image transformer has the [viewBox] attribute of the
    source. *)
Theorem svg_viewBox_preserved (w : World) (p d src : string) (st st' : St)
    (recs : list ImageRecord) :
  svgo_honours_plugins viewBox w ->
  Str.toLowerCase (Path.extname p) = ".svg" ->
  fs_readFile w p = Ok src ->
  optimizeImage w p d st = (Ok recs, st') ->
  exists out,
    fs_files st' !! rendition_path p d ".svg" = Some (Bytes out)
    /\ forall v, viewBox src = Some v -> viewBox out = Some v.
Proof.
  intros Hcontract Hext Hread H.
  apply optimizeImage_svg in H as (src' & out & Hr & Ho & _ & Hfiles); [| exact Hext].
  rewrite Hread in Hr. injection Hr as <-.
  exists out. split.
  - rewrite Hfiles. apply lookup_insert_eq.
  - intros v Hv. rewrite <- Hv. apply (Hcontract svgo_plugins src out); [| exact Ho].
    simpl. tauto.
Qed.

End ViewBox.

(** ** Files outside the patterns *)

Lemma filter_without (P : string -> bool) rel files :
  P rel = false ->
  filter (fun f => Is_true (P f)) (List.filter (fun f => negb (String.eqb f rel)) files)
  = filter (fun f => Is_true (P f)) files.
Proof.
  intros Hrel. induction files as [| f files IH]; [reflexivity |]. simpl.
  destruct (String.eqb_spec f rel) as [-> | Hne]; simpl.
  - rewrite IH. rewrite (filter_cons _ rel), decide_False; [reflexivity |].
    now rewrite Hrel.
  - rewrite !filter_cons, IH. reflexivity.
Qed.

Lemma found_without patterns ignore rel files :
  Glob.selected patterns ignore rel = false ->
  Glob.found patterns ignore (List.filter (fun f => negb (String.eqb f rel)) files)
  = Glob.found patterns ignore files.
Proof.
  intros H. unfold Glob.found.
  now rewrite (filter_without (Glob.selected patterns ignore)).
Qed.

Lemma glob_without w rel patterns ignore :
  Glob.selected patterns ignore rel = false ->
  glob (without rel w) patterns ignore = glob w patterns ignore.
Proof.
  intros H. unfold glob. simpl. now rewrite found_without.
Qed.

Lemma selected_by_extname k ignore rel :
  ~ In (Path.extname rel) (kind_exts k) ->
  Glob.selected (kind_patterns k) ignore rel = false.
Proof.
  intros Hn. destruct (Glob.selected (kind_patterns k) ignore rel) eqn:E; [| reflexivity].
  exfalso. apply Hn. now apply (selected_extname k ignore rel "").
Qed.

Lemma unsupported_no_kind rel k : unsupported rel -> ~ In (Path.extname rel) (kind_exts k).
Proof.
  intros [Himg Hother] Hin. destruct k; simpl in Hin.
  - apply supported_lower in Hin as [Hlow Hsup]. rewrite Hlow in Himg. congruence.
  - apply Hother. simpl. tauto.
  - apply Hother. simpl. tauto.
  - apply Hother. simpl. tauto.
Qed.

Lemma processAssets_without w rel :
  unsupported rel -> processAssets (without rel w) = processAssets w.
Proof.
  intros Hu. unfold processAssets.
  rewrite (glob_without w rel imagePatterns default_ignore)
    by apply (selected_by_extname KImage), unsupported_no_kind, Hu.
  rewrite (glob_without w rel ["**/*.css"] default_ignore)
    by apply (selected_by_extname KCss), unsupported_no_kind, Hu.
  rewrite (glob_without w rel ["**/*.js"] js_ignore)
    by apply (selected_by_extname KJs), unsupported_no_kind, Hu.
  rewrite (glob_without w rel ["**/*.html"] default_ignore)
    by apply (selected_by_extname KHtml), unsupported_no_kind, Hu.
  reflexivity.
Qed.

(** Called on a path whose extension is not supported, the image
    transformer logs the warning and returns no record. *)
Lemma optimizeImage_unsupported w p d st :
  SUPPORTED_IMAGE_FORMATS_has (Str.toLowerCase (Path.extname p)) = false ->
  optimizeImage w p d st = (Ok [], logged (unsupported_warning p) st).
Proof. intros H. unfold optimizeImage. rewrite H. reflexivity. Qed.

(** ** Where the warning can come from *)

Lemma lo_silent {A} P (m : M A) :
  (forall st, log (snd (m st)) = log st) -> logs_only P m.
Proof. intros H st. exists []. rewrite app_nil_r. split; [apply H | constructor]. Qed.

Lemma lo_ret {A} P (x : A) : logs_only P (ret x).
Proof. now apply lo_silent. Qed.

Lemma lo_throw {A} P e : logs_only P (@throw A e).
Proof. now apply lo_silent. Qed.

Lemma lo_await {A} P (r : result A) : logs_only P (await r).
Proof. now apply lo_silent. Qed.

Lemma lo_log (P : LogEntry -> Prop) e : P e -> logs_only P (add_log e).
Proof. intros He st. exists [e]. split; [reflexivity | now constructor]. Qed.

Lemma lo_bind_ok {A B} P (m : M A) (k : A -> M B) :
  logs_only P m ->
  (forall a st s, m st = (Ok a, s) -> logs_only P (k a)) ->
  logs_only P (bind m k).
Proof.
  intros Hm Hk st. destruct (Hm st) as (l1 & E1 & F1). unfold bind.
  destruct (m st) as [[a | e] s] eqn:E; simpl in E1.
  - destruct (Hk a st s E s) as (l2 & E2 & F2). exists (l1 ++ l2).
    rewrite E2, E1, <- app_assoc. split; [reflexivity |].
    apply Forall_app. now split.
  - exists l1. now split.
Qed.

Lemma lo_bind {A B} P (m : M A) (k : A -> M B) :
  logs_only P m -> (forall a, logs_only P (k a)) -> logs_only P (bind m k).
Proof. intros Hm Hk. apply lo_bind_ok; auto. Qed.

Lemma lo_try {A} P (m : M A) (h : Exc -> M A) :
  logs_only P m -> (forall e, logs_only P (h e)) -> logs_only P (try_catch m h).
Proof.
  intros Hm Hh st. destruct (Hm st) as (l1 & E1 & F1). unfold try_catch.
  destruct (m st) as [[a | e] s]; simpl in E1.
  - exists l1. now split.
  - destruct (Hh e s) as (l2 & E2 & F2). exists (l1 ++ l2).
    rewrite E2, E1, <- app_assoc. split; [reflexivity |].
    apply Forall_app. now split.
Qed.

Lemma lo_writeFile P w p b : logs_only P (writeFile w p b).
Proof.
  apply lo_silent. intros st. unfold writeFile. now destruct (fs_writeFile w p).
Qed.

Lemma lo_copy P w s d : logs_only P (copy w s d).
Proof. apply lo_silent. intros st. unfold copy. now destruct (fs_copyFile w s d). Qed.

Lemma lo_stat P w p : logs_only P (stat w p).
Proof.
  apply lo_silent. intros st. unfold stat. destruct (fs_stat w p); [| reflexivity].
  now destruct (fs_files st !! p).
Qed.

Lemma lo_glob P w pats ign : logs_only P (glob w pats ign).
Proof. apply lo_silent. intros st. unfold glob. now destruct (glob_error w pats). Qed.

Lemma lo_sharp_pipeline P w p md tw o out : logs_only P (sharp_pipeline w p md tw o out).
Proof.
  unfold sharp_pipeline. destruct tw as [tw |]; [| apply lo_throw].
  destruct (tw <=? 0); [apply lo_throw |].
  apply lo_bind; [apply lo_await | intros; apply lo_ret].
Qed.

Lemma lo_ensureDirectory w d : logs_only other_line (ensureDirectory w d).
Proof.
  unfold ensureDirectory. apply lo_bind; [now apply lo_silent | intros ok].
  destruct ok; [apply lo_ret |].
  apply lo_bind.
  - apply lo_silent. intros st. unfold mkdir. now destruct (fs_mkdir w d).
  - intros _. apply lo_log. discriminate.
Qed.

Lemma lo_for_of {A R} P (body : R -> A -> M R) (xs : list A) :
  (forall r x, In x xs -> logs_only P (body r x)) ->
  forall r, logs_only P (for_of body xs r).
Proof.
  induction xs as [| x xs IH]; intros Hb r; simpl.
  - apply lo_ret.
  - apply lo_bind; [apply Hb; now left |].
    intros r'. apply IH. intros r0 y Hy. apply Hb. now right.
Qed.

Ltac lo_step :=
  first [ apply lo_ret | apply lo_throw | apply lo_await
        | apply lo_log; discriminate
        | apply lo_ensureDirectory | apply lo_writeFile | apply lo_copy
        | apply lo_stat | apply lo_sharp_pipeline | apply lo_glob
        | apply lo_bind; [| intros ?]
        | apply lo_try; [| intros ?] ].

Ltac lo := unfold logger.info, logger.warn, logger.error; repeat lo_step.

(** On a supported extension the image transformer never logs the
    warning, whether it succeeds or fails. *)
Lemma lo_optimizeImage w p d :
  SUPPORTED_IMAGE_FORMATS_has (Str.toLowerCase (Path.extname p)) = true ->
  logs_only other_line (optimizeImage w p d).
Proof.
  intros Hsup. unfold optimizeImage. cbv zeta. rewrite Hsup. cbn [negb].
  apply lo_try; [| intros; apply lo_throw].
  apply lo_bind; [apply lo_ensureDirectory | intros _].
  destruct (String.eqb _ ".svg"); [lo |].
  lo. destruct (_ || _)%bool; [| destruct (String.eqb _ ".png")]; lo.
Qed.

Lemma lo_optimizeCSS w p o : logs_only other_line (optimizeCSS w p o).
Proof. unfold optimizeCSS. cbv zeta. lo. destruct (res_map _); lo. Qed.

Lemma lo_optimizeJS w p o : logs_only other_line (optimizeJS w p o).
Proof.
  unfold optimizeJS. cbv zeta. lo. destruct (negb _); lo. destruct (truthy _); lo.
Qed.

Lemma lo_copyFile w s d : logs_only other_line (copyFile w s d).
Proof. unfold copyFile. lo. Qed.

(** The files discovery hands to the image transformer have a supported
    extension. *)
Lemma discovered_supported w p :
  In p (discovered w KImage) ->
  SUPPORTED_IMAGE_FORMATS_has (Str.toLowerCase (Path.extname p)) = true.
Proof.
  intros H. apply discovered_extname in H. simpl kind_exts in H.
  apply supported_lower in H as [Hlow Hsup]. now rewrite Hlow.
Qed.

Lemma lo_iter w k results p :
  In p (discovered w k) -> logs_only other_line (iter w k results p).
Proof.
  intros Hp.
  destruct k; simpl iter; unfold image_iter, css_iter, js_iter, html_iter; cbv zeta;
    (apply lo_try; [| intros; lo]);
    (apply lo_bind; [| intros; apply lo_ret]).
  - apply lo_optimizeImage. now apply (discovered_supported w).
  - apply lo_optimizeCSS.
  - apply lo_optimizeJS.
  - apply lo_copyFile.
Qed.

Lemma lo_glob_found w pats ign st files st' :
  glob w pats ign st = (Ok files, st') ->
  files = map (Glob.absolute (SOURCE_DIR w)) (Glob.found pats ign (tree w)).
Proof.
  rewrite glob_spec. destruct (glob_error w pats); [discriminate |].
  intros H. now injection H as <- _.
Qed.

(** No run logs the warning: the image loop only sees files with a
    supported extension. *)
Lemma lo_processAssets w : logs_only other_line (processAssets w).
Proof.
  unfold processAssets. cbv zeta.
  apply lo_try; [| intros; lo].
  apply lo_bind; [lo | intros _].
  apply lo_bind; [lo | intros _].
  apply lo_bind_ok; [lo | intros f1 s0 s1 H1]. apply lo_glob_found in H1. subst f1.
  apply lo_bind; [lo | intros _].
  apply lo_bind; [apply (lo_for_of _ (iter w KImage)); intros; now apply lo_iter | intros r1].
  apply lo_bind_ok; [lo | intros f2 s2 s3 H2]. apply lo_glob_found in H2. subst f2.
  apply lo_bind; [lo | intros _].
  apply lo_bind; [apply (lo_for_of _ (iter w KCss)); intros; now apply lo_iter | intros r2].
  apply lo_bind_ok; [lo | intros f3 s4 s5 H3]. apply lo_glob_found in H3. subst f3.
  apply lo_bind; [lo | intros _].
  apply lo_bind; [apply (lo_for_of _ (iter w KJs)); intros; now apply lo_iter | intros r3].
  apply lo_bind_ok; [lo | intros f4 s6 s7 H4]. apply lo_glob_found in H4. subst f4.
  apply lo_bind; [lo | intros _].
  apply lo_bind; [apply (lo_for_of _ (iter w KHtml)); intros; now apply lo_iter | intros r4].
  apply lo_bind; [lo | intros _].
  apply lo_bind; [destruct (0 <? _); lo | intros _].
  apply lo_ret.
Qed.

Lemma lo_main w st :
  exists added, log (snd (main w st)) = log st ++ added /\ Forall other_line added.
Proof.
  unfold main.
  match goal with
  | |- context [match ?body st with _ => _ end] =>
      assert (Hb : logs_only other_line body)
        by (apply lo_bind; [lo | intros _];
            apply lo_bind; [apply lo_processAssets | intros r]; lo);
      destruct (Hb st) as (l1 & E1 & F1); destruct (body st) as [[c | e] s]
  end; simpl in E1.
  - exists l1. now split.
  - exists (l1 ++ [mkLog ERROR "Build optimization failed with fatal error"
                     [("error", JStr (exc_message e))]]).
    simpl. rewrite E1, <- app_assoc. split; [reflexivity |].
    apply Forall_app. split; [exact F1 |]. constructor; [discriminate | constructor].
Qed.

(** C5, as the script has it. A source file with an unsupported
    extension is matched by none of the discovery patterns, so the run
    never sees it: the log, the results and the exit code are those of the
    run without the file.  The warning belongs to the image transformer:
    called on a path with an unsupported extension it logs one warning,
    returns no record and throws nothing.  And it is produced only there:
    on a supported extension the image transformer appends no such line,
    whether it succeeds or fails, the other transformers never do, and so
    neither [processAssets] nor [main] appends one to the log, whatever
    the tree holds. *)
Theorem unsupported_extension_not_discovered (w : World) (rel : string) :
  unsupported rel ->
  (forall k, ~ In rel (Glob.found (kind_patterns k) (kind_ignore k) (tree w)))
  /\ (forall k, ~ In (Glob.absolute (SOURCE_DIR w) rel) (discovered w k))
  /\ (forall st, processAssets (without rel w) st = processAssets w st)
  /\ (forall st, main (without rel w) st = main w st)
  /\ (forall p d st,
        SUPPORTED_IMAGE_FORMATS_has (Str.toLowerCase (Path.extname p)) = false ->
        optimizeImage w p d st = (Ok [], logged (unsupported_warning p) st))
  /\ (forall p d,
        SUPPORTED_IMAGE_FORMATS_has (Str.toLowerCase (Path.extname p)) = true ->
        logs_only other_line (optimizeImage w p d))
  /\ (forall p o,
        logs_only other_line (optimizeCSS w p o)
        /\ logs_only other_line (optimizeJS w p o)
        /\ logs_only other_line (copyFile w p o))
  /\ logs_only other_line (processAssets w)
  /\ (forall st, exists added,
        log (snd (main w st)) = log st ++ added /\ Forall other_line added).
Proof.
  intros Hu.
  assert (Hnot : forall k, ~ In rel (Glob.found (kind_patterns k) (kind_ignore k) (tree w))).
  { intros k Hin. apply found_In in Hin as [_ Hsel].
    rewrite (selected_by_extname k) in Hsel; [discriminate |].
    now apply unsupported_no_kind. }
  split; [exact Hnot |]. split; [| split; [| split; [| split]]].
  - intros k Hin. unfold discovered in Hin. apply in_map_iff in Hin as (rel' & E & Hin).
    apply absolute_inj in E. subst rel'. now apply (Hnot k).
  - intros st. now rewrite processAssets_without.
  - intros st. unfold main. now rewrite processAssets_without.
  - intros p d st. apply optimizeImage_unsupported.
  - split; [intros p d; apply lo_optimizeImage |].
    split; [| split; [apply lo_processAssets | apply lo_main]].
    intros p o. split; [apply lo_optimizeCSS |].
    split; [apply lo_optimizeJS | apply lo_copyFile].
Qed.

(** ** Counts of the summary *)

Lemma summary_count_assets k r :
  summary_count k (summary r) = Some (count (assets k r)).
Proof. destruct k; unfold count; simpl; now rewrite length_map. Qed.

Lemma length_flat_map_bounds {A B} (f : A -> list B) (g : A -> bool) (lo hi : nat) l :
  (forall a, In a l -> g a = true -> (lo <= length (f a) <= hi)%nat) ->
  (forall a, In a l -> g a = false -> f a = []) ->
  (lo * length (List.filter g l) <= length (flat_map f l)
   <= hi * length (List.filter g l))%nat.
Proof.
  induction l as [| a l IH]; intros Ht Hf; simpl; [lia |].
  rewrite length_app.
  assert (IH' := IH (fun x H => Ht x (or_intror H)) (fun x H => Hf x (or_intror H))).
  destruct (g a) eqn:Hg.
  - specialize (Ht a (or_introl eq_refl) Hg). simpl. lia.
  - rewrite (Hf a (or_introl eq_refl) Hg). simpl. lia.
Qed.

Lemma filter_partition_length {A} (g : A -> bool) l :
  (length (List.filter g l) + length (List.filter (fun a => negb (g a)) l))%nat = length l.
Proof.
  induction l as [| a l IH]; simpl; [reflexivity |].
  destruct (g a); simpl; lia.
Qed.

Lemma filter_single {A} (g : A -> bool) l a0 :
  List.NoDup l -> In a0 l -> g a0 = true ->
  (forall a, In a l -> g a = true -> a = a0) ->
  length (List.filter g l) = 1%nat.
Proof.
  induction l as [| a l IH]; simpl; [tauto |].
  intros Hnd Hin Hg Huniq. inversion Hnd as [| ? ? Ha Hnd']; subst.
  destruct Hin as [-> | Hin].
  - rewrite Hg. simpl. f_equal.
    assert (Hnone : forall x, In x l -> g x = false).
    { intros x Hx. destruct (g x) eqn:E; [| reflexivity].
      rewrite (Huniq x (or_intror Hx) E) in Hx. contradiction. }
    clear -Hnone. induction l as [| x l IH]; [reflexivity |]. simpl.
    rewrite (Hnone x (or_introl eq_refl)). apply IH. intros y Hy. apply Hnone. now right.
  - destruct (g a) eqn:E.
    + rewrite (Huniq a (or_introl eq_refl) E) in Ha. contradiction.
    + apply IH; auto.
Qed.

Lemma NoDup_of_map {A B} (f : A -> B) l : List.NoDup (map f l) -> List.NoDup l.
Proof.
  induction l as [| a l IH]; simpl; intros H; [constructor |].
  inversion H as [| ? ? Ha Hnd]; subst. constructor; [| now apply IH].
  intros Hin. apply Ha. now apply in_map.
Qed.

Lemma kind_attempts_NoDup w k st : List.NoDup (kind_attempts w k st).
Proof.
  apply (NoDup_of_map at_path). unfold kind_attempts.
  rewrite attempts_paths. apply discovered_NoDup.
Qed.

Lemma kind_attempts_length w k st :
  length (kind_attempts w k st) = length (discovered w k).
Proof.
  unfold kind_attempts.
  now rewrite <- (length_map at_path), attempts_paths.
Qed.

(** The records of one call of a run: none if it failed, otherwise one
    for a stylesheet, script or page and one or two for an image. *)
Lemma produced_bounds w k st a :
  In a (kind_attempts w k st) ->
  (failed a = true -> produced a = [])
  /\ (succeeded a = true ->
      (1 <= length (produced a) <= match k with KImage => 2 | _ => 1 end)%nat).
Proof.
  intros Ha. pose proof (kind_attempts_In _ _ _ _ Ha) as [Hk Hp].
  destruct (attempts_called _ _ _ _ _ Ha) as [s Hs].
  unfold failed, succeeded, produced.
  destruct (at_result a) as [l | e]; simpl; split; try discriminate; try reflexivity.
  intros _. symmetry in Hs.
  pose proof (transform_ok_nonempty _ _ _ _ _ Hp Hs) as Hne.
  assert (Hpos : (1 <= length l)%nat) by (destruct l; [congruence | simpl; lia]).
  split; [exact Hpos |].
  destruct k.
  - simpl in Hs. unfold_m.
    destruct (optimizeImage _ _ _ s) as [[recs | e] s'] eqn:Ho; simpl in Hs; [| discriminate].
    injection Hs as <-. rewrite length_map. now apply optimizeImage_at_most_two in Ho.
  - apply transform_single in Hs; [lia | discriminate].
  - apply transform_single in Hs; [lia | discriminate].
  - apply transform_single in Hs; [lia | discriminate].
Qed.

(** C6, as the script has it. In a run that returns and in which exactly
    one of the [N] files of a kind fails, each of the other files of the
    kind returns records, all of which are in the results, and the exit
    code is 1.  The summary counts records, not files: for stylesheets,
    scripts and pages, which yield one record each, the count is [N - 1];
    for images it is the number of renditions written, between [N - 1] and
    [2 * (N - 1)]. *)
Theorem one_failure_among_n (w : World) (st0 : St) (r : Results) (k : Kind)
    (a0 : Attempt) :
  fst (processAssets w (main_start st0)) = Ok r ->
  In a0 (kind_attempts w k (main_start st0)) ->
  failed a0 = true ->
  (forall a, In a (kind_attempts w k (main_start st0)) -> failed a = true -> a = a0) ->
  let N := Z.of_nat (length (discovered w k)) in
  (forall a, In a (kind_attempts w k (main_start st0)) -> a <> a0 ->
     exists x l, at_result a = Ok (x :: l) /\ incl (x :: l) (assets k r))
  /\ fst (main w st0) = 1
  /\ (exists c, summary_count k (summary r) = Some c
                /\ c = count (flat_map produced (kind_attempts w k (main_start st0)))
                /\ N - 1 <= c <= 2 * (N - 1)
                /\ (k <> KImage -> c = N - 1)).
Proof.
  intros Hrun Ha0 Hfail Huniq N.
  pose proof Hrun as Hr. apply setup_of_run in Hr as [_ Hr].
  set (tr := kind_attempts w k (main_start st0)) in *.
  split; [| split].
  - intros a Ha Hne.
    destruct (at_result a) as [l | e] eqn:Hres.
    + destruct (produced_bounds w k _ a Ha) as [_ Hb].
      unfold succeeded, produced in Hb. rewrite Hres in Hb. specialize (Hb eq_refl).
      destruct l as [| x l]; [simpl in Hb; lia |].
      exists x, l. split; [reflexivity |]. rewrite Hr, final_assets.
      intros y Hy. apply in_flat_map. exists a. split; [exact Ha |].
      unfold produced. now rewrite Hres.
    + exfalso. apply Hne, Huniq; [exact Ha |]. unfold failed, succeeded. now rewrite Hres.
  - rewrite main_exit_code, Hrun. rewrite Hr, final_errors.
    assert (Hin : In a0 (run_attempts w (main_start st0))).
    { apply run_attempts_In. destruct (kind_attempts_In _ _ _ _ Ha0) as [-> _]. exact Ha0. }
    unfold failed, succeeded in Hfail.
    destruct (at_result a0) as [l | e] eqn:Hres; [discriminate |].
    assert (He : In (mkError (kind_type (at_kind a0)) (at_path a0) (exc_message e))
                    (flat_map error_of (run_attempts w (main_start st0)))).
    { apply in_flat_map. exists a0. split; [exact Hin |].
      unfold error_of. rewrite Hres. now left. }
    unfold count. destruct (flat_map error_of _); [destruct He | reflexivity].
  - exists (count (assets k r)). split; [apply summary_count_assets |].
    rewrite Hr, final_assets. fold tr. split; [reflexivity |].
    assert (Hone : length (List.filter failed tr) = 1%nat).
    { apply (filter_single failed tr a0); auto. apply kind_attempts_NoDup. }
    pose proof (filter_partition_length succeeded tr) as Hpart.
    change (fun a => negb (succeeded a)) with failed in Hpart.
    assert (Hlen : length tr = length (discovered w k)) by apply kind_attempts_length.
    assert (Hsucc : Z.of_nat (length (List.filter succeeded tr)) = N - 1) by (subst N; lia).
    unfold count. split.
    + pose proof (length_flat_map_bounds produced succeeded 1 2 tr) as Hb.
      destruct Hb as [Hlo Hhi].
      * intros a Ha Hs. destruct (produced_bounds w k _ a Ha) as [_ Hb].
        specialize (Hb Hs). destruct k; lia.
      * intros a Ha Hs. destruct (produced_bounds w k _ a Ha) as [Hb _].
        apply Hb. unfold failed. now rewrite Hs.
      * lia.
    + intros Hk.
      pose proof (length_flat_map_bounds produced succeeded 1 1 tr) as Hb.
      destruct Hb as [Hlo Hhi].
      * intros a Ha Hs. destruct (produced_bounds w k _ a Ha) as [_ Hb].
        specialize (Hb Hs). destruct k; [congruence | lia | lia | lia].
      * intros a Ha Hs. destruct (produced_bounds w k _ a Ha) as [Hb _].
        apply Hb. unfold failed. now rewrite Hs.
      * lia.
Qed.

(** * Sample runs *)

Lemma pair_of_fst {A B} (x : A * B) (a : A) : fst x = a -> x = (a, snd x).
Proof. destruct x. simpl. now intros ->. Qed.

Lemma site_run : fst (processAssets site (main_start fresh)) = Ok site_results.
Proof. vm_compute. reflexivity. Qed.

Example site_run_shape :
  map (fun a => (at_path a, succeeded a)) (run_attempts site (main_start fresh))
  = [ ("/repo/images/hero.jpg", true); ("/repo/images/broken.png", false);
      ("/repo/images/banner.webp", true); ("/repo/logo.svg", true);
      ("/repo/styles/main.css", true);
      ("/repo/js/app.js", true); ("/repo/js/empty.js", false);
      ("/repo/index.html", true) ]
  /\ map img_path (images site_results)
     = [ "/repo/dist/images/hero.webp"; "/repo/dist/images/hero.jpg";
         "/repo/dist/images/banner.webp"; "/repo/dist/logo.svg" ]
  /\ map err_path (errors site_results)
     = [ "/repo/images/broken.png"; "/repo/js/empty.js" ]
  /\ fst (main site fresh) = 1
  /\ fst (main quiet_site fresh) = 0.
Proof. vm_compute. repeat split; reflexivity. Qed.

Lemma failure_isolation_witness :
  fst (processAssets site (main_start fresh)) = Ok site_results
  /\ (forall k, map at_path (kind_attempts site k (main_start fresh)) = discovered site k)
  /\ (forall k, assets k site_results
                = flat_map produced (kind_attempts site k (main_start fresh)))
  /\ errors site_results = flat_map error_of (run_attempts site (main_start fresh))
  /\ (forall a e, In a (run_attempts site (main_start fresh)) -> at_result a = Err e ->
        errors_for (at_path a) (errors site_results)
        = [mkError (kind_type (at_kind a)) (at_path a) (exc_message e)]).
Proof.
  assert (H : fst (processAssets site (main_start fresh)) = Ok site_results)
    by (vm_compute; reflexivity).
  split; [exact H |].
  exact (failure_isolation site (main_start fresh) site_results H).
Defined.

Lemma every_file_accounted_witness :
  fst (processAssets site (main_start fresh)) = Ok site_results
  /\ In "/repo/images/broken.png" (discovered site KImage)
  /\ exists a,
       In a (kind_attempts site KImage (main_start fresh))
       /\ at_kind a = KImage /\ at_path a = "/repo/images/broken.png"
       /\ (forall a', In a' (run_attempts site (main_start fresh)) ->
             at_path a' = "/repo/images/broken.png" -> a' = a)
       /\ match at_result a with
          | Ok (x :: l) =>
              incl (x :: l) (assets KImage site_results)
              /\ errors_for "/repo/images/broken.png" (errors site_results) = []
          | Ok [] =>
              In (unsupported_warning "/repo/images/broken.png")
                 (log (final_state site (main_start fresh)))
              /\ errors_for "/repo/images/broken.png" (errors site_results) = []
          | Err e =>
              errors_for "/repo/images/broken.png" (errors site_results)
              = [mkError (kind_type KImage) "/repo/images/broken.png" (exc_message e)]
          end.
Proof.
  assert (H : fst (processAssets site (main_start fresh)) = Ok site_results)
    by (vm_compute; reflexivity).
  assert (Hd : In "/repo/images/broken.png" (discovered site KImage))
    by (vm_compute; right; left; reflexivity).
  split; [exact H |]. split; [exact Hd |].
  exact (every_file_accounted site (main_start fresh) site_results H
           KImage "/repo/images/broken.png" Hd).
Defined.

Lemma webp_width_clamped_witness :
  In (Str.toLowerCase (Path.extname hero)) [".jpg"; ".jpeg"; ".png"]
  /\ fst (optimizeImage site hero hero_dir fresh) = Ok hero_records
  /\ exists n width len,
       sharp_metadata site hero = Ok (mkMetadata (Some n))
       /\ In (mkImage (rendition_path hero hero_dir ".webp") "webp" len) hero_records
       /\ fs_files (snd (optimizeImage site hero hero_dir fresh))
            !! rendition_path hero hero_dir ".webp"
          = Some (Raster "webp" width len)
       /\ width <= Z.min n CONFIG.MAX_IMAGE_WIDTH
       /\ width <= n.
Proof.
  assert (H1 : In (Str.toLowerCase (Path.extname hero)) [".jpg"; ".jpeg"; ".png"])
    by (vm_compute; left; reflexivity).
  assert (H2 : fst (optimizeImage site hero hero_dir fresh) = Ok hero_records)
    by (vm_compute; reflexivity).
  split; [exact H1 |]. split; [exact H2 |].
  exact (webp_width_clamped site hero hero_dir fresh
           (snd (optimizeImage site hero hero_dir fresh)) hero_records H1
           (pair_of_fst _ _ H2)).
Defined.

Lemma webp_source_single_rendition_witness :
  In "images/banner.webp" (tree site)
  /\ Path.extname "images/banner.webp" = ".webp"
  /\ visible "images/banner.webp" = true
  /\ ignored default_ignore "images/banner.webp" = false
  /\ In banner (discovered site KImage)
  /\ fst (optimizeImage site banner hero_dir fresh) = Ok banner_records
  /\ exists n len,
       sharp_metadata site banner = Ok (mkMetadata (Some n))
       /\ 0 < Z.min n CONFIG.MAX_IMAGE_WIDTH <= n
       /\ banner_records = [mkImage (rendition_path banner hero_dir ".webp") "webp" len]
       /\ fs_files (snd (optimizeImage site banner hero_dir fresh))
          = <[rendition_path banner hero_dir ".webp" :=
                Raster "webp" (Z.min n CONFIG.MAX_IMAGE_WIDTH) len]> (fs_files fresh).
Proof.
  assert (H1 : In "images/banner.webp" (tree site))
    by (vm_compute; right; right; left; reflexivity).
  assert (H2 : Path.extname "images/banner.webp" = ".webp") by (vm_compute; reflexivity).
  assert (H3 : visible "images/banner.webp" = true) by (vm_compute; reflexivity).
  assert (H4 : ignored default_ignore "images/banner.webp" = false)
    by (vm_compute; reflexivity).
  pose proof (webp_source_single_rendition site "images/banner.webp" H1 H2 H3 H4) as T.
  cbv zeta in T.
  change (Glob.absolute (SOURCE_DIR site) "images/banner.webp") with banner in T.
  destruct T as (Hd & _ & Hinv & Hfwd).
  assert (Hrun : fst (optimizeImage site banner hero_dir fresh) = Ok banner_records).
  { exact (Hfwd hero_dir fresh (snd (ensureDirectory site hero_dir fresh)) 3000 19200
             (pair_of_fst _ _ ltac:(vm_compute; reflexivity))
             ltac:(vm_compute; reflexivity) ltac:(lia)
             ltac:(vm_compute; reflexivity) ltac:(vm_compute; reflexivity)). }
  split; [exact H1 |]. split; [exact H2 |]. split; [exact H3 |]. split; [exact H4 |].
  split; [exact Hd |]. split; [exact Hrun |].
  exact (Hinv hero_dir fresh banner_records _ (pair_of_fst _ _ Hrun)).
Defined.

(** Against C10 as stated: a [.webp] file whose name starts with a dot
    lies in the source tree, below no ignored directory, and discovery
    does not yield it: the run over the tree that holds it makes one call,
    for the banner, and records one image. *)
Lemma hidden_webp_is_not_discovered :
  In thumbnail (tree thumbnail_site)
  /\ Path.extname thumbnail = ".webp"
  /\ ignored default_ignore thumbnail = false
  /\ discovered thumbnail_site KImage = [banner]
  /\ ~ In (Glob.absolute (SOURCE_DIR thumbnail_site) thumbnail)
          (discovered thumbnail_site KImage)
  /\ map at_path (run_attempts thumbnail_site (main_start fresh)) = [banner]
  /\ images (final_results thumbnail_site (main_start fresh)) = banner_records
  /\ fst (main thumbnail_site fresh) = 0.
Proof.
  vm_compute. repeat split; try reflexivity; try (left; reflexivity).
  intros [E | []]. discriminate E.
Qed.


Lemma site_minifier_honours_options :
  minifier_honours_options site_has_debugger site_console_calls site.
Proof.
  intros code o r out Hm Hout. simpl in Hm. unfold site_minify in Hm.
  injection Hm as <-. simpl in Hout. injection Hout as <-.
  unfold site_has_debugger, site_console_calls.
  destruct (drop_debugger (compress o)); simpl;
    destruct (String.eqb_spec code "debugger;console.log(1)") as [-> | Hne];
    simpl; split; intros H; try discriminate H; try reflexivity;
    apply String.eqb_neq in Hne; rewrite ?Hne; reflexivity.
Defined.

Lemma js_debugger_removed_console_kept_witness :
  fst (optimizeJS site app_js (mirror_path site app_js) fresh) = Ok app_js_record
  /\ exists out,
       fs_files (snd (optimizeJS site app_js (mirror_path site app_js) fresh))
         !! mirror_path site app_js = Some (Bytes out)
       /\ site_has_debugger out = false
       /\ site_console_calls out = site_console_calls "debugger;console.log(1)".
Proof.
  assert (H : fst (optimizeJS site app_js (mirror_path site app_js) fresh)
              = Ok app_js_record) by (vm_compute; reflexivity).
  split; [exact H |].
  exact (js_debugger_removed_console_kept site_has_debugger site_console_calls site
           app_js (mirror_path site app_js) "debugger;console.log(1)" fresh
           (snd (optimizeJS site app_js (mirror_path site app_js) fresh))
           app_js_record site_minifier_honours_options
           ltac:(vm_compute; reflexivity) (pair_of_fst _ _ H)).
Defined.

Lemma site_svgo_honours_plugins : svgo_honours_plugins site_viewBox site.
Proof. intros plugins src out _ H. simpl in H. now injection H as <-. Defined.

Lemma svg_viewBox_preserved_witness :
  fst (optimizeImage site logo "/repo/dist" fresh) = Ok logo_records
  /\ site_viewBox "<svg viewBox='0 0 10 10'></svg>" = Some "0 0 10 10"
  /\ exists out,
       fs_files (snd (optimizeImage site logo "/repo/dist" fresh))
         !! rendition_path logo "/repo/dist" ".svg" = Some (Bytes out)
       /\ forall v, site_viewBox "<svg viewBox='0 0 10 10'></svg>" = Some v ->
                    site_viewBox out = Some v.
Proof.
  assert (H : fst (optimizeImage site logo "/repo/dist" fresh) = Ok logo_records)
    by (vm_compute; reflexivity).
  split; [exact H |]. split; [vm_compute; reflexivity |].
  exact (svg_viewBox_preserved site_viewBox site logo "/repo/dist"
           "<svg viewBox='0 0 10 10'></svg>" fresh
           (snd (optimizeImage site logo "/repo/dist" fresh)) logo_records
           site_svgo_honours_plugins
           ltac:(vm_compute; reflexivity) ltac:(vm_compute; reflexivity)
           (pair_of_fst _ _ H)).
Defined.

(** Against C5 as stated: the bitmap of the sample tree has an
    unsupported extension, and the run over the tree that holds it logs
    no warning at all. *)
Lemma unsupported_extension_gets_no_warning :
  In bitmap (tree quiet_site)
  /\ SUPPORTED_IMAGE_FORMATS_has (Str.toLowerCase (Path.extname bitmap)) = false
  /\ List.filter is_warning (log (snd (main quiet_site fresh))) = []
  /\ ~ In (unsupported_warning (Glob.absolute (SOURCE_DIR quiet_site) bitmap))
          (log (snd (main quiet_site fresh))).
Proof.
  assert (Hlog : List.filter is_warning (log (snd (main quiet_site fresh))) = [])
    by (vm_compute; reflexivity).
  split; [vm_compute; left; reflexivity |].
  split; [vm_compute; reflexivity |].
  split; [exact Hlog |].
  intros Hin.
  assert (Hw : In (unsupported_warning (Glob.absolute (SOURCE_DIR quiet_site) bitmap))
                  (List.filter is_warning (log (snd (main quiet_site fresh))))).
  { apply filter_In. split; [exact Hin | reflexivity]. }
  rewrite Hlog in Hw. destruct Hw.
Qed.

Lemma unsupported_extension_not_discovered_witness :
  unsupported bitmap
  /\ (forall k, ~ In bitmap (Glob.found (kind_patterns k) (kind_ignore k) (tree site)))
  /\ (forall k, ~ In (Glob.absolute (SOURCE_DIR site) bitmap) (discovered site k))
  /\ (forall st, processAssets (without bitmap site) st = processAssets site st)
  /\ (forall st, main (without bitmap site) st = main site st)
  /\ (forall p d st,
        SUPPORTED_IMAGE_FORMATS_has (Str.toLowerCase (Path.extname p)) = false ->
        optimizeImage site p d st = (Ok [], logged (unsupported_warning p) st))
  /\ (forall p d,
        SUPPORTED_IMAGE_FORMATS_has (Str.toLowerCase (Path.extname p)) = true ->
        logs_only other_line (optimizeImage site p d))
  /\ (forall p o,
        logs_only other_line (optimizeCSS site p o)
        /\ logs_only other_line (optimizeJS site p o)
        /\ logs_only other_line (copyFile site p o))
  /\ logs_only other_line (processAssets site)
  /\ (forall st, exists added,
        log (snd (main site st)) = log st ++ added /\ Forall other_line added).
Proof.
  assert (H : unsupported bitmap).
  { split; [vm_compute; reflexivity |].
    vm_compute. intros [E | [E | [E | []]]]; discriminate E. }
  split; [exact H |].
  exact (unsupported_extension_not_discovered site bitmap H).
Defined.

Lemma one_failure_among_n_witness :
  fst (processAssets site (main_start fresh)) = Ok site_results
  /\ In empty_js_attempt (kind_attempts site KJs (main_start fresh))
  /\ length (discovered site KJs) = 2%nat
  /\ (forall a, In a (kind_attempts site KJs (main_start fresh)) -> a <> empty_js_attempt ->
        exists x l, at_result a = Ok (x :: l) /\ incl (x :: l) (assets KJs site_results))
  /\ fst (main site fresh) = 1
  /\ (exists c, summary_count KJs (summary site_results) = Some c
                /\ c = count (flat_map produced (kind_attempts site KJs (main_start fresh)))
                /\ Z.of_nat (length (discovered site KJs)) - 1 <= c
                   <= 2 * (Z.of_nat (length (discovered site KJs)) - 1)
                /\ (KJs <> KImage -> c = Z.of_nat (length (discovered site KJs)) - 1)).
Proof.
  assert (H : fst (processAssets site (main_start fresh)) = Ok site_results)
    by (vm_compute; reflexivity).
  assert (Htr : kind_attempts site KJs (main_start fresh)
                = [mkAttempt KJs app_js (Ok [AFile app_js_record]); empty_js_attempt])
    by (vm_compute; reflexivity).
  assert (Hin : In empty_js_attempt (kind_attempts site KJs (main_start fresh)))
    by (rewrite Htr; right; left; reflexivity).
  assert (Huniq : forall a, In a (kind_attempts site KJs (main_start fresh)) ->
                    failed a = true -> a = empty_js_attempt).
  { intros a Ha Hf. rewrite Htr in Ha.
    destruct Ha as [<- | [<- | []]]; [discriminate Hf | reflexivity]. }
  split; [exact H |]. split; [exact Hin |]. split; [vm_compute; reflexivity |].
  exact (one_failure_among_n site fresh site_results KJs empty_js_attempt
           H Hin eq_refl Huniq).
Defined.

(** Against C6 as stated: of the four images of the sample site exactly
    one fails, and the summary counts four image records, not three. *)
Lemma image_count_is_not_files_minus_one :
  fst (processAssets site (main_start fresh)) = Ok site_results
  /\ length (discovered site KImage) = 4%nat
  /\ map succeeded (kind_attempts site KImage (main_start fresh))
     = [true; false; true; true]
  /\ fst (main site fresh) = 1
  /\ summary_count KImage (summary site_results) = Some 4
  /\ summary_count KImage (summary site_results)
     <> Some (Z.of_nat (length (discovered site KImage)) - 1).
Proof.
  vm_compute. repeat split; try reflexivity. discriminate.
Qed.

(** * Further properties *)

(** ** Directories *)

Lemma join_segments p : Str.join "/" (Path.segments p) = p.
Proof.
  induction p as [| c p IH]; [reflexivity |]. simpl.
  destruct (Ascii.eqb_spec c "/") as [-> | Hc].
  - destruct (Path.segments p) as [| seg rest] eqn:E; [now apply segments_nonnil in E |].
    change (Str.join "/" ("" :: seg :: rest)) with ("" +:+ "/" +:+ Str.join "/" (seg :: rest)).
    now rewrite IH.
  - destruct (Path.segments p) as [| seg rest] eqn:E; [now apply segments_nonnil in E |].
    destruct rest as [| seg' rest].
    + simpl in *. now rewrite IH.
    + change (Str.join "/" (String c seg :: seg' :: rest))
        with (String c seg +:+ "/" +:+ Str.join "/" (seg' :: rest)).
      change (Str.join "/" (seg :: seg' :: rest))
        with (seg +:+ "/" +:+ Str.join "/" (seg' :: rest)) in IH.
      now rewrite sapp_cons, IH.
Qed.

Lemma prefixes_whole segs : forall acc,
  segs <> [] -> In (acc ++ segs) (Path.prefixes acc segs).
Proof.
  induction segs as [| seg rest IH]; intros acc Hne; [congruence |]. simpl.
  destruct rest as [| seg' rest]; [now left |].
  right.
  replace (acc ++ seg :: seg' :: rest) with ((acc ++ [seg]) ++ seg' :: rest)
    by now rewrite <- app_assoc.
  apply IH. discriminate.
Qed.

(** A directory is among the directories [mkdir] leaves behind. *)
Lemma ancestors_self p : p <> "" -> In p (Path.ancestors p).
Proof.
  intros Hne. unfold Path.ancestors.
  apply list_elem_of_In, list_elem_of_filter. split.
  - unfold Path.nonempty. apply String.eqb_neq in Hne. now rewrite Hne.
  - apply list_elem_of_In, in_map_iff. exists (Path.segments p).
    split; [apply join_segments |].
    apply (prefixes_whole (Path.segments p) []), segments_nonnil.
Qed.

(** X1. [ensureDirectory] is idempotent: once it has succeeded for a
    directory, calling it again for that directory succeeds without
    creating or logging anything. *)
Theorem ensureDirectory_idempotent (w : World) (dirPath : string) (st st' : St) (u : unit) :
  dirPath <> "" ->
  ensureDirectory w dirPath st = (Ok u, st') ->
  ensureDirectory w dirPath st' = (Ok tt, st').
Proof.
  intros Hne H.
  assert (Hin : dirPath ∈ fs_dirs st').
  { unfold ensureDirectory, fs_access, mkdir in H. unfold_m.
    destruct (bool_decide (dirPath ∈ fs_dirs st)) eqn:Hd.
    - injection H as _ <-. now apply bool_decide_eq_true in Hd.
    - destruct (fs_mkdir w dirPath); [| discriminate].
      injection H as _ <-. simpl. apply elem_of_union. left.
      apply elem_of_list_to_set, list_elem_of_In, ancestors_self, Hne. }
  unfold ensureDirectory, fs_access. unfold_m.
  now rewrite bool_decide_eq_true_2.
Qed.

(** ** Fatal runs and the last log line *)

(** X2. When the output directory does not exist and cannot be created,
    the run stops there: [main] exits with 1, no file is written, no
    directory is created, and the log gets exactly four lines, the cause
    under [processAssets]' message and its wrapper under [main]'s. *)
Theorem main_fatal_when_build_dir_fails (w : World) (st : St) (e : Exc) :
  BUILD_DIR w ∉ fs_dirs st ->
  fs_mkdir w (BUILD_DIR w) = Err e ->
  main w st = (1, mkSt (fs_files st) (fs_dirs st) (log st ++ fatal_log w e)).
Proof.
  intros Hno Hmk. unfold main, processAssets, ensureDirectory, fs_access, mkdir.
  unfold_m. simpl. rewrite bool_decide_eq_false_2 by exact Hno.
  rewrite Hmk. simpl. unfold fatal_log. now rewrite <- !app_assoc.
Qed.

(** X3. The last log line of a run that is not fatal reports the exit
    code [main] hands to [process.exit], with [success] true exactly for
    exit code 0; nothing else happens after [processAssets] has returned. *)
Theorem main_reports_exit_code (w : World) (st : St) (r : Results) :
  fst (processAssets w (main_start st)) = Ok r ->
  snd (main w st)
  = logged (finished_entry (fst (main w st))) (final_state w (main_start st)).
Proof.
  intros Hrun. pose proof Hrun as Hr. apply setup_of_run in Hr as [Hs Hr].
  rewrite main_exit_code, Hrun. unfold main.
  rewrite (bind_ok _ _ st tt (main_start st)) by reflexivity.
  erewrite bind_ok by apply (processAssets_ok _ _ Hs). rewrite <- Hr.
  unfold finished_entry. destruct (0 <? count (errors r)); reflexivity.
Qed.

(** ** What a run records *)

Lemma other_record r a : other (record r a) = other r.
Proof. unfold record. destruct (at_result a); [destruct (at_kind a) |]; reflexivity. Qed.

(** X4. The [other] list of the results is never filled: in every run
    that returns it is empty, and so no file outside the four kinds is
    copied or counted. *)
Theorem other_is_never_filled (w : World) (st : St) (r : Results) :
  fst (processAssets w st) = Ok r -> other r = [].
Proof.
  intros Hrun. apply setup_of_run in Hrun as [_ ->]. unfold final_results.
  generalize (run_attempts w st). intros tr.
  assert (H : forall r0, other (fold_left record tr r0) = other r0).
  { induction tr as [| a tr IH]; intros r0; [reflexivity |]. simpl.
    now rewrite IH, other_record. }
  now rewrite H.
Qed.

Lemma length_errors_of tr :
  length (flat_map error_of tr) = length (List.filter failed tr).
Proof.
  induction tr as [| a tr IH]; [reflexivity |]. simpl. rewrite length_app, IH.
  unfold failed, succeeded, error_of. destruct (at_result a); reflexivity.
Qed.

Lemma kind_type_eqb k k' : String.eqb (kind_type k') (kind_type k) = kind_eqb k k'.
Proof. destruct k, k'; reflexivity. Qed.

Lemma errors_of_type_attempts k w k' files : forall st,
  errors_of_type k (flat_map error_of (attempts w k' files st))
  = if kind_eqb k k' then flat_map error_of (attempts w k' files st) else [].
Proof.
  induction files as [| p rest IH]; intros st; simpl.
  - now destruct (kind_eqb k k').
  - unfold errors_of_type in *. rewrite List.filter_app, IH.
    unfold error_of at 1 3. simpl.
    destruct (fst (transform w k' p st)); simpl.
    + reflexivity.
    + rewrite kind_type_eqb. now destruct (kind_eqb k k').
Qed.

Lemma errors_of_type_app k l1 l2 :
  errors_of_type k (l1 ++ l2) = errors_of_type k l1 ++ errors_of_type k l2.
Proof. apply List.filter_app. Qed.

Lemma errors_of_type_run k w st :
  errors_of_type k (flat_map error_of (run_attempts w st))
  = flat_map error_of (kind_attempts w k st).
Proof.
  unfold run_attempts, kind_attempts. rewrite !flat_map_app.
  rewrite !errors_of_type_app, !errors_of_type_attempts.
  destruct k; simpl; rewrite ?app_nil_r; reflexivity.
Qed.

(** X5. Accounting per kind, for any number of failures: in a run that
    returns, the error records of a kind are as many as its files whose
    transformer threw.  For stylesheets, scripts and pages every
    discovered file ends in exactly one of the two lists, so records plus
    errors give the number of files; for images each of the other files
    gives one or two records. *)
Theorem kind_accounting (w : World) (st : St) (r : Results) (k : Kind) :
  fst (processAssets w st) = Ok r ->
  let N := count (discovered w k) in
  let E := count (errors_of_type k (errors r)) in
  E = count (List.filter failed (kind_attempts w k st))
  /\ 0 <= E <= N
  /\ N - E <= count (assets k r) <= 2 * (N - E)
  /\ (k <> KImage -> count (assets k r) + E = N).
Proof.
  intros Hrun N E. apply setup_of_run in Hrun as [_ Hr].
  set (tr := kind_attempts w k st).
  assert (HE : E = count (List.filter failed tr)).
  { subst E tr. rewrite Hr, final_errors, errors_of_type_run.
    unfold count. now rewrite length_errors_of. }
  pose proof (filter_partition_length succeeded tr) as Hpart.
  change (fun a => negb (succeeded a)) with failed in Hpart.
  assert (HN : N = count tr).
  { subst N tr. unfold count. now rewrite kind_attempts_length. }
  assert (HA : count (assets k r) = count (flat_map produced tr)).
  { subst tr. now rewrite Hr, final_assets. }
  unfold count in *. split; [exact HE |]. split; [lia |]. split.
  - pose proof (length_flat_map_bounds produced succeeded 1 2 tr) as Hb.
    destruct Hb as [Hlo Hhi].
    + intros a Ha Hs. destruct (produced_bounds w k _ a Ha) as [_ Hb].
      specialize (Hb Hs). destruct k; lia.
    + intros a Ha Hs. destruct (produced_bounds w k _ a Ha) as [Hb _].
      apply Hb. unfold failed. now rewrite Hs.
    + lia.
  - intros Hk.
    pose proof (length_flat_map_bounds produced succeeded 1 1 tr) as Hb.
    destruct Hb as [Hlo Hhi].
    + intros a Ha Hs. destruct (produced_bounds w k _ a Ha) as [_ Hb].
      specialize (Hb Hs). destruct k; [congruence | lia | lia | lia].
    + intros a Ha Hs. destruct (produced_bounds w k _ a Ha) as [Hb _].
      apply Hb. unfold failed. now rewrite Hs.
    + lia.
Qed.

(** ** The errors of the transformers *)

Lemma optimizeImage_error w p d st e st' :
  optimizeImage w p d st = (Err e, st') ->
  exists cause, e = OptimizationError (failure_text w KImage p) cause.
Proof.
  unfold optimizeImage.
  destruct (SUPPORTED_IMAGE_FORMATS_has _); simpl negb; cbv iota.
  - intros H. apply try_rethrow_err in H as (cause & _ & ->). now exists cause.
  - unfold_m. discriminate.
Qed.

Lemma optimizeCSS_error w p o st e st' :
  optimizeCSS w p o st = (Err e, st') ->
  exists cause, e = OptimizationError (failure_text w KCss p) cause.
Proof.
  unfold optimizeCSS. intros H.
  apply try_rethrow_err in H as (cause & _ & ->). now exists cause.
Qed.

Lemma optimizeJS_error w p o st e st' :
  optimizeJS w p o st = (Err e, st') ->
  exists cause, e = OptimizationError (failure_text w KJs p) cause.
Proof.
  unfold optimizeJS. intros H.
  apply try_rethrow_err in H as (cause & _ & ->). now exists cause.
Qed.

Lemma copyFile_error w p o st e st' :
  copyFile w p o st = (Err e, st') ->
  exists cause, e = OptimizationError (failure_text w KHtml p) cause.
Proof.
  unfold copyFile. intros H.
  apply try_rethrow_err in H as (cause & _ & ->). now exists cause.
Qed.

(** X6. Whatever fails inside a transformer, what it throws is an
    [OptimizationError] that wraps the cause and whose message names the
    file: by its path relative to the source root for the three
    optimisers, by the path as given for the copy.  No error of a library
    or of the file system leaves a transformer unwrapped. *)
Theorem transformers_wrap_their_errors (w : World) (p o : string) (st st' : St) (e : Exc) :
  (optimizeImage w p o st = (Err e, st') ->
     exists cause, e = OptimizationError
                         ("Failed to optimize image: " +:+ Path.relative (SOURCE_DIR w) p) cause)
  /\ (optimizeCSS w p o st = (Err e, st') ->
     exists cause, e = OptimizationError
                         ("Failed to optimize CSS: " +:+ Path.relative (SOURCE_DIR w) p) cause)
  /\ (optimizeJS w p o st = (Err e, st') ->
     exists cause, e = OptimizationError
                         ("Failed to optimize JavaScript: " +:+ Path.relative (SOURCE_DIR w) p)
                         cause)
  /\ (copyFile w p o st = (Err e, st') ->
     exists cause, e = OptimizationError ("Failed to copy file: " +:+ p) cause).
Proof.
  split; [apply optimizeImage_error |].
  split; [apply optimizeCSS_error |].
  split; [apply optimizeJS_error | apply copyFile_error].
Qed.

Lemma transform_error w k p st e :
  fst (transform w k p st) = Err e -> exc_message e = failure_text w k p.
Proof.
  destruct k; simpl transform; unfold bind.
  - destruct (optimizeImage _ _ _ st) as [[x | e'] s] eqn:H; simpl; [discriminate |].
    intros E. injection E as <-. now apply optimizeImage_error in H as [c ->].
  - destruct (optimizeCSS _ _ _ st) as [[x | e'] s] eqn:H; simpl; [discriminate |].
    intros E. injection E as <-. now apply optimizeCSS_error in H as [c ->].
  - destruct (optimizeJS _ _ _ st) as [[x | e'] s] eqn:H; simpl; [discriminate |].
    intros E. injection E as <-. now apply optimizeJS_error in H as [c ->].
  - destruct (copyFile _ _ _ st) as [[x | e'] s] eqn:H; simpl; [discriminate |].
    intros E. injection E as <-. now apply copyFile_error in H as [c ->].
Qed.

(** X7. Every error record of a run that returns is about a discovered
    file: its [type] is the kind the file was discovered for, its [path]
    the absolute path of the file, and its [error] the message of the
    transformer's wrapped error, never the message of the cause. *)
Theorem error_records_name_their_file (w : World) (st : St) (r : Results)
    (x : ErrorRecord) :
  fst (processAssets w st) = Ok r ->
  In x (errors r) ->
  exists k p,
    In p (discovered w k)
    /\ x = mkError (kind_type k) p (failure_text w k p).
Proof.
  intros Hrun Hx. apply setup_of_run in Hrun as [_ ->].
  rewrite final_errors in Hx. apply in_flat_map in Hx as (a & Ha & Hx).
  apply run_attempts_In in Ha.
  destruct (kind_attempts_In _ _ _ _ Ha) as [Hk Hp].
  destruct (attempts_called _ _ _ _ _ Ha) as [s Hs].
  exists (at_kind a), (at_path a). split; [exact Hp |].
  unfold error_of in Hx. destruct (at_result a) as [l | e]; [destruct Hx |].
  destruct Hx as [<- | []]. f_equal. symmetry in Hs. now apply transform_error in Hs.
Qed.

(** ** What discovery leaves out *)

Lemma existsb_false_In {A} (f : A -> bool) l x :
  existsb f l = false -> In x l -> f x = false.
Proof.
  intros H Hin. destruct (f x) eqn:E; [| reflexivity].
  assert (existsb f l = true) by (apply existsb_exists; eauto). congruence.
Qed.

(** X8. The files a run hands to the transformers of a kind are files of
    the tree with one of the kind's extensions, none of them hidden or
    below a hidden directory, and none below [node_modules], [dist],
    [build] or [.git]; scripts below [scripts] are left out as well.  In
    particular the run never takes its own output or the build script as
    input. *)
Theorem discovery_respects_exclusions (w : World) (k : Kind) (rel : string) :
  In rel (Glob.found (kind_patterns k) (kind_ignore k) (tree w)) ->
  In rel (tree w)
  /\ visible rel = true
  /\ In (Path.extname rel) (kind_exts k)
  /\ Str.startsWith rel "node_modules/" = false
  /\ Str.startsWith rel "dist/" = false
  /\ Str.startsWith rel "build/" = false
  /\ Str.startsWith rel ".git/" = false
  /\ (k = KJs -> Str.startsWith rel "scripts/" = false).
Proof.
  intros H. apply found_In in H as [Hin Hsel].
  split; [exact Hin |].
  pose proof (selected_extname k _ rel "" Hsel) as [Hext _].
  unfold Glob.selected in Hsel. apply andb_true_iff in Hsel as [Hm Hi].
  apply negb_true_iff in Hi.
  split; [| split; [exact Hext |]].
  - rewrite kind_patterns_exts in Hm. apply existsb_exists in Hm as (pat & Hpat & Hm).
    apply in_map_iff in Hpat as (ext & <- & _). rewrite matches_unfold in Hm.
    now apply andb_true_iff in Hm as [Hv _].
  - assert (Hd : forall pat, In pat default_ignore -> Glob.ignores pat rel = false).
    { intros pat Hp. apply (existsb_false_In _ _ pat Hi).
      destruct k; simpl in *; tauto. }
    split; [apply (Hd "node_modules/**"); simpl; tauto |].
    split; [apply (Hd "dist/**"); simpl; tauto |].
    split; [apply (Hd "build/**"); simpl; tauto |].
    split; [apply (Hd ".git/**"); simpl; tauto |].
    intros ->. apply (existsb_false_In _ _ "scripts/**" Hi). simpl. tauto.
Qed.

(** ** Output names of images *)

Lemma stripSuffix_app stem suf : suf <> "" -> Str.stripSuffix (stem +:+ suf) suf = Some stem.
Proof.
  intros Hne. induction stem as [| c stem IH].
  - rewrite sapp_nil_l. destruct suf as [| a suf]; [congruence |].
    simpl. now rewrite Ascii.eqb_refl, String.eqb_refl.
  - rewrite sapp_cons.
    change (Str.stripSuffix (String c (stem +:+ suf)) suf)
      with (if String.eqb (String c (stem +:+ suf)) suf then Some ""
            else String c <$> Str.stripSuffix (stem +:+ suf) suf).
    destruct (String.eqb_spec (String c (stem +:+ suf)) suf) as [E | _].
    + apply (f_equal String.length) in E. simpl in E. rewrite sapp_length in E. lia.
    + now rewrite IH.
Qed.

Lemma basename_plain x : has_slash x = false -> x <> "" -> Path.basename x = x.
Proof.
  intros Hs Hne. unfold Path.basename. rewrite (segments_plain x Hs).
  rewrite filter_cons, decide_True; [reflexivity |].
  unfold Path.nonempty. apply String.eqb_neq in Hne. now rewrite Hne.
Qed.

(** The output name of an image is the file name without its extension. *)
Lemma image_basename_stem dir stem ext :
  In ext SUPPORTED_IMAGE_FORMATS ->
  has_slash stem = false -> stem <> "" -> Glob.hidden stem = false ->
  image_basename (dir +:+ "/" +:+ stem +:+ ext) = stem.
Proof.
  intros Hext Hs Hne Hvis.
  pose proof (kind_exts_plain KImage ext Hext) as Hplain.
  destruct (supported_lower ext Hext) as [Hlow _].
  assert (Hes : has_slash ext = false /\ ext <> "").
  { simpl in Hext. repeat (destruct Hext as [<- | Hext]; [split; [reflexivity | discriminate] |]).
    destruct Hext. }
  destruct Hes as [Hes Hen].
  assert (Hb : Path.basename (dir +:+ "/" +:+ stem +:+ ext) = stem +:+ ext).
  { assert (Hx : Path.basename (stem +:+ ext) = stem +:+ ext).
    { apply basename_plain; [now rewrite has_slash_app, Hs, Hes |].
      destruct stem; [congruence | discriminate]. }
    rewrite basename_app; [exact Hx |]. rewrite Hx. destruct stem; [congruence | discriminate]. }
  assert (He : Path.extname (dir +:+ "/" +:+ stem +:+ ext) = ext).
  { apply extname_of_suffix; [exact Hplain | |]; rewrite Hb.
    - destruct stem as [| c stem]; [congruence |]. exact Hvis.
    - apply endsWith_true. now exists stem. }
  unfold image_basename, Path.basenameExt. rewrite He, Hlow, Hb.
  apply String.eqb_neq in Hen. rewrite Hen.
  replace (String.eqb (dir +:+ "/" +:+ stem +:+ ext) ext) with false.
  2:{ symmetry. apply String.eqb_neq. intros E. apply (f_equal String.length) in E.
      rewrite !sapp_length in E. simpl in E. lia. }
  replace (String.eqb (stem +:+ ext) ext) with false.
  2:{ symmetry. apply String.eqb_neq. intros E. apply (f_equal String.length) in E.
      rewrite sapp_length in E. destruct stem; [congruence | simpl in E; lia]. }
  rewrite stripSuffix_app; [reflexivity |]. now apply String.eqb_neq.
Qed.

(** The extension of a file named [stem] plus a supported extension. *)
Lemma extname_stem dir stem ext :
  In ext SUPPORTED_IMAGE_FORMATS ->
  has_slash stem = false -> stem <> "" -> Glob.hidden stem = false ->
  Str.toLowerCase (Path.extname (dir +:+ "/" +:+ stem +:+ ext)) = ext.
Proof.
  intros Hext Hs Hne Hvis.
  pose proof (kind_exts_plain KImage ext Hext) as Hplain.
  destruct (supported_lower ext Hext) as [Hlow _].
  assert (Hes : has_slash ext = false).
  { simpl in Hext. repeat (destruct Hext as [<- | Hext]; [reflexivity |]). destruct Hext. }
  assert (Hb : Path.basename (dir +:+ "/" +:+ stem +:+ ext) = stem +:+ ext).
  { assert (Hx : Path.basename (stem +:+ ext) = stem +:+ ext).
    { apply basename_plain; [now rewrite has_slash_app, Hs, Hes |].
      destruct stem; [congruence | discriminate]. }
    rewrite basename_app; [exact Hx |]. rewrite Hx. destruct stem; [congruence | discriminate]. }
  rewrite (extname_of_suffix _ ext Hplain); [exact Hlow | |]; rewrite Hb.
  - destruct stem as [| c stem]; [congruence |]. exact Hvis.
  - apply endsWith_true. now exists stem.
Qed.

(** A successful call on a raster source has written the WebP rendition
    and returns its record. *)
Lemma raster_webp_written w p d st recs st' :
  SUPPORTED_IMAGE_FORMATS_has (Str.toLowerCase (Path.extname p)) = true ->
  Str.toLowerCase (Path.extname p) <> ".svg" ->
  optimizeImage w p d st = (Ok recs, st') ->
  exists n len,
    sharp_metadata w p = Ok (mkMetadata (Some n))
    /\ In (mkImage (rendition_path p d ".webp") "webp" len) recs
    /\ fs_files st' !! rendition_path p d ".webp"
       = Some (Raster "webp" (Z.min n CONFIG.MAX_IMAGE_WIDTH) len).
Proof.
  intros Hsup Hsvg H.
  apply optimizeImage_raster in H as (n & len & Hmd & _ & H); [| exact Hsup | exact Hsvg].
  cbv zeta in H. exists n, len. split; [exact Hmd |].
  assert (Hne : forall suffix, In suffix [".jpg"; ".png"] ->
                  rendition_path p d suffix <> rendition_path p d ".webp").
  { intros suffix Hin E. apply rendition_path_inj in E.
    - destruct Hin as [<- | [<- | []]]; discriminate E.
    - destruct Hin as [<- | [<- | []]]; reflexivity.
    - destruct Hin as [<- | [<- | []]]; simpl; lia.
    - reflexivity.
    - simpl. lia. }
  destruct H as [(_ & opt & -> & Hf) | [(_ & opt & -> & Hf) | (_ & -> & Hf)]]; rewrite Hf.
  - split; [now left |].
    rewrite lookup_insert_ne by (apply Hne; now left). apply lookup_insert_eq.
  - split; [now left |].
    rewrite lookup_insert_ne by (apply Hne; right; now left). apply lookup_insert_eq.
  - split; [now left |]. apply lookup_insert_eq.
Qed.

(** X9. The output name of an image forgets the source's extension, so
    two raster images of one directory whose names differ only in their
    extension, such as [hero.jpg] and [hero.png] (the common stem not
    empty, without slash and not starting with a dot), share the path of
    their WebP rendition: when [optimizeImage] has succeeded on the first and
    then on the second, each call has returned a [webp] record for
    [join(outputDir, stem.webp)], and the file there is the rendition of
    the second source, which has overwritten that of the first. *)
Theorem renditions_of_same_stem_collide (w : World) (dir stem ext1 ext2 outputDir : string)
    (st st1 st2 : St) (recs1 recs2 : list ImageRecord) :
  In ext1 raster_formats ->
  In ext2 raster_formats ->
  has_slash stem = false -> stem <> "" -> Glob.hidden stem = false ->
  let p1 := dir +:+ "/" +:+ stem +:+ ext1 in
  let p2 := dir +:+ "/" +:+ stem +:+ ext2 in
  let out := Path.join [outputDir; stem +:+ ".webp"] in
  optimizeImage w p1 outputDir st = (Ok recs1, st1) ->
  optimizeImage w p2 outputDir st1 = (Ok recs2, st2) ->
  exists n1 len1 n2 len2,
    sharp_metadata w p1 = Ok (mkMetadata (Some n1))
    /\ sharp_metadata w p2 = Ok (mkMetadata (Some n2))
    /\ In (mkImage out "webp" len1) recs1
    /\ fs_files st1 !! out = Some (Raster "webp" (Z.min n1 CONFIG.MAX_IMAGE_WIDTH) len1)
    /\ In (mkImage out "webp" len2) recs2
    /\ fs_files st2 !! out = Some (Raster "webp" (Z.min n2 CONFIG.MAX_IMAGE_WIDTH) len2).
Proof.
  intros H1 H2 Hs Hne Hvis p1 p2 out Hrun1 Hrun2.
  assert (Hsup : forall ext, In ext raster_formats ->
            In ext SUPPORTED_IMAGE_FORMATS /\ ext <> ".svg").
  { intros ext H. unfold raster_formats in H. simpl in H.
    repeat (destruct H as [<- | H]; [split; [simpl; tauto | discriminate] |]).
    destruct H. }
  destruct (Hsup _ H1) as [S1 N1]. destruct (Hsup _ H2) as [S2 N2].
  assert (O1 : rendition_path p1 outputDir ".webp" = out).
  { unfold rendition_path, p1. now rewrite image_basename_stem. }
  assert (O2 : rendition_path p2 outputDir ".webp" = out).
  { unfold rendition_path, p2. now rewrite image_basename_stem. }
  apply raster_webp_written in Hrun1 as (n1 & len1 & M1 & R1 & F1).
  2:{ unfold p1. rewrite extname_stem by assumption. now apply supported_lower. }
  2:{ unfold p1. now rewrite extname_stem. }
  apply raster_webp_written in Hrun2 as (n2 & len2 & M2 & R2 & F2).
  2:{ unfold p2. rewrite extname_stem by assumption. now apply supported_lower. }
  2:{ unfold p2. now rewrite extname_stem. }
  rewrite O1 in R1, F1. rewrite O2 in R2, F2.
  exists n1, len1, n2, len2. auto 10.
Qed.

(** X10. A rendition already written stays when a later step fails: for
    a JPEG source whose output directory could be ensured, whose metadata
    give a positive width, whose WebP rendition was encoded and written
    and whose JPEG encoding then fails,
    [optimizeImage] throws the wrapped error and returns no record, but
    the [.webp] file is on disk: the files are those before the call plus
    that file, and the directories and the log are as [ensureDirectory]
    left them, so unchanged when the output directory existed. *)
Theorem webp_left_behind_on_failure (w : World) (p d : string) (st s1 : St)
    (n len : Z) (e : Exc) :
  In (Str.toLowerCase (Path.extname p)) [".jpg"; ".jpeg"] ->
  ensureDirectory w d st = (Ok tt, s1) ->
  sharp_metadata w p = Ok (mkMetadata (Some n)) ->
  0 < n ->
  sharp_toBuffer w p (Z.min n CONFIG.MAX_IMAGE_WIDTH) resize_options
    (ToWebp CONFIG.IMAGE_QUALITY_webp) = Ok len ->
  fs_writeFile w (rendition_path p d ".webp") = Ok tt ->
  sharp_toBuffer w p (Z.min n CONFIG.MAX_IMAGE_WIDTH) resize_options
    (ToJpeg CONFIG.IMAGE_QUALITY_jpeg true) = Err e ->
  optimizeImage w p d st
  = (Err (OptimizationError
            ("Failed to optimize image: " +:+ Path.relative (SOURCE_DIR w) p) e),
     mkSt (<[rendition_path p d ".webp" :=
               Raster "webp" (Z.min n CONFIG.MAX_IMAGE_WIDTH) len]> (fs_files st))
          (fs_dirs s1) (log s1))
  /\ (d ∈ fs_dirs st -> fs_dirs s1 = fs_dirs st /\ log s1 = log st).
Proof.
  intros Hext He Hmd Hn Hwebp Hw Hjpeg.
  assert (Hpos : (Z.min n CONFIG.MAX_IMAGE_WIDTH <=? 0) = false).
  { apply Z.leb_gt. unfold CONFIG.MAX_IMAGE_WIDTH. lia. }
  pose proof (ensureDirectory_files _ _ _ _ _ He) as Hfiles.
  split.
  2:{ intros Hd. unfold ensureDirectory, fs_access in He. unfold_m.
      rewrite (bool_decide_eq_true_2 _ Hd) in He. now injection He as <-. }
  unfold rendition_path, image_basename in *.
  unfold optimizeImage.
  assert (Hsup : SUPPORTED_IMAGE_FORMATS_has (Str.toLowerCase (Path.extname p)) = true)
    by (destruct Hext as [E | [E | []]]; now rewrite <- E).
  assert (Hsvg : String.eqb (Str.toLowerCase (Path.extname p)) ".svg" = false)
    by (destruct Hext as [E | [E | []]]; now rewrite <- E).
  assert (Hjpg : (String.eqb (Str.toLowerCase (Path.extname p)) ".jpg"
                  || String.eqb (Str.toLowerCase (Path.extname p)) ".jpeg")%bool = true)
    by (destruct Hext as [E | [E | []]]; now rewrite <- E).
  cbv zeta. rewrite Hsup, Hsvg, Hjpg. cbn [negb].
  unfold sharp_pipeline, writeFile. unfold_m.
  rewrite He, Hmd.
  cbn [Math_min md_width fmap option_fmap option_map].
  rewrite Hpos, Hwebp, Hw. cbn [fs_files fs_dirs log].
  rewrite Hjpeg, Hfiles. simpl default. simpl sharp_format.
  now rewrite sharp_resize_width_clamped.
Qed.

(** ** Which files a call may touch *)

Lemma wo_ret {A} P (x : A) : writes_only P (ret x).
Proof. now intros st q _. Qed.

Lemma wo_throw {A} P e : writes_only P (@throw A e).
Proof. now intros st q _. Qed.

Lemma wo_await {A} P (r : result A) : writes_only P (await r).
Proof. now intros st q _. Qed.

Lemma wo_log P e : writes_only P (add_log e).
Proof. now intros st q _. Qed.

Lemma wo_bind_ok {A B} P (m : M A) (k : A -> M B) :
  writes_only P m ->
  (forall a st s, m st = (Ok a, s) -> writes_only P (k a)) ->
  writes_only P (bind m k).
Proof.
  intros Hm Hk st q Hq. specialize (Hm st q Hq). unfold bind.
  destruct (m st) as [[a | e] s] eqn:E; simpl in Hm; [| exact Hm].
  rewrite (Hk a st s E s q Hq). exact Hm.
Qed.

Lemma wo_bind {A B} P (m : M A) (k : A -> M B) :
  writes_only P m -> (forall a, writes_only P (k a)) -> writes_only P (bind m k).
Proof. intros Hm Hk. apply wo_bind_ok; auto. Qed.

Lemma wo_try {A} P (m : M A) (h : Exc -> M A) :
  writes_only P m -> (forall e, writes_only P (h e)) -> writes_only P (try_catch m h).
Proof.
  intros Hm Hh st q Hq. specialize (Hm st q Hq). unfold try_catch.
  destruct (m st) as [[a | e] s]; simpl in Hm; [exact Hm |].
  rewrite (Hh e s q Hq). exact Hm.
Qed.

Lemma wo_mono {A} (P Q : string -> Prop) (m : M A) :
  (forall q, P q -> Q q) -> writes_only P m -> writes_only Q m.
Proof. intros HPQ Hm st q Hq. apply Hm. intros HP. apply Hq, HPQ, HP. Qed.

Lemma wo_ensureDirectory P w d : writes_only P (ensureDirectory w d).
Proof.
  intros st q _. destruct (ensureDirectory w d st) as [res st'] eqn:E.
  simpl. now rewrite (ensureDirectory_files _ _ _ _ _ E).
Qed.

Lemma wo_writeFile (P : string -> Prop) w p b : P p -> writes_only P (writeFile w p b).
Proof.
  intros Hp st q Hq. unfold writeFile. destruct (fs_writeFile w p); [| reflexivity].
  simpl. apply lookup_insert_ne. intros ->. now apply Hq.
Qed.

Lemma wo_copy (P : string -> Prop) w s d : P d -> writes_only P (copy w s d).
Proof.
  intros Hp st q Hq. unfold copy. destruct (fs_copyFile w s d); [| reflexivity].
  simpl. apply lookup_insert_ne. intros ->. now apply Hq.
Qed.

Lemma wo_stat P w p : writes_only P (stat w p).
Proof.
  intros st q _. unfold stat. destruct (fs_stat w p); [| reflexivity].
  now destruct (fs_files st !! p).
Qed.

Lemma wo_sharp_pipeline P w p md tw o out : writes_only P (sharp_pipeline w p md tw o out).
Proof.
  unfold sharp_pipeline. destruct tw as [tw |]; [| apply wo_throw].
  destruct (tw <=? 0); [apply wo_throw |].
  apply wo_bind; [apply wo_await | intros; apply wo_ret].
Qed.

Lemma wo_glob P w pats ign : writes_only P (glob w pats ign).
Proof. unfold glob. destruct (glob_error w pats); [apply wo_throw | apply wo_ret]. Qed.

Lemma wo_for_of {A R} P (body : R -> A -> M R) (xs : list A) :
  (forall r x, In x xs -> writes_only P (body r x)) ->
  forall r, writes_only P (for_of body xs r).
Proof.
  induction xs as [| x xs IH]; intros Hb r; simpl.
  - apply wo_ret.
  - apply wo_bind; [apply Hb; now left |].
    intros r'. apply IH. intros r0 y Hy. apply Hb. now right.
Qed.

Ltac wo_step :=
  first [ apply wo_ret | apply wo_throw | apply wo_await | apply wo_log
        | apply wo_ensureDirectory | apply wo_stat | apply wo_sharp_pipeline
        | apply wo_glob
        | apply wo_bind; [| intros ?]
        | apply wo_try; [| intros ?] ].

Ltac wo := unfold logger.info, logger.warn, logger.error; repeat wo_step.

Lemma wo_optimizeImage w p d : writes_only (image_outputs p d) (optimizeImage w p d).
Proof.
  unfold optimizeImage. cbv zeta.
  destruct (negb _); [wo |].
  apply wo_try; [| intros; apply wo_throw].
  apply wo_bind; [apply wo_ensureDirectory | intros _].
  destruct (String.eqb _ ".svg").
  - wo. apply wo_writeFile. left. reflexivity.
  - wo.
    + apply wo_writeFile. right. left. reflexivity.
    + destruct (_ || _)%bool; [| destruct (String.eqb _ ".png")]; wo.
      * apply wo_writeFile. right. right. left. reflexivity.
      * apply wo_writeFile. right. right. right. reflexivity.
Qed.

Lemma wo_optimizeCSS w p o : writes_only (with_map o) (optimizeCSS w p o).
Proof.
  unfold optimizeCSS. cbv zeta. wo.
  - apply wo_writeFile. now left.
  - destruct (res_map _); [apply wo_writeFile; now right | apply wo_ret].
Qed.

Lemma wo_optimizeJS w p o : writes_only (with_map o) (optimizeJS w p o).
Proof.
  unfold optimizeJS. cbv zeta. wo.
  destruct (negb _); wo.
  - apply wo_writeFile. now left.
  - destruct (truthy _); [apply wo_writeFile; now right | apply wo_ret].
Qed.

Lemma wo_copyFile w s d : writes_only (eq d) (copyFile w s d).
Proof. unfold copyFile. wo. now apply wo_copy. Qed.

(** X11. Each transformer changes no file but its own outputs, whether
    it succeeds or fails: [optimizeImage] the four renditions named after
    the source in the output directory, [optimizeCSS] and [optimizeJS]
    the output path and its [.map] sibling, [copyFile] the destination.
    In particular none of them writes to its input path unless that is
    one of these. *)
Theorem transformers_touch_only_their_outputs (w : World) (inputPath out : string) :
  writes_only (image_outputs inputPath out) (optimizeImage w inputPath out)
  /\ writes_only (with_map out) (optimizeCSS w inputPath out)
  /\ writes_only (with_map out) (optimizeJS w inputPath out)
  /\ writes_only (eq out) (copyFile w inputPath out).
Proof.
  repeat split;
    [apply wo_optimizeImage | apply wo_optimizeCSS | apply wo_optimizeJS | apply wo_copyFile].
Qed.

Lemma glob_inv w pats ign st files st' :
  glob w pats ign st = (Ok files, st') ->
  files = map (Glob.absolute (SOURCE_DIR w)) (Glob.found pats ign (tree w)).
Proof.
  unfold glob. destruct (glob_error w pats); [discriminate |].
  intros H. apply ret_inv in H as [-> _]. reflexivity.
Qed.

Lemma wo_iter w k results p :
  In p (discovered w k) -> writes_only (run_outputs w) (iter w k results p).
Proof.
  intros Hp.
  assert (Hout : forall q, outputs_of w k p q -> run_outputs w q)
    by (intros q Hq; now exists k, p).
  destruct k; simpl iter;
    unfold image_iter, css_iter, js_iter, html_iter; cbv zeta;
    (apply wo_try; [| intros; wo]);
    (apply wo_bind; [| intros; apply wo_ret]);
    apply (wo_mono _ _ _ Hout).
  - apply wo_optimizeImage.
  - apply wo_optimizeCSS.
  - apply wo_optimizeJS.
  - intros st q Hq. apply wo_copyFile. intros <-. now apply Hq.
Qed.

(** X12. A run changes no file but the outputs of the sources it
    discovered: whatever the libraries do and whichever calls fail, every
    other path of the file system holds after [processAssets] what it
    held before. *)
Theorem run_touches_only_outputs (w : World) :
  writes_only (run_outputs w) (processAssets w).
Proof.
  unfold processAssets. cbv zeta.
  apply wo_try; [| intros; wo].
  apply wo_bind; [wo | intros _].
  apply wo_bind; [wo | intros _].
  apply wo_bind_ok; [wo | intros f1 s0 s1 H1]. apply glob_inv in H1. subst f1.
  apply wo_bind; [wo | intros _].
  apply wo_bind; [apply (wo_for_of _ (iter w KImage)); intros; now apply wo_iter | intros r1].
  apply wo_bind_ok; [wo | intros f2 s2 s3 H2]. apply glob_inv in H2. subst f2.
  apply wo_bind; [wo | intros _].
  apply wo_bind; [apply (wo_for_of _ (iter w KCss)); intros; now apply wo_iter | intros r2].
  apply wo_bind_ok; [wo | intros f3 s4 s5 H3]. apply glob_inv in H3. subst f3.
  apply wo_bind; [wo | intros _].
  apply wo_bind; [apply (wo_for_of _ (iter w KJs)); intros; now apply wo_iter | intros r3].
  apply wo_bind_ok; [wo | intros f4 s6 s7 H4]. apply glob_inv in H4. subst f4.
  apply wo_bind; [wo | intros _].
  apply wo_bind; [apply (wo_for_of _ (iter w KHtml)); intros; now apply wo_iter | intros r4].
  apply wo_bind; [wo | intros _].
  apply wo_bind; [destruct (0 <? _); wo | intros _].
  apply wo_ret.
Qed.

(** ** What a successful call leaves on disk *)

Lemma app_map_neq (o : string) : o <> o +:+ ".map".
Proof.
  intros E. apply (f_equal String.length) in E. rewrite sapp_length in E. simpl in E. lia.
Qed.

Lemma optimizeCSS_ok w i o st r st' :
  optimizeCSS w i o st = (Ok r, st') ->
  exists css res,
    fs_readFile w i = Ok css
    /\ postcss_process w postcss_plugins css (mkProcess i o) = Ok res
    /\ r = mkFile o (buffer_length (Bytes (res_css res)))
    /\ fs_files st' =
       match res_map res with
       | Some m => <[o +:+ ".map" := Bytes m]> (<[o := Bytes (res_css res)]> (fs_files st))
       | None => <[o := Bytes (res_css res)]> (fs_files st)
       end.
Proof.
  unfold optimizeCSS. intros H. apply try_rethrow_inv in H.
  inv_bind H as css s1 Hr. apply await_inv in Hr as [Hr ->].
  inv_bind H as res s1 Hp. apply await_inv in Hp as [Hp ->].
  inv_bind H as u1 s1 Hd. apply ensureDirectory_files in Hd.
  inv_bind H as u2 s2 Hw. apply writeFile_inv in Hw. subst s2.
  inv_bind H as u3 s3 Hm.
  inv_bind H as u4 s4 Hl. apply log_inv in Hl. apply ret_inv in H as [-> ->]. subst s4.
  exists css, res. repeat split; [exact Hr | exact Hp |]. simpl fs_files.
  destruct (res_map res) as [m |].
  - apply writeFile_inv in Hm. subst s3. simpl. now rewrite Hd.
  - apply ret_inv in Hm as [_ ->]. simpl. now rewrite Hd.
Qed.

Lemma optimizeJS_ok w i o st r st' :
  optimizeJS w i o st = (Ok r, st') ->
  exists code res out,
    fs_readFile w i = Ok code
    /\ terserMinify w code (terser_options o) = Ok res
    /\ min_code res = Some out /\ out <> ""
    /\ r = mkFile o (buffer_length (Bytes out))
    /\ fs_files st' =
       if truthy (min_map res)
       then <[o +:+ ".map" := Bytes (JSON.stringify (default "" (min_map res)))]>
              (<[o := Bytes out]> (fs_files st))
       else <[o := Bytes out]> (fs_files st).
Proof.
  unfold optimizeJS. intros H. apply try_rethrow_inv in H.
  inv_bind H as code s1 Hr. apply await_inv in Hr as [Hr ->].
  inv_bind H as res s1 Hp. apply await_inv in Hp as [Hp ->].
  destruct (truthy (min_code res)) eqn:Ht; simpl negb in H; cbv iota in H; [| discriminate].
  destruct (min_code res) as [out |] eqn:Hc; [| discriminate]. simpl in Ht.
  inv_bind H as u1 s1 Hd. apply ensureDirectory_files in Hd.
  inv_bind H as u2 s2 Hw. apply writeFile_inv in Hw. subst s2.
  inv_bind H as u3 s3 Hm.
  inv_bind H as u4 s4 Hl. apply log_inv in Hl. apply ret_inv in H as [-> ->]. subst s4.
  exists code, res, out.
  split; [exact Hr |]. split; [exact Hp |]. split; [exact Hc |].
  split; [intros ->; discriminate |]. split; [reflexivity |].
  simpl fs_files. simpl default in *.
  destruct (truthy (min_map res)).
  - apply writeFile_inv in Hm. subst s3. simpl. now rewrite Hd.
  - apply ret_inv in Hm as [_ ->]. simpl. now rewrite Hd.
Qed.

Lemma copyFile_ok w s d st r st' :
  copyFile w s d st = (Ok r, st') ->
  exists bytes,
    fs_copyFile w s d = Ok bytes
    /\ r = mkFile d (buffer_length (Bytes bytes))
    /\ fs_files st' = <[d := Bytes bytes]> (fs_files st).
Proof.
  unfold copyFile. intros H. apply try_rethrow_inv in H.
  inv_bind H as u1 s1 Hd. apply ensureDirectory_files in Hd.
  inv_bind H as u2 s2 Hc. unfold copy in Hc.
  destruct (fs_copyFile w s d) as [bytes | e]; [| discriminate].
  injection Hc as _ <-.
  inv_bind H as size s3 Hs. unfold stat in Hs.
  destruct (fs_stat w d); [| discriminate]. simpl fs_files in Hs.
  rewrite lookup_insert_eq in Hs. injection Hs as <- <-.
  inv_bind H as u4 s4 Hl. apply log_inv in Hl. apply ret_inv in H as [-> ->]. subst s4.
  exists bytes. simpl. now rewrite Hd.
Qed.

(** X13. Every record a transformer returns describes a file that is on
    disk when the call returns: the record's path holds a file, and the
    record's size is that file's length.  For an image this holds of each
    of its renditions, which do not overwrite one another. *)
Theorem records_describe_written_files (w : World) (inputPath out : string) (st st' : St) :
  (forall recs, optimizeImage w inputPath out st = (Ok recs, st') ->
     forall r, In r recs -> on_disk st' (img_path r) (img_size r))
  /\ (forall r, optimizeCSS w inputPath out st = (Ok r, st') ->
        file_path r = out /\ on_disk st' out (file_size r))
  /\ (forall r, optimizeJS w inputPath out st = (Ok r, st') ->
        file_path r = out /\ on_disk st' out (file_size r))
  /\ (forall r, copyFile w inputPath out st = (Ok r, st') ->
        file_path r = out /\ on_disk st' out (file_size r)).
Proof.
  split; [| split; [| split]].
  - intros recs H r Hr.
    destruct (SUPPORTED_IMAGE_FORMATS_has (Str.toLowerCase (Path.extname inputPath))) eqn:Hsup.
    2:{ rewrite optimizeImage_unsupported in H by exact Hsup.
        injection H as <- _. destruct Hr. }
    destruct (String.eqb_spec (Str.toLowerCase (Path.extname inputPath)) ".svg") as [Esvg | Nsvg].
    + apply optimizeImage_svg in H as (src & o & _ & _ & -> & Hf); [| exact Esvg].
      destruct Hr as [<- | []]. exists (Bytes o). rewrite Hf. simpl.
      now rewrite lookup_insert_eq.
    + apply optimizeImage_raster in H as (n & len & _ & _ & H); [| exact Hsup | exact Nsvg].
      cbv zeta in H.
      destruct H as [(_ & opt & -> & Hf) | [(_ & opt & -> & Hf) | (_ & -> & Hf)]].
      * destruct Hr as [<- | [<- | []]]; unfold on_disk; simpl; rewrite Hf.
        -- exists (Raster "webp" (Z.min n CONFIG.MAX_IMAGE_WIDTH) len).
           rewrite lookup_insert_ne, lookup_insert_eq; [auto |].
           intros E. apply rendition_path_inj in E; [discriminate | | | |]; simpl; auto; lia.
        -- exists opt. now rewrite lookup_insert_eq.
      * destruct Hr as [<- | [<- | []]]; unfold on_disk; simpl; rewrite Hf.
        -- exists (Raster "webp" (Z.min n CONFIG.MAX_IMAGE_WIDTH) len).
           rewrite lookup_insert_ne, lookup_insert_eq; [auto |].
           intros E. apply rendition_path_inj in E; [discriminate | | | |]; simpl; auto; lia.
        -- exists opt. now rewrite lookup_insert_eq.
      * destruct Hr as [<- | []]; unfold on_disk; simpl; rewrite Hf.
        exists (Raster "webp" (Z.min n CONFIG.MAX_IMAGE_WIDTH) len).
        now rewrite lookup_insert_eq.
  - intros r H. apply optimizeCSS_ok in H as (css & res & _ & _ & -> & Hf).
    split; [reflexivity |]. exists (Bytes (res_css res)). rewrite Hf. split; [| reflexivity].
    destruct (res_map res).
    + rewrite lookup_insert_ne by (symmetry; apply app_map_neq). apply lookup_insert_eq.
    + apply lookup_insert_eq.
  - intros r H. apply optimizeJS_ok in H as (code & res & o & _ & _ & _ & _ & -> & Hf).
    split; [reflexivity |]. exists (Bytes o). rewrite Hf. split; [| reflexivity].
    destruct (truthy (min_map res)).
    + rewrite lookup_insert_ne by (symmetry; apply app_map_neq). apply lookup_insert_eq.
    + apply lookup_insert_eq.
  - intros r H. apply copyFile_ok in H as (bytes & _ & -> & Hf).
    split; [reflexivity |]. exists (Bytes bytes). rewrite Hf. split; [| reflexivity].
    apply lookup_insert_eq.
Qed.

(** X14. The source map of a stylesheet is a sibling [<output>.map]
    holding the map as postcss gave it; when postcss gave none, nothing
    is written there, so that a [.map] file of an earlier build stays as
    it was. *)
Theorem css_source_map_sibling (w : World) (inputPath outputPath css : string)
    (res : PostcssResult) (r : FileRecord) (st st' : St) :
  fs_readFile w inputPath = Ok css ->
  postcss_process w postcss_plugins css (mkProcess inputPath outputPath) = Ok res ->
  optimizeCSS w inputPath outputPath st = (Ok r, st') ->
  text_at st' outputPath = Some (res_css res)
  /\ fs_files st' !! (outputPath +:+ ".map")
     = match res_map res with
       | Some m => Some (Bytes m)
       | None => fs_files st !! (outputPath +:+ ".map")
       end.
Proof.
  intros Hr Hp H. apply optimizeCSS_ok in H as (css' & res' & Hr' & Hp' & _ & Hf).
  rewrite Hr in Hr'. injection Hr' as <-. rewrite Hp in Hp'. injection Hp' as <-.
  unfold text_at. rewrite Hf. destruct (res_map res).
  - rewrite lookup_insert_ne by (symmetry; apply app_map_neq).
    now rewrite !lookup_insert_eq.
  - rewrite lookup_insert_eq. split; [reflexivity |].
    apply lookup_insert_ne. apply app_map_neq.
Qed.

(** X15. The source map of a script is written to [<output>.map] as the
    JSON text of the map terser returned, and only when that map is
    truthy; an absent or empty map leaves the path untouched. *)
Theorem js_source_map_sibling (w : World) (inputPath outputPath code : string)
    (res : MinifyOutput) (r : FileRecord) (st st' : St) :
  fs_readFile w inputPath = Ok code ->
  terserMinify w code (terser_options outputPath) = Ok res ->
  optimizeJS w inputPath outputPath st = (Ok r, st') ->
  text_at st' outputPath = min_code res
  /\ fs_files st' !! (outputPath +:+ ".map")
     = if truthy (min_map res)
       then Some (Bytes (JSON.stringify (default "" (min_map res))))
       else fs_files st !! (outputPath +:+ ".map").
Proof.
  intros Hr Hp H.
  apply optimizeJS_ok in H as (code' & res' & out & Hr' & Hp' & Hc & _ & _ & Hf).
  rewrite Hr in Hr'. injection Hr' as <-. rewrite Hp in Hp'. injection Hp' as <-.
  unfold text_at. rewrite Hf, Hc. destruct (truthy (min_map res)).
  - rewrite lookup_insert_ne by (symmetry; apply app_map_neq).
    now rewrite !lookup_insert_eq.
  - rewrite lookup_insert_eq. split; [reflexivity |].
    apply lookup_insert_ne. apply app_map_neq.
Qed.

(** ** Failures before the first write *)

(** X16. A stylesheet that cannot be read or that postcss rejects fails
    before anything is touched: no directory is created, no file written
    and no line logged by [optimizeCSS]; the error thrown wraps the
    cause. *)
Theorem css_failure_has_no_effect (w : World) (inputPath outputPath : string)
    (st : St) (e : Exc) :
  fs_readFile w inputPath = Err e
  \/ (exists css, fs_readFile w inputPath = Ok css
       /\ postcss_process w postcss_plugins css (mkProcess inputPath outputPath) = Err e) ->
  optimizeCSS w inputPath outputPath st
  = (Err (OptimizationError (failure_text w KCss inputPath) e), st).
Proof.
  intros [Hr | (css & Hr & Hp)]; unfold optimizeCSS; unfold_m; rewrite Hr.
  - reflexivity.
  - now rewrite Hp.
Qed.

(** X17. A script that cannot be read, that terser rejects or for which
    terser returns no code fails before anything is touched: no
    directory is created, no file written and no line logged by
    [optimizeJS]. *)
Theorem js_failure_has_no_effect (w : World) (inputPath outputPath : string)
    (st : St) (e : Exc) :
  fs_readFile w inputPath = Err e
  \/ (exists code, fs_readFile w inputPath = Ok code
       /\ (terserMinify w code (terser_options outputPath) = Err e
           \/ exists res, terserMinify w code (terser_options outputPath) = Ok res
                /\ truthy (min_code res) = false
                /\ e = Error "Minification produced no output")) ->
  optimizeJS w inputPath outputPath st
  = (Err (OptimizationError (failure_text w KJs inputPath) e), st).
Proof.
  intros [Hr | (code & Hr & [Hp | (res & Hp & Ht & ->)])];
    unfold optimizeJS; unfold_m; rewrite Hr.
  - reflexivity.
  - now rewrite Hp.
  - now rewrite Hp, Ht.
Qed.

(** ** The output tree mirrors the source tree *)

Lemma resolveDots_clean abs segs : forall acc,
  forallb clean_segment segs = true ->
  Path.resolveDots abs acc segs = rev acc ++ segs.
Proof.
  induction segs as [| seg rest IH]; intros acc H; simpl.
  - now rewrite app_nil_r.
  - simpl in H. apply andb_true_iff in H as [Hc Hrest].
    unfold clean_segment in Hc. apply negb_true_iff in Hc.
    apply orb_false_iff in Hc as [Hc H2]. rewrite Hc, H2.
    rewrite (IH _ Hrest). simpl. now rewrite <- app_assoc.
Qed.

Lemma resolveDots_app abs xs : forall acc ys,
  Path.resolveDots abs acc (xs ++ ys)
  = Path.resolveDots abs (rev (Path.resolveDots abs acc xs)) ys.
Proof.
  induction xs as [| x xs IH]; intros acc ys; simpl.
  - now rewrite rev_involutive.
  - destruct (_ || _)%bool; [apply IH |].
    destruct (String.eqb x ".."); [| apply IH].
    destruct acc as [| top acc']; [destruct abs; apply IH |].
    destruct (String.eqb top ".."); apply IH.
Qed.

Lemma dropCommon_prefix fs ts : Path.dropCommon fs (fs ++ ts) = ([], ts).
Proof.
  induction fs as [| x fs IH]; simpl.
  - now destruct ts.
  - now rewrite String.eqb_refl.
Qed.

(** [path.relative(root, p)] gives back the relative path from which
    [glob] made the absolute path [p]. *)
Lemma relative_absolute root rel :
  tidy rel = true -> Path.relative root (Glob.absolute root rel) = rel.
Proof.
  intros Ht. unfold Path.relative.
  assert (Hts : Path.resolveDots true [] (Path.segments (Glob.absolute root rel))
                = Path.resolveDots true [] (Path.segments root) ++ Path.segments rel).
  { unfold Glob.absolute. destruct (String.eqb_spec root "/") as [-> | _].
    - change ("/" +:+ rel) with ("" +:+ "/" +:+ rel). rewrite segments_app.
      simpl Path.segments at 1 3. simpl app.
      change (Path.resolveDots true [] ("" :: Path.segments rel))
        with (Path.resolveDots true [] (Path.segments rel)).
      now rewrite resolveDots_clean.
    - rewrite segments_app, resolveDots_app, resolveDots_clean by exact Ht.
      now rewrite rev_involutive. }
  rewrite Hts, dropCommon_prefix. simpl. apply join_segments.
Qed.

(** X18. The relative path under which a discovered file is written is
    the path it has in the source tree: [path.relative(sourceDir, _)]
    undoes the [absolute: true] of discovery, so a stylesheet, script or
    page found at [rel] is written to [join(buildDir, rel)] and the
    renditions of an image to [join(buildDir, dirname(rel))]. *)
Theorem outputs_mirror_the_tree (w : World) (rel : string) :
  tidy rel = true ->
  let p := Glob.absolute (SOURCE_DIR w) rel in
  Path.relative (SOURCE_DIR w) p = rel
  /\ mirror_path w p = Path.join [BUILD_DIR w; rel]
  /\ image_outputDir w p = Path.join [BUILD_DIR w; Path.dirname rel].
Proof.
  intros Ht p. unfold mirror_path, image_outputDir, p.
  now rewrite relative_absolute.
Qed.

(** ** Fatal and returning runs *)

(** X19. Only set-up and discovery can make a run fatal: [processAssets]
    returns its results exactly when the output directory could be
    ensured and none of the four [glob] calls rejects, whatever the
    transformers do; in every other case it throws. *)
Theorem run_returns_iff_setup_succeeds (w : World) (st : St) :
  ((exists r, fst (processAssets w st) = Ok r) <-> setup_ok w st)
  /\ ((exists e, fst (processAssets w st) = Err e) <-> ~ setup_ok w st).
Proof.
  split; split.
  - intros [r H]. now apply setup_of_run in H as [Hs _].
  - intros Hs. exists (final_results w st). now rewrite (processAssets_ok _ _ Hs).
  - intros [e H] Hs. rewrite (processAssets_ok _ _ Hs) in H. discriminate.
  - intros Hno. destruct (processAssets_fatal _ _ Hno) as (e & s & H).
    exists e. now rewrite H.
Qed.

(** * Further sample runs *)

Lemma ensureDirectory_idempotent_witness :
  BUILD_DIR site <> ""
  /\ fst (ensureDirectory site (BUILD_DIR site) fresh) = Ok tt
  /\ ensureDirectory site (BUILD_DIR site) (snd (ensureDirectory site (BUILD_DIR site) fresh))
     = (Ok tt, snd (ensureDirectory site (BUILD_DIR site) fresh)).
Proof.
  assert (Hne : BUILD_DIR site <> "") by (vm_compute; discriminate).
  assert (H : fst (ensureDirectory site (BUILD_DIR site) fresh) = Ok tt)
    by (vm_compute; reflexivity).
  split; [exact Hne |]. split; [exact H |].
  exact (ensureDirectory_idempotent site (BUILD_DIR site) fresh _ tt Hne (pair_of_fst _ _ H)).
Defined.

Lemma main_fatal_when_build_dir_fails_witness :
  (BUILD_DIR readonly_site ∉ fs_dirs fresh)
  /\ main readonly_site fresh
     = (1, mkSt (fs_files fresh) (fs_dirs fresh)
             (log fresh
              ++ fatal_log readonly_site (Error "EACCES: permission denied, mkdir"))).
Proof.
  assert (Hno : BUILD_DIR readonly_site ∉ fs_dirs fresh)
    by (apply (bool_decide_eq_false_1 _); vm_compute; reflexivity).
  split; [exact Hno |].
  exact (main_fatal_when_build_dir_fails readonly_site fresh
           (Error "EACCES: permission denied, mkdir") Hno ltac:(vm_compute; reflexivity)).
Defined.

Lemma main_reports_exit_code_witness :
  fst (processAssets site (main_start fresh)) = Ok site_results
  /\ snd (main site fresh)
     = logged (finished_entry (fst (main site fresh))) (final_state site (main_start fresh)).
Proof.
  assert (H : fst (processAssets site (main_start fresh)) = Ok site_results)
    by (vm_compute; reflexivity).
  split; [exact H |].
  exact (main_reports_exit_code site fresh site_results H).
Defined.

Lemma other_is_never_filled_witness :
  fst (processAssets site (main_start fresh)) = Ok site_results
  /\ other site_results = [].
Proof.
  assert (H : fst (processAssets site (main_start fresh)) = Ok site_results)
    by (vm_compute; reflexivity).
  split; [exact H |].
  exact (other_is_never_filled site (main_start fresh) site_results H).
Defined.

Lemma kind_accounting_witness :
  fst (processAssets site (main_start fresh)) = Ok site_results
  /\ count (discovered site KImage) = 4
  /\ let N := count (discovered site KImage) in
     let E := count (errors_of_type KImage (errors site_results)) in
     E = count (List.filter failed (kind_attempts site KImage (main_start fresh)))
     /\ 0 <= E <= N
     /\ N - E <= count (assets KImage site_results) <= 2 * (N - E)
     /\ (KImage <> KImage -> count (assets KImage site_results) + E = N).
Proof.
  assert (H : fst (processAssets site (main_start fresh)) = Ok site_results)
    by (vm_compute; reflexivity).
  split; [exact H |]. split; [vm_compute; reflexivity |].
  exact (kind_accounting site (main_start fresh) site_results KImage H).
Defined.

Lemma transformers_wrap_their_errors_witness :
  fst (optimizeImage site broken_png hero_dir fresh)
  = Err (OptimizationError "Failed to optimize image: images/broken.png"
           (Error "Input file contains unsupported image format"))
  /\ exists cause,
       OptimizationError "Failed to optimize image: images/broken.png"
         (Error "Input file contains unsupported image format")
       = OptimizationError
           ("Failed to optimize image: " +:+ Path.relative (SOURCE_DIR site) broken_png)
           cause.
Proof.
  assert (H : fst (optimizeImage site broken_png hero_dir fresh)
              = Err (OptimizationError "Failed to optimize image: images/broken.png"
                       (Error "Input file contains unsupported image format")))
    by (vm_compute; reflexivity).
  split; [exact H |].
  exact (proj1 (transformers_wrap_their_errors site broken_png hero_dir fresh
                  (snd (optimizeImage site broken_png hero_dir fresh)) _)
           (pair_of_fst _ _ H)).
Defined.

Lemma error_records_name_their_file_witness :
  fst (processAssets site (main_start fresh)) = Ok site_results
  /\ In (mkError "js" empty_js "Failed to optimize JavaScript: js/empty.js")
        (errors site_results)
  /\ exists k p,
       In p (discovered site k)
       /\ mkError "js" empty_js "Failed to optimize JavaScript: js/empty.js"
          = mkError (kind_type k) p (failure_text site k p).
Proof.
  assert (H : fst (processAssets site (main_start fresh)) = Ok site_results)
    by (vm_compute; reflexivity).
  assert (Hin : In (mkError "js" empty_js "Failed to optimize JavaScript: js/empty.js")
                   (errors site_results))
    by (vm_compute; right; left; reflexivity).
  split; [exact H |]. split; [exact Hin |].
  exact (error_records_name_their_file site (main_start fresh) site_results _ H Hin).
Defined.

Lemma discovery_respects_exclusions_witness :
  In "js/app.js" (Glob.found (kind_patterns KJs) (kind_ignore KJs) (tree site))
  /\ In "js/app.js" (tree site)
  /\ visible "js/app.js" = true
  /\ In (Path.extname "js/app.js") (kind_exts KJs)
  /\ Str.startsWith "js/app.js" "node_modules/" = false
  /\ Str.startsWith "js/app.js" "dist/" = false
  /\ Str.startsWith "js/app.js" "build/" = false
  /\ Str.startsWith "js/app.js" ".git/" = false
  /\ (KJs = KJs -> Str.startsWith "js/app.js" "scripts/" = false).
Proof.
  assert (H : In "js/app.js" (Glob.found (kind_patterns KJs) (kind_ignore KJs) (tree site)))
    by (vm_compute; left; reflexivity).
  split; [exact H |].
  exact (discovery_respects_exclusions site KJs "js/app.js" H).
Defined.

Lemma renditions_of_same_stem_collide_witness :
  fst (optimizeImage twin_site hero hero_dir fresh) = Ok hero_records
  /\ fst (optimizeImage twin_site hero_png hero_dir
            (snd (optimizeImage twin_site hero hero_dir fresh))) = Ok hero_png_records
  /\ fs_files (snd (optimizeImage twin_site hero_png hero_dir
                      (snd (optimizeImage twin_site hero hero_dir fresh))))
       !! "/repo/dist/images/hero.webp" = Some (Raster "webp" 800 8000)
  /\ exists n1 len1 n2 len2,
       sharp_metadata twin_site hero = Ok (mkMetadata (Some n1))
       /\ sharp_metadata twin_site hero_png = Ok (mkMetadata (Some n2))
       /\ In (mkImage (Path.join [hero_dir; "hero" +:+ ".webp"]) "webp" len1) hero_records
       /\ fs_files (snd (optimizeImage twin_site hero hero_dir fresh))
            !! Path.join [hero_dir; "hero" +:+ ".webp"]
          = Some (Raster "webp" (Z.min n1 CONFIG.MAX_IMAGE_WIDTH) len1)
       /\ In (mkImage (Path.join [hero_dir; "hero" +:+ ".webp"]) "webp" len2) hero_png_records
       /\ fs_files (snd (optimizeImage twin_site hero_png hero_dir
                           (snd (optimizeImage twin_site hero hero_dir fresh))))
            !! Path.join [hero_dir; "hero" +:+ ".webp"]
          = Some (Raster "webp" (Z.min n2 CONFIG.MAX_IMAGE_WIDTH) len2).
Proof.
  assert (H1 : fst (optimizeImage twin_site hero hero_dir fresh) = Ok hero_records)
    by (vm_compute; reflexivity).
  assert (H2 : fst (optimizeImage twin_site hero_png hero_dir
                      (snd (optimizeImage twin_site hero hero_dir fresh)))
               = Ok hero_png_records)
    by (vm_compute; reflexivity).
  split; [exact H1 |]. split; [exact H2 |]. split; [vm_compute; reflexivity |].
  exact (renditions_of_same_stem_collide twin_site "/repo/images" "hero" ".jpg" ".png"
           hero_dir fresh _ _ hero_records hero_png_records
           ltac:(vm_compute; left; reflexivity)
           ltac:(vm_compute; right; right; left; reflexivity)
           ltac:(vm_compute; reflexivity)
           ltac:(discriminate)
           ltac:(vm_compute; reflexivity)
           (pair_of_fst _ _ H1) (pair_of_fst _ _ H2)).
Defined.

Lemma webp_left_behind_on_failure_witness :
  fst (ensureDirectory jpeg_fails_site hero_dir fresh) = Ok tt
  /\ log (snd (ensureDirectory jpeg_fails_site hero_dir fresh))
     = [mkLog INFO "Created directory" [("path", JStr hero_dir)]]
  /\ optimizeImage jpeg_fails_site hero hero_dir fresh
     = (Err (OptimizationError
               ("Failed to optimize image: " +:+ Path.relative (SOURCE_DIR jpeg_fails_site) hero)
               (Error "VipsJpeg: out of memory")),
        mkSt (<[rendition_path hero hero_dir ".webp" :=
                  Raster "webp" (Z.min 3000 CONFIG.MAX_IMAGE_WIDTH) 19200]>
                (fs_files fresh))
             (fs_dirs (snd (ensureDirectory jpeg_fails_site hero_dir fresh)))
             (log (snd (ensureDirectory jpeg_fails_site hero_dir fresh))))
  /\ (hero_dir ∈ fs_dirs fresh ->
      fs_dirs (snd (ensureDirectory jpeg_fails_site hero_dir fresh)) = fs_dirs fresh
      /\ log (snd (ensureDirectory jpeg_fails_site hero_dir fresh)) = log fresh).
Proof.
  assert (He : fst (ensureDirectory jpeg_fails_site hero_dir fresh) = Ok tt)
    by (vm_compute; reflexivity).
  split; [exact He |]. split; [vm_compute; reflexivity |].
  exact (webp_left_behind_on_failure jpeg_fails_site hero hero_dir fresh
           (snd (ensureDirectory jpeg_fails_site hero_dir fresh)) 3000 19200
           (Error "VipsJpeg: out of memory")
           ltac:(vm_compute; left; reflexivity)
           (pair_of_fst _ _ He)
           ltac:(vm_compute; reflexivity)
           ltac:(lia)
           ltac:(vm_compute; reflexivity)
           ltac:(vm_compute; reflexivity)
           ltac:(vm_compute; reflexivity)).
Defined.

Lemma old_file_is_no_output : ~ run_outputs site old_file.
Proof.
  intros (k & p & Hp & Hq).
  destruct k; vm_compute in Hp;
    repeat (destruct Hp as [<- | Hp]; [vm_compute in Hq; intuition discriminate |]);
    destruct Hp.
Defined.

Lemma transformers_touch_only_their_outputs_witness :
  ~ with_map main_css_out old_file
  /\ fs_files (snd (optimizeCSS site main_css main_css_out stale)) !! old_file
     = Some (Bytes "stale").
Proof.
  assert (Hno : ~ with_map main_css_out old_file)
    by (vm_compute; intuition discriminate).
  split; [exact Hno |].
  exact (proj1 (proj2 (transformers_touch_only_their_outputs site main_css main_css_out))
           stale old_file Hno).
Defined.

Lemma run_touches_only_outputs_witness :
  ~ run_outputs site old_file
  /\ fs_files (snd (processAssets site stale)) !! old_file = Some (Bytes "stale").
Proof.
  split; [exact old_file_is_no_output |].
  exact (run_touches_only_outputs site stale old_file old_file_is_no_output).
Defined.

Lemma records_describe_written_files_witness :
  fst (optimizeImage site hero hero_dir fresh) = Ok hero_records
  /\ forall r, In r hero_records ->
       on_disk (snd (optimizeImage site hero hero_dir fresh)) (img_path r) (img_size r).
Proof.
  assert (H : fst (optimizeImage site hero hero_dir fresh) = Ok hero_records)
    by (vm_compute; reflexivity).
  split; [exact H |].
  exact (proj1 (records_describe_written_files site hero hero_dir fresh
                  (snd (optimizeImage site hero hero_dir fresh)))
           hero_records (pair_of_fst _ _ H)).
Defined.

Lemma css_source_map_sibling_witness :
  fst (optimizeCSS site main_css main_css_out stale) = Ok main_css_record
  /\ text_at (snd (optimizeCSS site main_css main_css_out stale)) main_css_out
     = Some "body{display:flex}"
  /\ fs_files (snd (optimizeCSS site main_css main_css_out stale)) !! (main_css_out +:+ ".map")
     = fs_files stale !! (main_css_out +:+ ".map").
Proof.
  assert (H : fst (optimizeCSS site main_css main_css_out stale) = Ok main_css_record)
    by (vm_compute; reflexivity).
  split; [exact H |].
  exact (css_source_map_sibling site main_css main_css_out "body{display:flex}"
           (mkPostcss "body{display:flex}" None) main_css_record stale
           (snd (optimizeCSS site main_css main_css_out stale))
           ltac:(vm_compute; reflexivity) ltac:(vm_compute; reflexivity)
           (pair_of_fst _ _ H)).
Defined.

Lemma js_source_map_sibling_witness :
  fst (optimizeJS site app_js app_js_out fresh) = Ok app_js_record
  /\ text_at (snd (optimizeJS site app_js app_js_out fresh)) app_js_out
     = Some "console.log(1)"
  /\ fs_files (snd (optimizeJS site app_js app_js_out fresh)) !! (app_js_out +:+ ".map")
     = Some (Bytes (JSON.stringify "{}")).
Proof.
  assert (H : fst (optimizeJS site app_js app_js_out fresh) = Ok app_js_record)
    by (vm_compute; reflexivity).
  split; [exact H |].
  exact (js_source_map_sibling site app_js app_js_out "debugger;console.log(1)"
           (mkMinify (Some "console.log(1)") (Some "{}")) app_js_record fresh
           (snd (optimizeJS site app_js app_js_out fresh))
           ltac:(vm_compute; reflexivity) ltac:(vm_compute; reflexivity)
           (pair_of_fst _ _ H)).
Defined.

Lemma css_failure_has_no_effect_witness :
  fs_readFile unreadable_site main_css = Err (Error "EACCES: permission denied, open")
  /\ optimizeCSS unreadable_site main_css main_css_out stale
     = (Err (OptimizationError (failure_text unreadable_site KCss main_css)
               (Error "EACCES: permission denied, open")),
        stale).
Proof.
  assert (H : fs_readFile unreadable_site main_css
              = Err (Error "EACCES: permission denied, open"))
    by (vm_compute; reflexivity).
  split; [exact H |].
  exact (css_failure_has_no_effect unreadable_site main_css main_css_out stale
           (Error "EACCES: permission denied, open") (or_introl H)).
Defined.

Lemma js_failure_has_no_effect_witness :
  fs_readFile unreadable_site app_js = Err (Error "EACCES: permission denied, open")
  /\ optimizeJS unreadable_site app_js app_js_out stale
     = (Err (OptimizationError (failure_text unreadable_site KJs app_js)
               (Error "EACCES: permission denied, open")),
        stale).
Proof.
  assert (H : fs_readFile unreadable_site app_js
              = Err (Error "EACCES: permission denied, open"))
    by (vm_compute; reflexivity).
  split; [exact H |].
  exact (js_failure_has_no_effect unreadable_site app_js app_js_out stale
           (Error "EACCES: permission denied, open") (or_introl H)).
Defined.

Lemma outputs_mirror_the_tree_witness :
  tidy "styles/main.css" = true
  /\ Glob.absolute (SOURCE_DIR site) "styles/main.css" = main_css
  /\ mirror_path site main_css = main_css_out
  /\ let p := Glob.absolute (SOURCE_DIR site) "styles/main.css" in
     Path.relative (SOURCE_DIR site) p = "styles/main.css"
     /\ mirror_path site p = Path.join [BUILD_DIR site; "styles/main.css"]
     /\ image_outputDir site p = Path.join [BUILD_DIR site; Path.dirname "styles/main.css"].
Proof.
  assert (H : tidy "styles/main.css" = true) by (vm_compute; reflexivity).
  split; [exact H |]. split; [vm_compute; reflexivity |]. split; [vm_compute; reflexivity |].
  exact (outputs_mirror_the_tree site "styles/main.css" H).
Defined.
